(** * system_inventory.py: a shallow embedding and its properties

    The program collects one snapshot of the host (uname, CPU, memory,
    disks, network interfaces, package count) and writes it as JSON or as
    a one-row CSV.  The embedding follows [src/system_inventory.py]:

    - Python [str] values are lists of Unicode code points ([pystr]);
    - Python [float] values are IEEE-754 binary64 numbers, taken from the
      standard library's [SpecFloat] (precision 53, [emax] 1024);
    - Python [int] values are [Z];
    - exceptions are an explicit outcome type, with the class hierarchy
      the [except] clauses of the source depend on;
    - the operating system (psutil, os, socket, subprocess, time) is a
      record of oracles, [Host]; the calls that matter for ordering are
      logged as events;
    - the text streams the program writes to translate line feeds to
      [os.linesep] and raise on a character their encoding lacks;
    - dictionaries whose order matters are association lists, the
      interface-statistics table is a [gmap]. *)

From Stdlib Require Import ZArith NArith List Bool Lia String Ascii.
From Stdlib Require Import Floats.SpecFloat DecimalString.
From stdpp Require Import base option list gmap.

Local Open Scope Z_scope.
Local Open Scope list_scope.

(* ===================================================================== *)
(** ** Python strings *)
(* ===================================================================== *)

Module PyStr.

(** A [str] is a sequence of code points. *)
Abbreviation pystr := (list N).

(** Literals of the source, written as Rocq strings. *)
Definition str (s : string) : pystr :=
  List.map N_of_ascii (list_ascii_of_string s).

Definition COMMA : N := 44.
Definition DQUOTE : N := 34.
Definition CR : N := 13.
Definition LF : N := 10.
Definition PERCENT : N := 37.

(** The characters of ASCII. *)
Definition is_ascii (c : N) : bool := (c <? 128)%N.

(** [str.isspace] on one code point (the table of CPython's
    [_PyUnicode_IsWhitespace]). *)
Definition is_space (c : N) : bool :=
  (((9 <=? c) && (c <=? 13)) || ((28 <=? c) && (c <=? 32))
   || (c =? 133) || (c =? 160) || (c =? 5760)
   || ((8192 <=? c) && (c <=? 8202))
   || (c =? 8232) || (c =? 8233) || (c =? 8239) || (c =? 8287)
   || (c =? 12288))%N.

(** Line boundaries of [str.splitlines] ([_PyUnicode_IsLinebreak]). *)
Definition is_linebreak (c : N) : bool :=
  (((10 <=? c) && (c <=? 13)) || ((28 <=? c) && (c <=? 30))
   || (c =? 133) || (c =? 8232) || (c =? 8233))%N.

(** [s.lstrip()], [s.rstrip()], [s.strip()]. *)
Fixpoint lstrip (s : pystr) : pystr :=
  match s with
  | c :: s' => if is_space c then lstrip s' else s
  | [] => []
  end.

Definition rstrip (s : pystr) : pystr := rev (lstrip (rev s)).

Definition strip (s : pystr) : pystr := rstrip (lstrip s).

(** [s.split(sep)] for a one-character separator: never empty, the
    pieces are the maximal runs between separators. *)
Fixpoint split (sep : N) (s : pystr) : list pystr :=
  match s with
  | [] => [[]]
  | c :: s' =>
      if (c =? sep)%N then [] :: split sep s'
      else match split sep s' with
           | piece :: pieces => (c :: piece) :: pieces
           | [] => [[c]]
           end
  end.

(** [sep.join(parts)]. *)
Fixpoint join (sep : pystr) (parts : list pystr) : pystr :=
  match parts with
  | [] => []
  | [p] => p
  | p :: ps => p ++ sep ++ join sep ps
  end.

(** [s.splitlines()]: cut after every line boundary, CR LF counting
    as one; no empty last line. *)
Fixpoint splitlines_aux (cur : pystr) (s : pystr) : list pystr :=
  match s with
  | [] => match cur with [] => [] | _ => [rev cur] end
  | c :: s' =>
      if is_linebreak c then
        match s' with
        | c' :: s'' =>
            if ((c =? CR) && (c' =? LF))%N
            then rev cur :: splitlines_aux [] s''
            else rev cur :: splitlines_aux [] s'
        | [] => [rev cur]
        end
      else splitlines_aux (c :: cur) s'
  end.

Definition splitlines (s : pystr) : list pystr := splitlines_aux [] s.

(** Truthiness of a string. *)
Definition truthy (s : pystr) : bool :=
  match s with [] => false | _ => true end.

(** [str(n)] for an [int]. *)
Definition str_of_int (n : Z) : pystr :=
  str (NilZero.string_of_int (Z.to_int n)).

(** A non-negative number below 100 on exactly two digits. *)
Definition two_digits (n : Z) : pystr :=
  [Z.to_N (48 + n / 10); Z.to_N (48 + n mod 10)].

End PyStr.
Export PyStr.

(* ===================================================================== *)
(** ** Exceptions and outcomes *)
(* ===================================================================== *)

Module PyExn.

(** The exception classes the program can meet; all of them derive
    from [Exception]. *)
Inductive exn : Set :=
| Exception
| ArithmeticError
| OverflowError
| ZeroDivisionError
| LookupError
| IndexError
| ValueError
| UnicodeDecodeError
| UnicodeEncodeError
| RuntimeError
| NotImplementedError
| AttributeError
| OSError
| PermissionError
| FileNotFoundError
| SubprocessError
| CalledProcessError
| TimeoutExpired
| CsvError.

Definition exn_eqb (a b : exn) : bool :=
  match a, b with
  | Exception, Exception
  | ArithmeticError, ArithmeticError | OverflowError, OverflowError
  | ZeroDivisionError, ZeroDivisionError | LookupError, LookupError
  | IndexError, IndexError | ValueError, ValueError
  | UnicodeDecodeError, UnicodeDecodeError
  | UnicodeEncodeError, UnicodeEncodeError
  | RuntimeError, RuntimeError
  | NotImplementedError, NotImplementedError
  | AttributeError, AttributeError | OSError, OSError
  | PermissionError, PermissionError
  | FileNotFoundError, FileNotFoundError
  | SubprocessError, SubprocessError
  | CalledProcessError, CalledProcessError
  | TimeoutExpired, TimeoutExpired | CsvError, CsvError => true
  | _, _ => false
  end.

(** The direct base class. *)
Definition base (e : exn) : option exn :=
  match e with
  | Exception => None
  | ArithmeticError | LookupError | ValueError | AttributeError
  | OSError | SubprocessError | CsvError | RuntimeError => Some Exception
  | OverflowError | ZeroDivisionError => Some ArithmeticError
  | IndexError => Some LookupError
  | UnicodeDecodeError | UnicodeEncodeError => Some ValueError
  | NotImplementedError => Some RuntimeError
  | PermissionError | FileNotFoundError => Some OSError
  | CalledProcessError | TimeoutExpired => Some SubprocessError
  end.

(** [isinstance(e, cls)]: walk up the hierarchy (its depth is 3). *)
Fixpoint isinstance_fuel (fuel : nat) (e cls : exn) : bool :=
  exn_eqb e cls ||
  match fuel, base e with
  | S k, Some b => isinstance_fuel k b cls
  | _, _ => false
  end.

Definition isinstance (e cls : exn) : bool := isinstance_fuel 3 e cls.

(** What running a piece of code yields. *)
Inductive res (A : Type) : Type :=
| Ok (a : A)
| Raise (e : exn).
Arguments Ok {A} a.
Arguments Raise {A} e.

Definition res_bind {A B} (m : res A) (k : A -> res B) : res B :=
  match m with
  | Ok a => k a
  | Raise e => Raise e
  end.

(** [try: body  except classes: handler]. *)
Definition try_except {A} (body : res A) (classes : list exn)
    (handler : res A) : res A :=
  match body with
  | Ok a => Ok a
  | Raise e => if existsb (isinstance e) classes then handler else Raise e
  end.

End PyExn.
Export PyExn.

#[export] Instance res_ret : MRet res := @Ok.
#[export] Instance res_bind_inst : MBind res := fun A B k m => res_bind m k.

(* ===================================================================== *)
(** ** Python floats *)
(* ===================================================================== *)

Module PyFloat.

Definition prec : Z := 53.
Definition emax : Z := 1024.

Abbreviation float := spec_float.

Definition nan : float := S754_nan.

(** [float(n)] for an [int]: the nearest double, ties to even;
    [OverflowError] when that is out of range. *)
Definition float_of_int (n : Z) : res float :=
  match binary_normalize prec emax n 0 false with
  | S754_infinity _ => Raise OverflowError
  | f => Ok f
  end.

(** The literal [1024] as a double, and [0] for comparisons. *)
Definition f1024 : float :=
  Eval vm_compute in binary_normalize prec emax 1024 0 false.

(** [x / y], [x - y], [x >= y], [x == y] on doubles. *)
Definition fdiv (x y : float) : res float :=
  match y with
  | S754_zero _ => Raise ZeroDivisionError
  | _ => Ok (SFdiv prec emax x y)
  end.
Definition fsub (x y : float) : float := SFsub prec emax x y.
Definition fge (x y : float) : bool := SFleb y x.
Definition feq (x y : float) : bool := SFeqb x y.

(** [int(x)] for a double: truncation toward zero. *)
Definition int_of_float (x : float) : res Z :=
  match x with
  | S754_nan => Raise ValueError
  | S754_infinity _ => Raise OverflowError
  | S754_zero _ => Ok 0
  | S754_finite s m e =>
      let mag := match e with
                 | Zneg p => Z.pos m / 2 ^ Z.pos p
                 | _ => Z.pos m * 2 ^ e
                 end in
      Ok (if s then - mag else mag)
  end.

(** The number of hundredths nearest to [m * 2^e], ties to even. *)
Definition centi (m : positive) (e : Z) : Z :=
  match e with
  | Zneg p =>
      let num := Z.pos m * 100 in
      let den := 2 ^ Z.pos p in
      let q := num / den in
      let r := num mod den in
      match 2 * r ?= den with
      | Lt => q
      | Gt => q + 1
      | Eq => if Z.even q then q else q + 1
      end
  | _ => Z.pos m * 2 ^ e * 100
  end.

(** Hundredths as fixed-point text. *)
Definition render_centi (c : Z) : pystr :=
  str_of_int (c / 100) ++ str "." ++ two_digits (c mod 100).

(** [f"{x:.2f}"]. *)
Definition format_2f (x : float) : pystr :=
  match x with
  | S754_nan => str "nan"
  | S754_infinity s => if s then str "-inf" else str "inf"
  | S754_zero s => if s then str "-0.00" else str "0.00"
  | S754_finite s m e =>
      (if s then str "-" else []) ++ render_centi (centi m e)
  end.

End PyFloat.
Export PyFloat.

(* ===================================================================== *)
(** ** [human_bytes] *)
(* ===================================================================== *)

(** A [while] loop unrolled [fuel] times: the state it has reached when
    the condition fails, or after [fuel] rounds.  It is the state after
    the loop whenever the condition is false there. *)
Fixpoint while_loop {S : Type} (fuel : nat) (cond : S -> bool)
    (body : S -> res S) (s : S) : res S :=
  match fuel with
  | O => Ok s
  | S k =>
      if cond s then s' ← body s; while_loop k cond body s'
      else Ok s
  end.

Definition symbols : list pystr :=
  [str "B"; str "KB"; str "MB"; str "GB"; str "TB"].

(** [symbols[i]] with Python's index rules: negative indexes count from
    the end, anything else out of range raises. *)
Definition getitem {A} (l : list A) (i : Z) : res A :=
  let n := Z.of_nat (length l) in
  let j := if i <? 0 then i + n else i in
  if (j <? 0) || (n <=? j) then Raise IndexError
  else match nth_error l (Z.to_nat j) with
       | Some a => Ok a
       | None => Raise IndexError
       end.

Definition hb_cond (st : float * Z) : bool :=
  fge (fst st) f1024 && (snd st <? Z.of_nat (length symbols) - 1).

Definition hb_body (st : float * Z) : res (float * Z) :=
  f ← fdiv (fst st) f1024;
  Ok (f, snd st + 1).

(** Lines 24-28: [i = 0; f = float(n); while ...]. *)
Definition hb_loop (fuel : nat) (f : float) : res (float * Z) :=
  while_loop fuel hb_cond hb_body (f, 0).

(** Line 29. *)
Definition hb_finish (st : float * Z) : res pystr :=
  sym ← getitem symbols (snd st);
  Ok (format_2f (fst st) ++ str " " ++ sym).

Definition human_bytes_fuel (fuel : nat) (n : Z) : res pystr :=
  f ← float_of_int n;
  st ← hb_loop fuel f;
  hb_finish st.

(** [human_bytes(n)]: the condition bounds the loop by
    [len(symbols) - 1] rounds (see [hb_loop_exits]). *)
Definition human_bytes (n : Z) : res pystr :=
  human_bytes_fuel (length symbols - 1) n.

(* ===================================================================== *)
(** ** The inventory record *)
(* ===================================================================== *)

Record OsInfo := {
  os_system : pystr;
  os_release : pystr;
  os_version : pystr;
  os_machine : pystr;
  os_processor : pystr;
}.

Record CpuInfo := {
  physical_cores : option Z;
  logical_cpus : option Z;
  loadavg_1m : option float;
  loadavg_5m : option float;
  loadavg_15m : option float;
  freq_mhz : option float;
}.

Record MemInfo := {
  mem_total_bytes : Z;
  mem_available_bytes : Z;
  mem_percent_used : float;
}.

Record DiskEntry := {
  device : pystr;
  fstype : pystr;
  total_bytes : Z;
  used_bytes : Z;
  free_bytes : Z;
  percent_used : float;
}.

Record NicEntry := {
  iface : pystr;
  is_up : option bool;
  ipv4 : list pystr;
  ipv6 : list pystr;
}.

Record PkgSummary := {
  manager : pystr;
  count : Z;
}.

Record Inventory := {
  timestamp : pystr;
  hostname : pystr;
  fqdn : pystr;
  os : OsInfo;
  cpu : CpuInfo;
  memory : MemInfo;
  uptime_seconds : float;
  disks : list DiskEntry;
  network : list NicEntry;
  packages : option PkgSummary;
  tags : list pystr;
}.

(* ===================================================================== *)
(** ** The host: what the operating system answers *)
(* ===================================================================== *)

Record Partition := {
  p_device : pystr;
  p_mountpoint : pystr;
  p_fstype : pystr;
}.

Record Usage := {
  u_total : Z;
  u_used : Z;
  u_free : Z;
  u_percent : float;
}.

Inductive family := AF_INET | AF_INET6 | AF_PACKET.

Record Addr := {
  a_family : option family;     (* [getattr(a, 'family', None)] *)
  a_address : pystr;
}.

Record NicStats := {
  isup : bool;
  mtu : Z;
}.

(** What the host answers to the calls of the program.  The calls the
    source guards with a [try] may raise, and so may [psutil.cpu_freq()]
    (it raises [NotImplementedError] where psutil finds no frequency)
    and [open]; the other probes of [platform], [psutil], [socket] and
    [datetime] are taken to answer. *)

(** [os.linesep]: a line feed, or carriage return and line feed. *)
Inductive newline := NlLF | NlCRLF.

Definition newline_text (nl : newline) : pystr :=
  match nl with
  | NlLF => [LF]
  | NlCRLF => [CR; LF]
  end.

Record Host := {
  uname_system : pystr;
  uname_release : pystr;
  uname_version : pystr;
  uname_machine : pystr;
  uname_processor : pystr;
  vm_total : Z;
  vm_available : Z;
  vm_percent : float;
  os_getloadavg : res (float * float * float);
  disk_partitions : list Partition;
  disk_usage : pystr -> res Usage;
  net_if_addrs : list (pystr * list Addr);
  net_if_stats : gmap (list N) NicStats;
  path_exists : pystr -> bool;
  check_output : list pystr -> Z -> res pystr;
  utcnow_isoformat : pystr;
  gethostname : pystr;
  getfqdn : pystr;
  cpu_count_physical : option Z;
  cpu_count_logical : option Z;
  cpu_freq : res (option float);    (* [psutil.cpu_freq()], its [current] *)
  time_time : float;
  boot_time : res float;
  open_w : pystr -> res unit;
  os_linesep : newline;
  encodes : N -> bool;    (* what the locale's encoding has beyond ASCII *)
}.

(** Library functions the program calls and whose text is not part of
    this repository: [str.lower], [repr] of a float, [json.dumps].
    With its default [ensure_ascii] the latter escapes every character
    outside ASCII. *)
Class PyLib := {
  str_lower : pystr -> pystr;
  float_repr : float -> pystr;
  json_dumps : Inventory -> option Z -> pystr;
  json_dumps_ascii : forall data indent,
    forallb is_ascii (json_dumps data indent) = true;
}.

(* ===================================================================== *)
(** ** Effects: calls to the system, output *)
(* ===================================================================== *)

Inductive event :=
| EvGetLoadAvg
| EvDiskUsage (mountpoint : pystr)
| EvPathExists (path : pystr)
| EvCheckOutput (argv : list pystr) (timeout : Z)
| EvOpenW (path : pystr).

(** Where text goes: file descriptor 1 or a named file. *)
Inductive handle := Stdout | File (path : pystr).

(** Descriptor 1 and the files hold the characters that reached them;
    their bytes are the encoding of these. *)
Record Sys := {
  log : list event;                 (* system calls, oldest first *)
  out : pystr;                      (* what was written to descriptor 1 *)
  fs : gmap (list N) (list N);      (* contents of the files written *)
}.

Definition sys0 : Sys := {| log := []; out := []; fs := ∅ |}.

Definition io (A : Type) : Type := Sys -> res A * Sys.

Definition io_ret {A} (a : A) : io A := fun s => (Ok a, s).
Definition io_raise {A} (e : exn) : io A := fun s => (Raise e, s).
Definition io_bind {A B} (m : io A) (k : A -> io B) : io B :=
  fun s => match m s with
           | (Ok a, s') => k a s'
           | (Raise e, s') => (Raise e, s')
           end.
Definition io_lift {A} (r : res A) : io A := fun s => (r, s).

#[export] Instance io_mret : MRet io := @io_ret.
#[export] Instance io_mbind : MBind io := fun A B k m => io_bind m k.

(** [try: body  except classes: handler]; what the body did before it
    raised stays done. *)
Definition io_try {A} (body : io A) (classes : list exn) (handler : io A)
    : io A :=
  fun s => match body s with
           | (Ok a, s') => (Ok a, s')
           | (Raise e, s') =>
               if existsb (isinstance e) classes then handler s'
               else (Raise e, s')
           end.

Definition add_log (s : Sys) (evs : list event) : Sys :=
  {| log := log s ++ evs; out := out s; fs := fs s |}.

Definition emit (ev : event) : io unit :=
  fun s => (Ok tt, add_log s [ev]).

(** The events that run a package manager. *)
Definition is_query (ev : event) : bool :=
  match ev with
  | EvCheckOutput _ _ => true
  | _ => false
  end.

(** A system call: logged, then answered by the host. *)
Definition syscall {A} (ev : event) (answer : res A) : io A :=
  _ ← emit ev; io_lift answer.

(** Replace the contents of a file. *)
Definition set_file (path text : pystr) : io unit :=
  fun s => (Ok tt, {| log := log s; out := out s;
                      fs := <[path := text]> (fs s) |}).

(** [open(path, "w")]: the file is emptied. *)
Definition open_write (h : Host) (path : pystr) : io handle :=
  _ ← syscall (EvOpenW path) (open_w h path);
  _ ← set_file path [];
  io_ret (File path).

(** Characters added at the end of a destination. *)
Definition append (f : handle) (text : pystr) : io unit :=
  match f with
  | Stdout =>
      fun s => (Ok tt, {| log := log s; out := out s ++ text; fs := fs s |})
  | File p =>
      fun s => set_file p (default [] (fs s !! p) ++ text) s
  end.

(** The streams of the program ([open(path, "w")], [os.fdopen(1, "w")],
    [sys.stdout]) are text streams with the default [newline], the
    locale's encoding (an extension of ASCII) and strict errors. *)
Definition encodable (h : Host) (c : N) : bool := is_ascii c || encodes h c.

(** Every line feed written becomes [os.linesep]. *)
Definition translate_newlines (h : Host) (text : pystr) : pystr :=
  flat_map (fun c => if (c =? LF)%N then newline_text (os_linesep h)
                     else [c]) text.

(** [f.write(text)]: one character the encoding lacks and the call
    raises [UnicodeEncodeError], nothing of its text being written. *)
Definition write (h : Host) (f : handle) (text : pystr) : io unit :=
  if forallb (encodable h) text then append f (translate_newlines h text)
  else io_raise UnicodeEncodeError.

(** [print(text)] writes the text and the line end to [sys.stdout]. *)
Definition print (h : Host) (text : pystr) : io unit :=
  _ ← write h Stdout text; write h Stdout [LF].

(* ===================================================================== *)
(** ** The [csv] module: writer (excel dialect) and [DictWriter] *)
(* ===================================================================== *)

Module Csv.

(** Values a row may hold. *)
Inductive cell :=
| CStr (s : pystr)
| CInt (n : Z)
| CFloat (f : float)
| CNone.

(** The writer turns [None] into the empty string, keeps strings, and
    calls [str] on the rest. *)
Definition cell_text `{PyLib} (c : cell) : pystr :=
  match c with
  | CStr s => s
  | CInt n => str_of_int n
  | CFloat f => float_repr f
  | CNone => []
  end.

(** QUOTE_MINIMAL: a field is quoted when it holds the delimiter, the
    quote character or a character of the line terminator. *)
Definition needs_quote (c : N) : bool :=
  ((c =? COMMA) || (c =? DQUOTE) || (c =? CR) || (c =? LF))%N.

(** Inside quotes the quote character is doubled. *)
Fixpoint escape (f : pystr) : pystr :=
  match f with
  | [] => []
  | c :: f' =>
      if (c =? DQUOTE)%N then DQUOTE :: DQUOTE :: escape f'
      else c :: escape f'
  end.

Definition render_field (f : pystr) : pystr :=
  if existsb needs_quote f then DQUOTE :: escape f ++ [DQUOTE] else f.

(** [writer.writerow(fields)]: fields joined by commas, a lone empty
    field written as two quotes, then CR LF. *)
Definition render_record (fields : list pystr) : pystr :=
  let body := join [COMMA] (List.map render_field fields) in
  match fields, body with
  | _ :: _, [] => [DQUOTE; DQUOTE; CR; LF]
  | _, _ => body ++ [CR; LF]
  end.

(** A [dict] in insertion order. *)
Definition rowdict := list (pystr * cell).

Fixpoint dict_get (k : pystr) (d : rowdict) : option cell :=
  match d with
  | [] => None
  | (k', v) :: d' => if bool_decide (k' = k) then Some v else dict_get k d'
  end.

Definition dict_keys (d : rowdict) : list pystr := List.map fst d.

Record DictWriter := {
  dw_file : handle;
  fieldnames : list pystr;
  restval : cell;
}.

(** [DictWriter._dict_to_list] with [extrasaction = "raise"]. *)
Definition dict_to_list (w : DictWriter) (d : rowdict) : res (list cell) :=
  if forallb (fun k => bool_decide (k ∈ fieldnames w)) (dict_keys d)
  then Ok (List.map (fun k => default (restval w) (dict_get k d))
                    (fieldnames w))
  else Raise ValueError.

(** [writerow] hands the whole record to the file in one [write]. *)
Definition writerow `{PyLib} (h : Host) (w : DictWriter) (d : rowdict)
    : io unit :=
  cells ← io_lift (dict_to_list w d);
  write h (dw_file w) (render_record (List.map cell_text cells)).

Definition writeheader `{PyLib} (h : Host) (w : DictWriter) : io unit :=
  writerow h w (List.map (fun k => (k, CStr k)) (fieldnames w)).

(** *** The reader of the same dialect

    The automaton of [csv.reader] (non-strict, no escape character, no
    field size limit).  It is what "row" and "field" of a CSV text
    mean below. *)

Inductive rstate :=
| START_RECORD
| START_FIELD
| IN_FIELD
| IN_QUOTED_FIELD
| QUOTE_IN_QUOTED_FIELD
| EAT_CRNL.

Record reader := {
  state : rstate;
  field : pystr;                  (* the field being read *)
  fields : list pystr;            (* the fields of the current row *)
  records : list (list pystr);    (* the rows read so far *)
}.

Definition reader0 : reader :=
  {| state := START_RECORD; field := []; fields := []; records := [] |}.

Definition set_state (r : reader) (st : rstate) : reader :=
  {| state := st; field := field r; fields := fields r;
     records := records r |}.

Definition add_char (r : reader) (c : N) : reader :=
  {| state := state r; field := field r ++ [c]; fields := fields r;
     records := records r |}.

Definition save_field (r : reader) : reader :=
  {| state := state r; field := []; fields := fields r ++ [field r];
     records := records r |}.

Definition is_newline (c : N) : bool := ((c =? LF) || (c =? CR))%N.

(** After a field: the row ends at a line end, goes on otherwise. *)
Definition end_field (r : reader) (c : option N) : reader :=
  set_state (save_field r)
    (match c with None => START_RECORD | Some _ => EAT_CRNL end).

(** One step on a character, or on the end of a line ([None]). *)
Definition process_char (r : reader) (c : option N) : res reader :=
  let start_field :=
    match c with
    | None => Ok (end_field r c)
    | Some ch =>
        if is_newline ch then Ok (end_field r c)
        else if (ch =? DQUOTE)%N then Ok (set_state r IN_QUOTED_FIELD)
        else if (ch =? COMMA)%N then Ok (set_state (save_field r) START_FIELD)
        else Ok (set_state (add_char r ch) IN_FIELD)
    end in
  match state r with
  | START_RECORD =>
      match c with
      | None => Ok r
      | Some ch =>
          if is_newline ch then Ok (set_state r EAT_CRNL) else start_field
      end
  | START_FIELD => start_field
  | IN_FIELD =>
      match c with
      | None => Ok (end_field r c)
      | Some ch =>
          if is_newline ch then Ok (end_field r c)
          else if (ch =? COMMA)%N
               then Ok (set_state (save_field r) START_FIELD)
               else Ok (add_char r ch)
      end
  | IN_QUOTED_FIELD =>
      match c with
      | None => Ok r
      | Some ch =>
          if (ch =? DQUOTE)%N then Ok (set_state r QUOTE_IN_QUOTED_FIELD)
          else Ok (add_char r ch)
      end
  | QUOTE_IN_QUOTED_FIELD =>
      match c with
      | None => Ok (end_field r c)
      | Some ch =>
          if (ch =? DQUOTE)%N
          then Ok (set_state (add_char r ch) IN_QUOTED_FIELD)
          else if (ch =? COMMA)%N
               then Ok (set_state (save_field r) START_FIELD)
               else if is_newline ch then Ok (end_field r c)
                    else Ok (set_state (add_char r ch) IN_FIELD)
      end
  | EAT_CRNL =>
      match c with
      | None => Ok (set_state r START_RECORD)
      | Some ch => if is_newline ch then Ok r else Raise CsvError
      end
  end.

(** The reader takes its input line by line (ends: LF, CR LF, CR, or
    the end of the text) and steps on [None] after every line; a row
    is complete when that leaves it in [START_RECORD]. *)
Definition line_ends (c : N) (rest : pystr) : bool :=
  match rest with
  | [] => true
  | c' :: _ => ((c =? LF) || ((c =? CR) && negb (c' =? LF)))%N
  end.

Definition end_of_line (r : reader) : res reader :=
  r' ← process_char r None;
  Ok (match state r' with
      | START_RECORD =>
          {| state := START_RECORD; field := []; fields := [];
             records := records r' ++ [fields r'] |}
      | _ => r'
      end).

Fixpoint parse (r : reader) (text : pystr) : res reader :=
  match text with
  | [] => Ok r
  | c :: rest =>
      r1 ← process_char r (Some c);
      r2 ← (if line_ends c rest then end_of_line r1 else Ok r1);
      parse r2 rest
  end.

(** At the end of the input an open quoted field closes its row. *)
Definition finish (r : reader) : list (list pystr) :=
  match state r with
  | IN_QUOTED_FIELD => records r ++ [fields r ++ [field r]]
  | _ => records r
  end.

(** [list(csv.reader(text))]. *)
Definition read (text : pystr) : res (list (list pystr)) :=
  r ← parse reader0 text; Ok (finish r).

End Csv.

(* ===================================================================== *)
(** ** The program *)
(* ===================================================================== *)

Section Program.

Context `{PyLib}.

(** [get_uptime_seconds]. *)
Definition get_uptime_seconds (h : Host) : io float :=
  io_try (b ← io_lift (boot_time h); io_ret (fsub (time_time h) b))
         [Exception]
         (io_ret nan).

(** Lines 37-40: the load averages, or three [None]. *)
Definition load_averages (h : Host)
    : io (option float * option float * option float) :=
  io_try (l ← syscall EvGetLoadAvg (os_getloadavg h);
          io_ret (Some l.1.1, Some l.1.2, Some l.2))
         [AttributeError; OSError]
         (io_ret (None, None, None)).

(** Lines 43-56: the loop over the partitions. *)
Definition disk_entry (p : Partition) (usage : Usage) : DiskEntry :=
  {| device := p_device p;
     fstype := p_fstype p;
     total_bytes := u_total usage;
     used_bytes := u_used usage;
     free_bytes := u_free usage;
     percent_used := u_percent usage |}.

Fixpoint disks_loop (h : Host) (ps : list Partition)
    (disks : list DiskEntry) : io (list DiskEntry) :=
  match ps with
  | [] => io_ret disks
  | p :: ps' =>
      disks' ← io_try
        (usage ← syscall (EvDiskUsage (p_mountpoint p))
                         (disk_usage h (p_mountpoint p));
         io_ret (disks ++ [disk_entry p usage]))
        [PermissionError]
        (io_ret disks);
      disks_loop h ps' disks'
  end.

Definition collect_disks (h : Host) : io (list DiskEntry) :=
  disks_loop h (disk_partitions h) [].

(** Lines 59-70: the loop over the interfaces. *)

(** [stats.get(ifname).isup]: [get] answers [None] for a missing key,
    and [None] has no attribute [isup]. *)
Definition stats_get_isup (stats : gmap (list N) NicStats)
    (ifname : pystr) : res bool :=
  match stats !! ifname with
  | Some st => Ok (isup st)
  | None => Raise AttributeError
  end.

Definition new_entry (stats : gmap (list N) NicStats) (ifname : pystr)
    : res NicEntry :=
  up ← (if bool_decide (ifname ∈ dom stats)
        then b ← stats_get_isup stats ifname; Ok (Some b)
        else Ok None);
  Ok {| iface := ifname; is_up := up; ipv4 := []; ipv6 := [] |}.

(** [a.address.split('%')[0]]. *)
Definition strip_zone (address : pystr) : pystr :=
  match split PERCENT address with
  | first :: _ => first
  | [] => []
  end.

Definition add_address (entry : NicEntry) (a : Addr) : NicEntry :=
  match a_family a with
  | Some AF_INET =>
      {| iface := iface entry; is_up := is_up entry;
         ipv4 := ipv4 entry ++ [a_address a]; ipv6 := ipv6 entry |}
  | Some AF_INET6 =>
      {| iface := iface entry; is_up := is_up entry;
         ipv4 := ipv4 entry;
         ipv6 := ipv6 entry ++ [strip_zone (a_address a)] |}
  | _ => entry
  end.

Fixpoint nics_loop (stats : gmap (list N) NicStats)
    (items : list (pystr * list Addr)) (nics : list NicEntry)
    : res (list NicEntry) :=
  match items with
  | [] => Ok nics
  | (ifname, addr_list) :: items' =>
      entry ← new_entry stats ifname;
      nics_loop stats items'
                (nics ++ [fold_left add_address addr_list entry])
  end.

Definition collect_nics (h : Host) : res (list NicEntry) :=
  nics_loop (net_if_stats h) (net_if_addrs h) [].

(** Lines 72-84: the package count. *)
Definition is_linux (h : Host) : bool :=
  bool_decide (str_lower (uname_system h) = str "linux").

Definition dpkg_path : pystr := str "/usr/bin/dpkg-query".
Definition rpm_path : pystr := str "/usr/bin/rpm".
Definition dpkg_argv : list pystr :=
  [str "dpkg-query"; str "-f"; str "${binary:Package}" ++ [LF]; str "-W"].
Definition rpm_argv : list pystr := [str "rpm"; str "-qa"].

(** [len([l for l in out.splitlines() if l.strip()])]. *)
Definition count_lines (output : pystr) : Z :=
  Z.of_nat (length (List.filter (fun l => truthy (strip l))
                                (splitlines output))).

Definition os_path_exists (h : Host) (path : pystr) : io bool :=
  syscall (EvPathExists path) (Ok (path_exists h path)).

Definition subprocess_check_output (h : Host) (argv : list pystr)
    (timeout : Z) : io pystr :=
  syscall (EvCheckOutput argv timeout) (check_output h argv timeout).

Definition count_packages (h : Host) : io (option PkgSummary) :=
  if is_linux h then
    io_try
      (dpkg ← os_path_exists h dpkg_path;
       if dpkg : bool then
         output ← subprocess_check_output h dpkg_argv 10;
         io_ret (Some {| manager := str "dpkg";
                         count := count_lines output |})
       else
         rpm ← os_path_exists h rpm_path;
         if rpm : bool then
           output ← subprocess_check_output h rpm_argv 10;
           io_ret (Some {| manager := str "rpm";
                           count := count_lines output |})
         else io_ret None)
      [Exception]
      (io_ret None)
  else io_ret None.

(** [collect_inventory(tags)].  Line 103 calls [psutil.cpu_freq()]
    outside any [try], after the package step and before the uptime. *)
Definition collect_inventory (h : Host) (tags : option (list pystr))
    : io Inventory :=
  loads ← load_averages h;
  disks ← collect_disks h;
  nics ← io_lift (collect_nics h);
  pkg_summary ← count_packages h;
  freq ← io_lift (cpu_freq h);
  uptime ← get_uptime_seconds h;
  io_ret
    {| timestamp := utcnow_isoformat h ++ str "Z";
       hostname := gethostname h;
       fqdn := getfqdn h;
       os := {| os_system := uname_system h;
                os_release := uname_release h;
                os_version := uname_version h;
                os_machine := uname_machine h;
                os_processor := uname_processor h |};
       cpu := {| physical_cores := cpu_count_physical h;
                 logical_cpus := cpu_count_logical h;
                 loadavg_1m := loads.1.1;
                 loadavg_5m := loads.1.2;
                 loadavg_15m := loads.2;
                 freq_mhz := freq |};
       memory := {| mem_total_bytes := vm_total h;
                    mem_available_bytes := vm_available h;
                    mem_percent_used := vm_percent h |};
       uptime_seconds := uptime;
       disks := disks;
       network := nics;
       packages := pkg_summary;
       tags := default [] tags |}.

(** [int(x)] where [x] is a float or an int. *)
Inductive number := NumF (f : float) | NumI (n : Z).

Definition py_int (x : number) : res Z :=
  match x with
  | NumF f => int_of_float f
  | NumI n => Ok n
  end.

(** Line 130: [int(u if u == u else 0)]. *)
Definition uptime_field (u : float) : res Z :=
  py_int (if feq u u then NumF u else NumI 0).

Definition opt_int_cell (n : option Z) : Csv.cell :=
  match n with
  | Some k => Csv.CInt k
  | None => Csv.CNone
  end.

(** Lines 121-134: the flattened row. *)
Definition csv_row (data : Inventory) : res Csv.rowdict :=
  mem_total ← human_bytes (mem_total_bytes (memory data));
  uptime ← uptime_field (uptime_seconds data);
  Ok [ (str "timestamp", Csv.CStr (timestamp data));
       (str "hostname", Csv.CStr (hostname data));
       (str "fqdn", Csv.CStr (fqdn data));
       (str "os_system", Csv.CStr (os_system (os data)));
       (str "os_release", Csv.CStr (os_release (os data)));
       (str "logical_cpus", opt_int_cell (logical_cpus (cpu data)));
       (str "mem_total", Csv.CStr mem_total);
       (str "mem_used_pct", Csv.CFloat (mem_percent_used (memory data)));
       (str "uptime_seconds", Csv.CInt uptime);
       (str "disk_count", Csv.CInt (Z.of_nat (length (disks data))));
       (str "iface_count", Csv.CInt (Z.of_nat (length (network data))));
       (str "tags", Csv.CStr (join [COMMA] (tags data))) ].

(** [open(out_path, "w") if out_path else os.fdopen(1, "w")]. *)
Definition open_destination (h : Host) (out_path : option pystr)
    : io handle :=
  match out_path with
  | Some path => if truthy path then open_write h path else io_ret Stdout
  | None => io_ret Stdout
  end.

(** [write_csv(data, out_path)]. *)
Definition write_csv (h : Host) (data : Inventory)
    (out_path : option pystr) : io unit :=
  row ← io_lift (csv_row data);
  f ← open_destination h out_path;
  let writer := {| Csv.dw_file := f;
                   Csv.fieldnames := Csv.dict_keys row;
                   Csv.restval := Csv.CStr [] |} in
  _ ← Csv.writeheader h writer;
  Csv.writerow h writer row.

(** The command line, after [argparse]. *)
Inductive format := FormatCsv | FormatJson.

Record Args := {
  arg_format : format;
  arg_out : option pystr;
  arg_pretty : bool;
  arg_tags : option pystr;
}.

(** Line 149:
    [[t.strip() for t in args.tags.split(",") if t.strip()] if args.tags else []]. *)
Definition parse_tags (arg : option pystr) : list pystr :=
  match arg with
  | Some s =>
      if truthy s
      then List.map strip
             (List.filter (fun t => truthy (strip t)) (split COMMA s))
      else []
  | None => []
  end.

(** Lines 153-159: the JSON branch. *)
Definition write_json (h : Host) (data : Inventory) (args : Args)
    : io unit :=
  let dump := json_dumps data (if arg_pretty args then Some 2 else None) in
  match arg_out args with
  | Some path =>
      if truthy path then
        f ← open_write h path;
        write h f (dump ++ [LF])
      else print h dump
  | None => print h dump
  end.

(** [main()]. *)
Definition main (h : Host) (args : Args) : io unit :=
  let tags := parse_tags (arg_tags args) in
  data ← collect_inventory h (Some tags);
  match arg_format args with
  | FormatJson => write_json h data args
  | FormatCsv => write_csv h data (arg_out args)
  end.

End Program.

(* ===================================================================== *)
(** ** A sample host, for the examples *)
(* ===================================================================== *)

Module Sample.

Definition ascii_lower (c : N) : N :=
  if ((65 <=? c) && (c <=? 90))%N then (c + 32)%N else c.

(** [repr] of a double on the values the examples print: a whole
    number below [10^16] is shown by its digits and [.0].  (Other
    finite values are shown with two decimals, which is not what
    Python prints for them.) *)
Definition repr_whole (x : float) : pystr :=
  match x with
  | S754_nan => str "nan"
  | S754_infinity s => if s then str "-inf" else str "inf"
  | S754_zero s => if s then str "-0.0" else str "0.0"
  | S754_finite s m e =>
      let whole := match e with
                   | Zneg p => Z.pos m mod 2 ^ Z.pos p =? 0
                   | _ => true
                   end in
      match int_of_float (S754_finite false m e) with
      | Ok mag =>
          if whole && (mag <? 10 ^ 16)
          then (if s then str "-" else []) ++ str_of_int mag ++ str ".0"
          else format_2f x
      | Raise _ => format_2f x
      end
  end.

(** An instance of the library functions: ASCII lower-casing, the
    [repr] above, a constant JSON text. *)
Definition lib : PyLib :=
  {| str_lower := List.map ascii_lower;
     float_repr := repr_whole;
     json_dumps := fun _ _ => str "{}";
     json_dumps_ascii := fun _ _ => eq_refl |}.

Definition flt (m e : Z) : float := binary_normalize prec emax m e false.

Definition usage1 : Usage :=
  {| u_total := 1000; u_used := 250; u_free := 750; u_percent := flt 25 0 |}.

Definition root_part : Partition :=
  {| p_device := str "/dev/sda1"; p_mountpoint := str "/";
     p_fstype := str "ext4" |}.
Definition secret_part : Partition :=
  {| p_device := str "/dev/sdb1"; p_mountpoint := str "/secret";
     p_fstype := str "ext4" |}.
Definition data_part : Partition :=
  {| p_device := str "/dev/sdc1"; p_mountpoint := str "/data";
     p_fstype := str "xfs" |}.

(** UTF-8 has every code point but the surrogates. *)
Definition utf8 (c : N) : bool :=
  (negb ((55296 <=? c) && (c <=? 57343)) && (c <=? 1114111))%N.

(** A host described by what varies between the examples. *)
Definition host_on (linesep : newline) (freq : res (option float))
    (system : pystr)
    (loadavg : res (float * float * float))
    (usage : pystr -> res Usage)
    (present : pystr -> bool)
    (run : list pystr -> Z -> res pystr) : Host :=
  {| uname_system := system;
     uname_release := str "6.1.0";
     uname_version := str "#1 SMP";
     uname_machine := str "x86_64";
     uname_processor := [];
     vm_total := 17179869184;
     vm_available := 8589934592;
     vm_percent := flt 50 0;
     os_getloadavg := loadavg;
     disk_partitions := [root_part; secret_part; data_part];
     disk_usage := usage;
     net_if_addrs :=
       [ (str "lo", [ {| a_family := Some AF_INET;
                         a_address := str "127.0.0.1" |} ]);
         (str "eth0", [ {| a_family := Some AF_INET6;
                           a_address := str "fe80::1%eth0" |};
                        {| a_family := Some AF_PACKET;
                           a_address := str "00:11:22:33:44:55" |} ]);
         (str "tun0", []) ];
     net_if_stats :=
       <[str "lo" := {| isup := true; mtu := 65536 |}]>
         (<[str "eth0" := {| isup := false; mtu := 1500 |}]> ∅);
     path_exists := present;
     check_output := run;
     utcnow_isoformat := str "2024-01-01T00:00:00";
     gethostname := str "box";
     getfqdn := str "box.example.org";
     cpu_count_physical := Some 4;
     cpu_count_logical := Some 8;
     cpu_freq := freq;
     time_time := flt 1700000000 0;
     boot_time := Ok (flt 1699990000 0);
     open_w := fun _ => Ok tt;
     os_linesep := linesep;
     encodes := utf8 |}.

Definition host := host_on NlLF (Ok None).

Definition usage_denied (mp : pystr) : res Usage :=
  if bool_decide (mp = str "/secret") then Raise PermissionError
  else Ok usage1.

Definition usage_broken (mp : pystr) : res Usage :=
  if bool_decide (mp = str "/secret") then Raise FileNotFoundError
  else Ok usage1.

Definition only (path : pystr) (p : pystr) : bool := bool_decide (p = path).

Definition dpkg_list : pystr :=
  str "bash" ++ [LF] ++ str "coreutils" ++ [LF; LF] ++ str "zlib1g" ++ [LF].

Definition linux : Host :=
  host (str "Linux") (Ok (flt 1 0, flt 1 (-1), flt 1 (-2))) usage_denied
       (only dpkg_path) (fun _ _ => Ok dpkg_list).

Definition no_loadavg : Host :=
  host (str "Windows") (Raise AttributeError) usage_denied
       (fun _ => false) (fun _ _ => Raise FileNotFoundError).

Definition windows : Host :=
  host_on NlCRLF (Ok (Some (flt 2400 0))) (str "Windows")
          (Raise AttributeError) usage_denied
          (fun _ => false) (fun _ _ => Raise FileNotFoundError).

Definition no_cpu_freq : Host :=
  host_on NlLF (Raise NotImplementedError) (str "Linux")
          (Ok (flt 1 0, flt 1 (-1), flt 1 (-2))) usage_denied
          (only dpkg_path) (fun _ _ => Ok dpkg_list).

Definition broken_disk : Host :=
  host (str "Linux") (Ok (flt 1 0, flt 1 0, flt 1 0)) usage_broken
       (only rpm_path) (fun _ _ => Raise TimeoutExpired).

Definition record (tags : list pystr) (uptime : float) : Inventory :=
  {| timestamp := str "2024-01-01T00:00:00Z";
     hostname := str "box";
     fqdn := str "box.example.org";
     os := {| os_system := str "Linux"; os_release := str "6.1.0";
              os_version := []; os_machine := []; os_processor := [] |};
     cpu := {| physical_cores := Some 4; logical_cpus := None;
               loadavg_1m := None; loadavg_5m := None;
               loadavg_15m := None; freq_mhz := None |};
     memory := {| mem_total_bytes := 17179869184;
                  mem_available_bytes := 1;
                  mem_percent_used := flt 50 0 |};
     uptime_seconds := uptime;
     disks := [];
     network := [];
     packages := None;
     tags := tags |}.

End Sample.

(* ===================================================================== *)
(** ** Vocabulary of the statements *)
(* ===================================================================== *)

(** The entry the interface loop builds for one item of the address
    table. *)
Definition entry_of (stats : gmap (list N) NicStats)
    (item : pystr * list Addr) : NicEntry :=
  fold_left add_address item.2
    {| iface := item.1; is_up := isup <$> stats !! item.1;
       ipv4 := []; ipv6 := [] |}.

(** What the disk loop keeps of a partition: its entry when the usage
    query answers, nothing when it raises. *)
Definition readable (h : Host) (p : Partition) : option DiskEntry :=
  match disk_usage h (p_mountpoint p) with
  | Ok usage => Some (disk_entry p usage)
  | Raise _ => None
  end.

(** The usage queries of a run of partitions, as logged. *)
Definition usage_events (ps : list Partition) : list event :=
  List.map (fun p => EvDiskUsage (p_mountpoint p)) ps.

(** The uptime of a host as [get_uptime_seconds] computes it. *)
Definition uptime_of (h : Host) : float :=
  match boot_time h with
  | Ok b => fsub (time_time h) b
  | Raise _ => nan
  end.

(** A reader that has taken in the field [f] and waits for what ends
    it: nothing read yet, the characters of an unquoted field, or a
    quoted field after its closing quote. *)
Definition held (st : Csv.rstate) (fld f : pystr) : Prop :=
  (st = Csv.START_FIELD /\ f = [] /\ fld = [])
  \/ (st = Csv.IN_FIELD /\ fld = f)
  \/ (st = Csv.QUOTE_IN_QUOTED_FIELD /\ fld = f).

(** The header of the CSV export: the keys of the row, in order. *)
Definition csv_fieldnames : list pystr :=
  [ str "timestamp"; str "hostname"; str "fqdn"; str "os_system";
    str "os_release"; str "logical_cpus"; str "mem_total";
    str "mem_used_pct"; str "uptime_seconds"; str "disk_count";
    str "iface_count"; str "tags" ].

(** The data row of the CSV export as text, given the memory size and
    the uptime as lines 128 and 130 computed them. *)
Definition csv_values `{PyLib} (data : Inventory) (mem_total : pystr)
    (uptime : Z) : list pystr :=
  [ timestamp data;
    hostname data;
    fqdn data;
    os_system (os data);
    os_release (os data);
    match logical_cpus (cpu data) with
    | Some k => str_of_int k
    | None => []
    end;
    mem_total;
    float_repr (mem_percent_used (memory data));
    str_of_int uptime;
    str_of_int (Z.of_nat (length (disks data)));
    str_of_int (Z.of_nat (length (network data)));
    join [COMMA] (tags data) ].

(** The text of the CSV export. *)
Definition csv_text `{PyLib} (data : Inventory) (mem_total : pystr)
    (uptime : Z) : pystr :=
  Csv.render_record csv_fieldnames
  ++ Csv.render_record (csv_values data mem_total uptime).

(** The values of the row that are free text: the others are numbers
    the program prints itself. *)
Definition csv_free_text `{PyLib} (data : Inventory) : list pystr :=
  [ timestamp data;
    hostname data;
    fqdn data;
    os_system (os data);
    os_release (os data);
    float_repr (mem_percent_used (memory data));
    join [COMMA] (tags data) ].

(** A text the streams of the host can encode. *)
Definition encodable_text (h : Host) (text : pystr) : Prop :=
  forallb (encodable h) text = true.

(** The state after a text went through a stream to its destination:
    the characters that arrive are the text with its line feeds
    translated. *)
Definition delivered (h : Host) (s : Sys) (out_path : option pystr)
    (text : pystr) : Sys :=
  match out_path with
  | Some (c :: path) =>
      {| log := log s ++ [EvOpenW (c :: path)]; out := out s;
         fs := <[c :: path := translate_newlines h text]> (fs s) |}
  | _ => {| log := log s; out := out s ++ translate_newlines h text;
            fs := fs s |}
  end.



(** The addresses of one family. *)
Definition has_family (f : family) (a : Addr) : bool :=
  match a_family a, f with
  | Some AF_INET, AF_INET | Some AF_INET6, AF_INET6
  | Some AF_PACKET, AF_PACKET => true
  | _, _ => false
  end.

(** A tag that [parse_tags] leaves alone: not empty, no comma, no space
    at either end. *)
Definition clean_tag (t : pystr) : Prop :=
  t <> [] /\ ~ In COMMA t /\ strip t = t.

(** A line of a listing: no line boundary inside. *)
Definition one_line (l : pystr) : Prop := existsb is_linebreak l = false.

(** How often a character occurs in a text. *)
Definition count_char (c : N) (s : pystr) : nat :=
  length (List.filter (N.eqb c) s).

(** [c] is the integer nearest to [num / den], the even one of the two
    when [num / den] lies halfway. *)
Definition nearest_even (num den c : Z) : Prop :=
  2 * Z.abs (num - c * den) <= den
  /\ (2 * Z.abs (num - c * den) = den -> Z.even c = true).

(* ===================================================================== *)
(** * Properties *)
(* ===================================================================== *)

(** ** [human_bytes] on the reference values *)

Example human_bytes_misc :
  human_bytes 17179869184 = Ok (str "16.00 GB")
  /\ human_bytes (2 ^ 60) = Ok (str "1048576.00 TB")
  /\ human_bytes 1023 = Ok (str "1023.00 B")
  /\ human_bytes 1500 = Ok (str "1.46 KB")
  /\ human_bytes (2 ^ 1024) = Raise OverflowError
  /\ human_bytes (2 ^ 1024 - 2 ^ 970 - 1) <> Raise OverflowError.
Proof. vm_compute. repeat split; discriminate. Qed.

(** C3. [human_bytes(0) == "0.00 B"], [human_bytes(1024) == "1.00 KB"],
    [human_bytes(1536) == "1.50 KB"] and
    [human_bytes(1099511627776) == "1.00 TB"]. *)
Theorem human_bytes_reference :
  human_bytes 0 = Ok (str "0.00 B")
  /\ human_bytes 1024 = Ok (str "1.00 KB")
  /\ human_bytes 1536 = Ok (str "1.50 KB")
  /\ human_bytes 1099511627776 = Ok (str "1.00 TB").
Proof. vm_compute. repeat split. Qed.

(** The sample host end to end. *)
Example sample_collect :
  let '(r, s) := @collect_inventory Sample.lib Sample.linux (Some [str "lab"]) sys0 in
  (disks <$> (match r with Ok x => Some x | _ => None end)) =
     Some [disk_entry Sample.root_part Sample.usage1;
           disk_entry Sample.data_part Sample.usage1]
  /\ (packages <$> (match r with Ok x => Some x | _ => None end)) =
     Some (Some {| manager := str "dpkg"; count := 3 |})
  /\ (List.map is_up <$> (network <$> (match r with Ok x => Some x | _ => None end))) =
     Some [Some true; Some false; None].
Proof. vm_compute. repeat split. Qed.

(** ** Strings *)

Section StringFacts.

Lemma split_not_nil sep s : split sep s <> [].
Proof.
  destruct s as [|c s]; simpl; [discriminate|].
  destruct (c =? sep)%N; [discriminate|].
  destruct (split sep s); discriminate.
Qed.

Lemma join_cons sep p ps :
  ps <> [] -> join sep (p :: ps) = p ++ sep ++ join sep ps.
Proof. destruct ps; [congruence | reflexivity]. Qed.

(** Joining the pieces with the separator gives the text back. *)
Lemma join_split sep s : join [sep] (split sep s) = s.
Proof.
  induction s as [|c s IH]; simpl; [reflexivity|].
  destruct (N.eqb_spec c sep) as [->|Hne].
  - rewrite join_cons by apply split_not_nil. simpl. now rewrite IH.
  - pose proof (split_not_nil sep s) as Hnn.
    destruct (split sep s) as [|piece pieces]; [congruence|].
    destruct pieces as [|piece' pieces]; simpl in *.
    + now rewrite IH.
    + now rewrite <- IH.
Qed.

(** No piece holds the separator. *)
Lemma split_no_sep sep s : Forall (fun t => ~ In sep t) (split sep s).
Proof.
  induction s as [|c s IH]; simpl.
  - constructor; [intros [] | constructor].
  - destruct (N.eqb_spec c sep) as [->|Hne].
    + constructor; [intros [] | exact IH].
    + destruct (split sep s) as [|piece pieces].
      * constructor; [|constructor]. intros [Hc|[]]. congruence.
      * inversion IH as [|? ? Hp Hps]; subst.
        constructor; [|exact Hps]. intros [Hc|Hin]; [congruence | tauto].
Qed.

(** [lstrip] removes a run of spaces and stops at the first other
    character. *)
Lemma lstrip_decompose s :
  exists l, s = l ++ lstrip s /\ forallb is_space l = true
            /\ match lstrip s with
               | c :: _ => is_space c = false
               | [] => True
               end.
Proof.
  induction s as [|c s (l & Hs & Hl & Hh)]; simpl.
  - exists []. auto.
  - destruct (is_space c) eqn:Hc.
    + exists (c :: l). simpl. rewrite Hc, Hl. split; [congruence | auto].
    + exists []. simpl. rewrite Hc. auto.
Qed.

Lemma lstrip_nil s : lstrip s = [] <-> forallb is_space s = true.
Proof.
  induction s as [|c s IH]; simpl; [tauto|].
  destruct (is_space c); simpl; [exact IH|]. split; discriminate.
Qed.

Lemma forallb_rev {A} (f : A -> bool) l : forallb f (rev l) = forallb f l.
Proof.
  induction l as [|a l IH]; simpl; [reflexivity|].
  rewrite forallb_app, IH. simpl. rewrite andb_true_r. apply andb_comm.
Qed.

Lemma rstrip_decompose s :
  exists r, s = rstrip s ++ r /\ forallb is_space r = true
            /\ match rev (rstrip s) with
               | c :: _ => is_space c = false
               | [] => True
               end.
Proof.
  unfold rstrip. destruct (lstrip_decompose (rev s)) as (l & Hs & Hl & Hh).
  exists (rev l). rewrite forallb_rev, rev_involutive. split; [|auto].
  rewrite <- rev_app_distr, <- Hs. now rewrite rev_involutive.
Qed.

(** [strip] cuts spaces at both ends and nothing else: what is left
    neither starts nor ends with a space. *)
Lemma strip_decompose s :
  exists l r, s = l ++ strip s ++ r
              /\ forallb is_space l = true /\ forallb is_space r = true
              /\ match strip s with
                 | c :: _ => is_space c = false
                 | [] => True
                 end
              /\ match rev (strip s) with
                 | c :: _ => is_space c = false
                 | [] => True
                 end.
Proof.
  unfold strip.
  destruct (lstrip_decompose s) as (l & Hs & Hl & Hh).
  destruct (rstrip_decompose (lstrip s)) as (r & Hs' & Hr & Hh').
  exists l, r. repeat split; auto.
  - rewrite <- Hs'. exact Hs.
  - destruct (rstrip (lstrip s)) as [|c u] eqn:Hu; [exact I|].
    rewrite Hs' in Hh. exact Hh.
Qed.

(** A segment survives the filter of line 149 unless it is empty or
    all spaces. *)
Lemma strip_truthy s : truthy (strip s) = negb (forallb is_space s).
Proof.
  destruct (strip_decompose s) as (l & r & Hs & Hl & Hr & Hh & _).
  destruct (strip s) as [|c u] eqn:Hu; simpl.
  - rewrite Hs. simpl. rewrite forallb_app, Hl, Hr. reflexivity.
  - rewrite Hs, !forallb_app. simpl. rewrite Hh.
    now rewrite andb_false_r.
Qed.

End StringFacts.

(** C6. [--tags] is split at commas ([join] gives the text back and no
    piece holds a comma); the pieces that are empty or all spaces are
    dropped, the others are kept in order with the spaces at both ends
    removed; and ["lab, linux, "] gives [["lab"; "linux"]]. *)
Theorem parse_tags_spec :
  (forall s,
      join [COMMA] (split COMMA s) = s
      /\ Forall (fun t => ~ In COMMA t) (split COMMA s)
      /\ parse_tags (Some s) =
           List.map strip
             (List.filter (fun t => negb (forallb is_space t))
                          (split COMMA s)))
  /\ (forall t, exists l r,
         t = l ++ strip t ++ r
         /\ forallb is_space l = true /\ forallb is_space r = true
         /\ match strip t with c :: _ => is_space c = false | [] => True end
         /\ match rev (strip t) with
            | c :: _ => is_space c = false
            | [] => True
            end)
  /\ parse_tags None = []
  /\ parse_tags (Some (str "lab, linux, ")) = [str "lab"; str "linux"].
Proof.
  split; [|split; [exact strip_decompose | split; reflexivity]].
  intros s. split; [apply join_split | split; [apply split_no_sep|]].
  unfold parse_tags.
  assert (Hf : List.filter (fun t => truthy (strip t)) (split COMMA s)
               = List.filter (fun t => negb (forallb is_space t))
                             (split COMMA s)).
  { apply List.filter_ext. intros t. apply strip_truthy. }
  rewrite Hf. destruct s; reflexivity.
Qed.

(** ** The monads *)

Ltac io_unfold :=
  unfold mbind, io_mbind, io_bind, res_bind_inst, res_bind, io_try,
    syscall, emit, io_lift, io_ret, io_raise in *.

Lemma isinstance_Exception e : isinstance e Exception = true.
Proof. destruct e; reflexivity. Qed.

Lemma add_log_nil s : add_log s [] = s.
Proof. destruct s. unfold add_log. simpl. now rewrite app_nil_r. Qed.

Lemma add_log_app s a b : add_log (add_log s a) b = add_log s (a ++ b).
Proof. unfold add_log. simpl. now rewrite <- app_assoc. Qed.

(** ** Text streams *)

Lemma encodable_ascii h t :
  forallb is_ascii t = true -> forallb (encodable h) t = true.
Proof.
  induction t as [|c t IH]; [reflexivity|]. simpl.
  intros [Hc Ht]%andb_prop. unfold encodable at 1. rewrite Hc.
  now apply IH.
Qed.

Lemma translate_newlines_app h a b :
  translate_newlines h (a ++ b)
  = translate_newlines h a ++ translate_newlines h b.
Proof. apply flat_map_app. Qed.

(** Where [os.linesep] is the line feed the text arrives as written. *)
Lemma translate_newlines_lf h t :
  os_linesep h = NlLF -> translate_newlines h t = t.
Proof.
  intros Hl. unfold translate_newlines. rewrite Hl.
  induction t as [|c t IH]; [reflexivity|]. cbn [flat_map]. rewrite IH.
  destruct (N.eqb_spec c LF) as [->|_]; reflexivity.
Qed.

Lemma write_ok h f text s :
  forallb (encodable h) text = true ->
  write h f text s = append f (translate_newlines h text) s.
Proof. intros Henc. unfold write. now rewrite Henc. Qed.

Lemma write_unencodable h f text s :
  forallb (encodable h) text = false ->
  write h f text s = (Raise UnicodeEncodeError, s).
Proof. intros Henc. unfold write. now rewrite Henc. Qed.

(** ** Network interfaces *)

Lemma new_entry_ok stats ifname :
  new_entry stats ifname
  = Ok {| iface := ifname; is_up := isup <$> stats !! ifname;
          ipv4 := []; ipv6 := [] |}.
Proof.
  unfold new_entry, stats_get_isup. io_unfold.
  case_bool_decide as Hin.
  - apply elem_of_dom in Hin as [st Hst]. now rewrite Hst.
  - apply not_elem_of_dom in Hin. now rewrite Hin.
Qed.

Lemma nics_loop_ok stats items acc :
  nics_loop stats items acc = Ok (acc ++ List.map (entry_of stats) items).
Proof.
  revert acc. induction items as [|[ifname al] items IH]; intros acc; simpl.
  - now rewrite app_nil_r.
  - rewrite new_entry_ok. io_unfold. rewrite IH.
    now rewrite <- app_assoc.
Qed.

Lemma collect_nics_ok h :
  collect_nics h = Ok (List.map (entry_of (net_if_stats h)) (net_if_addrs h)).
Proof. unfold collect_nics. now rewrite nics_loop_ok. Qed.

Lemma add_address_keeps entry a :
  iface (add_address entry a) = iface entry
  /\ is_up (add_address entry a) = is_up entry.
Proof. unfold add_address. destruct (a_family a) as [[]|]; auto. Qed.

Lemma fold_add_address_keeps al entry :
  iface (fold_left add_address al entry) = iface entry
  /\ is_up (fold_left add_address al entry) = is_up entry.
Proof.
  revert entry. induction al as [|a al IH]; intros entry; simpl; [auto|].
  destruct (IH (add_address entry a)) as [-> ->]. apply add_address_keeps.
Qed.

(** ** Disks *)

Lemma disks_loop_step h p ps acc s :
  disks_loop h (p :: ps) acc s =
  let s1 := add_log s [EvDiskUsage (p_mountpoint p)] in
  match disk_usage h (p_mountpoint p) with
  | Ok usage => disks_loop h ps (acc ++ [disk_entry p usage]) s1
  | Raise e =>
      if isinstance e PermissionError then disks_loop h ps acc s1
      else (Raise e, s1)
  end.
Proof.
  simpl. io_unfold. simpl.
  destruct (disk_usage h (p_mountpoint p)) as [usage|e]; [reflexivity|].
  simpl. rewrite orb_false_r. now destruct (isinstance e PermissionError).
Qed.

(** While the queries answer or are refused, the loop goes through all
    the partitions and keeps the readable ones, in order. *)
Lemma disks_loop_readable h ps : forall acc s,
  (forall p e, In p ps -> disk_usage h (p_mountpoint p) = Raise e ->
               isinstance e PermissionError = true) ->
  disks_loop h ps acc s
  = (Ok (acc ++ omap (readable h) ps), add_log s (usage_events ps)).
Proof.
  induction ps as [|p ps IH]; intros acc s Hperm.
  - simpl. unfold io_ret. now rewrite app_nil_r, add_log_nil.
  - rewrite disks_loop_step. cbn zeta. simpl omap. unfold readable at 1.
    assert (Hps : forall q e, In q ps ->
              disk_usage h (p_mountpoint q) = Raise e ->
              isinstance e PermissionError = true).
    { intros q e Hq. apply Hperm. now right. }
    destruct (disk_usage h (p_mountpoint p)) as [usage|e] eqn:Hu.
    + rewrite IH by exact Hps. rewrite add_log_app, <- app_assoc.
      reflexivity.
    + rewrite (Hperm p e) by (auto; now left).
      rewrite IH by exact Hps. now rewrite add_log_app.
Qed.

(** The first query that fails otherwise ends the loop with its
    exception. *)
Lemma disks_loop_fatal h ps1 p ps2 e : forall acc s,
  (forall q e', In q ps1 -> disk_usage h (p_mountpoint q) = Raise e' ->
                isinstance e' PermissionError = true) ->
  disk_usage h (p_mountpoint p) = Raise e ->
  isinstance e PermissionError = false ->
  disks_loop h (ps1 ++ p :: ps2) acc s
  = (Raise e, add_log s (usage_events (ps1 ++ [p]))).
Proof.
  induction ps1 as [|q ps1 IH]; intros acc s Hperm Hp He.
  - simpl app. rewrite disks_loop_step. cbn zeta. now rewrite Hp, He.
  - simpl app. rewrite disks_loop_step. cbn zeta.
    assert (Hps : forall q' e', In q' ps1 ->
              disk_usage h (p_mountpoint q') = Raise e' ->
              isinstance e' PermissionError = true).
    { intros q' e' Hq. apply Hperm. now right. }
    destruct (disk_usage h (p_mountpoint q)) as [usage|e'] eqn:Hu.
    + rewrite IH by assumption. now rewrite add_log_app.
    + rewrite (Hperm q e') by (auto; now left).
      rewrite IH by assumption. now rewrite add_log_app.
Qed.

(** ** Load averages and uptime *)

Lemma load_averages_ok h l s :
  os_getloadavg h = Ok l ->
  load_averages h s
  = (Ok (Some l.1.1, Some l.1.2, Some l.2), add_log s [EvGetLoadAvg]).
Proof. intros Hl. unfold load_averages. io_unfold. simpl. now rewrite Hl. Qed.


Lemma get_uptime_seconds_run h s :
  get_uptime_seconds h s = (Ok (uptime_of h), s).
Proof.
  unfold get_uptime_seconds, uptime_of. io_unfold.
  destruct (boot_time h) as [b|e]; [reflexivity|].
  simpl. now rewrite isinstance_Exception.
Qed.

(** ** Packages *)

Lemma paths_differ : dpkg_path <> rpm_path.
Proof. intros Heq. vm_compute in Heq. discriminate. Qed.

Lemma argvs_differ : dpkg_argv <> rpm_argv.
Proof. intros Heq. vm_compute in Heq. discriminate. Qed.

Section Collection.

Context `{PyLib}.

(** The package step never raises; its result and its system calls
    depend on the host only. *)
Lemma count_packages_run h :
  exists pkg evs,
    (forall s, count_packages h s = (Ok pkg, add_log s evs))
    /\ (length (List.filter is_query evs) <= 1)%nat
    /\ (is_linux h = false -> pkg = None /\ evs = [])
    /\ (is_linux h = true ->
        (exists rest, evs = EvPathExists dpkg_path :: rest)
        /\ (In (EvPathExists rpm_path) evs -> path_exists h dpkg_path = false)
        /\ (forall argv t, In (EvCheckOutput argv t) evs ->
              t = 10
              /\ ((argv = dpkg_argv /\ path_exists h dpkg_path = true)
                  \/ (argv = rpm_argv /\ path_exists h dpkg_path = false
                      /\ path_exists h rpm_path = true)))
        /\ (path_exists h dpkg_path = false ->
            path_exists h rpm_path = false -> pkg = None)
        /\ (forall argv e, In (EvCheckOutput argv 10) evs ->
              check_output h argv 10 = Raise e -> pkg = None))
    /\ (forall p, pkg = Some p ->
          exists argv output,
            In (EvCheckOutput argv 10) evs
            /\ check_output h argv 10 = Ok output
            /\ count p = count_lines output
            /\ (manager p = str "dpkg" /\ argv = dpkg_argv
                \/ manager p = str "rpm" /\ argv = rpm_argv)).
Proof.
  unfold count_packages.
  destruct (is_linux h) eqn:Hlinux.
  2:{ exists None, []. split; [intros s; now rewrite add_log_nil|].
      repeat split; auto; try discriminate. }
  unfold os_path_exists, subprocess_check_output.
  destruct (path_exists h dpkg_path) eqn:Hd.
  - destruct (check_output h dpkg_argv 10) as [output|e] eqn:Hq.
    + exists (Some {| manager := str "dpkg"; count := count_lines output |}),
        [EvPathExists dpkg_path; EvCheckOutput dpkg_argv 10].
      split.
      { intros s. io_unfold. simpl. now rewrite add_log_app. }
      split; [simpl; lia|]. split; [discriminate|]. split.
      * intros _. split; [eauto|]. split.
        { intros [Hin|[Hin|[]]]; [|discriminate].
          injection Hin as Hin. now destruct paths_differ. }
        split.
        { intros argv t [Hin|[Hin|[]]]; [discriminate|].
          injection Hin as <- <-. auto. }
        split; [discriminate|].
        intros argv e' [Hin|[Hin|[]]]; [discriminate|].
        injection Hin as <-. congruence.
      * intros p [= <-]. exists dpkg_argv, output. simpl. auto 6.
    + exists None, [EvPathExists dpkg_path; EvCheckOutput dpkg_argv 10].
      split.
      { intros s. io_unfold. simpl. rewrite isinstance_Exception. simpl. now rewrite add_log_app. }
      split; [simpl; lia|]. split; [discriminate|]. split.
      * intros _. split; [eauto|]. split.
        { intros [Hin|[Hin|[]]]; [|discriminate].
          injection Hin as Hin. now destruct paths_differ. }
        split.
        { intros argv t [Hin|[Hin|[]]]; [discriminate|].
          injection Hin as <- <-. auto. }
        auto.
      * discriminate.
  - destruct (path_exists h rpm_path) eqn:Hr.
    + destruct (check_output h rpm_argv 10) as [output|e] eqn:Hq.
      * exists (Some {| manager := str "rpm"; count := count_lines output |}),
          [EvPathExists dpkg_path; EvPathExists rpm_path;
           EvCheckOutput rpm_argv 10].
        split.
        { intros s. io_unfold. simpl. now rewrite !add_log_app. }
        split; [simpl; lia|]. split; [discriminate|]. split.
        -- intros _. split; [eauto|]. split; [auto|]. split.
           { intros argv t [Hin|[Hin|[Hin|[]]]]; try discriminate.
             injection Hin as <- <-. auto. }
           split; [discriminate|].
           intros argv e' [Hin|[Hin|[Hin|[]]]]; try discriminate.
           injection Hin as <-. congruence.
        -- intros p [= <-]. exists rpm_argv, output. simpl. auto 7.
      * exists None,
          [EvPathExists dpkg_path; EvPathExists rpm_path;
           EvCheckOutput rpm_argv 10].
        split.
        { intros s. io_unfold. simpl. rewrite isinstance_Exception. simpl.
          now rewrite !add_log_app. }
        split; [simpl; lia|]. split; [discriminate|]. split.
        -- intros _. split; [eauto|]. split; [auto|]. split.
           { intros argv t [Hin|[Hin|[Hin|[]]]]; try discriminate.
             injection Hin as <- <-. auto. }
           auto.
        -- discriminate.
    + exists None, [EvPathExists dpkg_path; EvPathExists rpm_path].
      split.
      { intros s. io_unfold. simpl. now rewrite !add_log_app. }
      split; [simpl; lia|]. split; [discriminate|]. split.
      * intros _. split; [eauto|]. split; [auto|]. split.
        { intros argv t [Hin|[Hin|[]]]; discriminate. }
        auto.
      * discriminate.
Qed.

(** [collect_inventory] step by step: the load averages, the disk
    loop and [psutil.cpu_freq()] can end it with an exception. *)
Lemma collect_inventory_run h tg s :
  exists pkg evs,
    (forall s0, count_packages h s0 = (Ok pkg, add_log s0 evs))
    /\ collect_inventory h tg s =
       match load_averages h s with
       | (Raise e, s1) => (Raise e, s1)
       | (Ok loads, s1) =>
           match collect_disks h s1 with
           | (Raise e, s2) => (Raise e, s2)
           | (Ok ds, s2) =>
               match cpu_freq h with
               | Raise e => (Raise e, add_log s2 evs)
               | Ok freq =>
               (Ok {| timestamp := utcnow_isoformat h ++ str "Z";
                      hostname := gethostname h;
                      fqdn := getfqdn h;
                      os := {| os_system := uname_system h;
                               os_release := uname_release h;
                               os_version := uname_version h;
                               os_machine := uname_machine h;
                               os_processor := uname_processor h |};
                      cpu := {| physical_cores := cpu_count_physical h;
                                logical_cpus := cpu_count_logical h;
                                loadavg_1m := loads.1.1;
                                loadavg_5m := loads.1.2;
                                loadavg_15m := loads.2;
                                freq_mhz := freq |};
                      memory := {| mem_total_bytes := vm_total h;
                                   mem_available_bytes := vm_available h;
                                   mem_percent_used := vm_percent h |};
                      uptime_seconds := uptime_of h;
                      disks := ds;
                      network := List.map (entry_of (net_if_stats h))
                                          (net_if_addrs h);
                      packages := pkg;
                      tags := default [] tg |},
                add_log s2 evs)
               end
           end
       end.
Proof.
  destruct (count_packages_run h) as (pkg & evs & Hrun & _).
  exists pkg, evs. split; [exact Hrun|].
  unfold collect_inventory.
  unfold mbind at 1, io_mbind at 1, io_bind at 1.
  destruct (load_averages h s) as [[loads|e] s1]; [|reflexivity].
  unfold mbind at 1, io_mbind at 1, io_bind at 1.
  destruct (collect_disks h s1) as [[ds|e] s2]; [|reflexivity].
  rewrite collect_nics_ok.
  unfold mbind at 1, io_mbind at 1, io_bind at 1. unfold io_lift at 1.
  unfold mbind at 1, io_mbind at 1, io_bind at 1. rewrite Hrun.
  unfold mbind at 1, io_mbind at 1, io_bind at 1. unfold io_lift at 1.
  destruct (cpu_freq h) as [freq|e]; [|reflexivity].
  unfold mbind at 1, io_mbind at 1, io_bind at 1.
  rewrite get_uptime_seconds_run. reflexivity.
Qed.

(** C4. The package step queries at most one manager, [dpkg]'s path
    first and [rpm]'s only when [dpkg] is absent; off Linux, with no
    manager, or when the query fails (time-out included) the
    [packages] field is [None]; a count is always the count of a
    completed listing; and the step never raises. *)
Theorem package_counter_spec h :
  exists pkg evs,
    (forall s, count_packages h s = (Ok pkg, add_log s evs))
    /\ (forall tg s r s',
          collect_inventory h tg s = (Ok r, s') -> packages r = pkg)
    /\ (length (List.filter is_query evs) <= 1)%nat
    /\ (is_linux h = false -> pkg = None /\ evs = [])
    /\ (is_linux h = true ->
        (exists rest, evs = EvPathExists dpkg_path :: rest)
        /\ (In (EvPathExists rpm_path) evs -> path_exists h dpkg_path = false)
        /\ (forall argv t, In (EvCheckOutput argv t) evs ->
              t = 10
              /\ ((argv = dpkg_argv /\ path_exists h dpkg_path = true)
                  \/ (argv = rpm_argv /\ path_exists h dpkg_path = false
                      /\ path_exists h rpm_path = true)))
        /\ (path_exists h dpkg_path = false ->
            path_exists h rpm_path = false -> pkg = None)
        /\ (forall argv e, In (EvCheckOutput argv 10) evs ->
              check_output h argv 10 = Raise e -> pkg = None))
    /\ (forall p, pkg = Some p ->
          exists argv output,
            In (EvCheckOutput argv 10) evs
            /\ check_output h argv 10 = Ok output
            /\ count p = count_lines output
            /\ (manager p = str "dpkg" /\ argv = dpkg_argv
                \/ manager p = str "rpm" /\ argv = rpm_argv)).
Proof.
  destruct (count_packages_run h) as (pkg & evs & Hrun & Hfacts).
  exists pkg, evs. split; [exact Hrun|]. split; [|exact Hfacts].
  intros tg s r s' Hc.
  destruct (collect_inventory_run h tg s) as (pkg' & evs' & Hrun' & Heq).
  assert (pkg' = pkg) as ->.
  { specialize (Hrun sys0). rewrite Hrun' in Hrun. congruence. }
  rewrite Heq in Hc.
  destruct (load_averages h s) as [[loads|e] s1]; [|discriminate].
  destruct (collect_disks h s1) as [[ds|e] s2]; [|discriminate].
  destruct (cpu_freq h) as [freq|e]; [|discriminate].
  injection Hc as <- _. reflexivity.
Qed.

(** C8. Every interface of the address table gets one entry, in
    order; its [is_up] is the [isup] flag of the statistics table when
    the name is there and [None] when it is not; building the entries
    never raises. *)
Theorem is_up_from_stats h :
  exists nics,
    collect_nics h = Ok nics
    /\ (forall tg s r s',
          collect_inventory h tg s = (Ok r, s') -> network r = nics)
    /\ length nics = length (net_if_addrs h)
    /\ forall k ifname addr_list,
         net_if_addrs h !! k = Some (ifname, addr_list) ->
         exists entry,
           nics !! k = Some entry
           /\ iface entry = ifname
           /\ (forall st, net_if_stats h !! ifname = Some st ->
                          is_up entry = Some (isup st))
           /\ (net_if_stats h !! ifname = None -> is_up entry = None).
Proof.
  exists (List.map (entry_of (net_if_stats h)) (net_if_addrs h)).
  split; [apply collect_nics_ok|]. split; [|split].
  - intros tg s r s' Hc.
    destruct (collect_inventory_run h tg s) as (pkg & evs & _ & Heq).
    rewrite Heq in Hc.
    destruct (load_averages h s) as [[loads|e] s1]; [|discriminate].
    destruct (collect_disks h s1) as [[ds|e] s2]; [|discriminate].
    destruct (cpu_freq h) as [freq|e]; [|discriminate].
    injection Hc as <- _. reflexivity.
  - apply length_map.
  - intros k ifname addr_list Hk.
    exists (entry_of (net_if_stats h) (ifname, addr_list)).
    split; [now rewrite list_lookup_fmap, Hk|].
    unfold entry_of.
    destruct (fold_add_address_keeps addr_list
                {| iface := ifname;
                   is_up := isup <$> net_if_stats h !! ifname;
                   ipv4 := []; ipv6 := [] |}) as [Hi Hu].
    simpl in *. rewrite Hi, Hu. split; [reflexivity|].
    split; [intros st ->; reflexivity | intros ->; reflexivity].
Qed.




Lemma main_run h args s :
  main h args s =
  match collect_inventory h (Some (parse_tags (arg_tags args))) s with
  | (Ok data, s1) =>
      match arg_format args with
      | FormatJson => write_json h data args s1
      | FormatCsv => write_csv h data (arg_out args) s1
      end
  | (Raise e, s1) => (Raise e, s1)
  end.
Proof.
  unfold main. unfold mbind at 1, io_mbind at 1, io_bind at 1.
  destruct (collect_inventory h _ s) as [[data|e] s1]; [|reflexivity].
  now destruct (arg_format args).
Qed.

(** C5. A mount whose usage query raises [PermissionError] is left
    out and the loop goes on with the next one; the first query that
    raises anything else ends the loop, [collect_inventory] and [main]
    with that exception. *)
Theorem disk_enumeration_spec h :
  (forall s,
      (forall p e, In p (disk_partitions h) ->
                   disk_usage h (p_mountpoint p) = Raise e ->
                   isinstance e PermissionError = true) ->
      collect_disks h s
      = (Ok (omap (readable h) (disk_partitions h)),
         add_log s (usage_events (disk_partitions h))))
  /\ (forall ps1 p ps2 e,
        disk_partitions h = ps1 ++ p :: ps2 ->
        (forall q e', In q ps1 ->
                      disk_usage h (p_mountpoint q) = Raise e' ->
                      isinstance e' PermissionError = true) ->
        disk_usage h (p_mountpoint p) = Raise e ->
        isinstance e PermissionError = false ->
        forall s,
          collect_disks h s
          = (Raise e, add_log s (usage_events (ps1 ++ [p])))
          /\ forall args loads s1,
               load_averages h s = (Ok loads, s1) ->
               main h args s
               = (Raise e, add_log s1 (usage_events (ps1 ++ [p])))).
Proof.
  split.
  - intros s Hperm. unfold collect_disks.
    now rewrite disks_loop_readable.
  - intros ps1 p ps2 e Hps Hperm Hp He s.
    assert (Hd : forall s0, collect_disks h s0
              = (Raise e, add_log s0 (usage_events (ps1 ++ [p])))).
    { intros s0. unfold collect_disks. rewrite Hps.
      now apply disks_loop_fatal. }
    split; [apply Hd|].
    intros args loads s1 Hload. rewrite main_run.
    destruct (collect_inventory_run h (Some (parse_tags (arg_tags args))) s)
      as (pkg & evs & _ & Heq).
    rewrite Heq, Hload, Hd. reflexivity.
Qed.

(** Where [main] sends the JSON text. *)
Lemma print_run h dump s :
  forallb is_ascii dump = true ->
  print h dump s
  = (Ok tt, {| log := log s;
               out := out s ++ translate_newlines h (dump ++ [LF]);
               fs := fs s |}).
Proof.
  intros Hascii. unfold print.
  unfold mbind, io_mbind, io_bind.
  rewrite write_ok by now apply encodable_ascii.
  cbn [append]. rewrite write_ok by reflexivity.
  cbn [append log out fs].
  now rewrite translate_newlines_app, <- app_assoc.
Qed.

Lemma write_json_stdout h data args s :
  arg_out args = None \/ arg_out args = Some [] ->
  write_json h data args s
  = (Ok tt,
     {| log := log s;
        out := out s
               ++ translate_newlines h
                    (json_dumps data (if arg_pretty args then Some 2
                                      else None) ++ [LF]);
        fs := fs s |}).
Proof.
  intros Hout. unfold write_json.
  destruct Hout as [-> | ->]; cbn [truthy]; apply print_run;
    apply json_dumps_ascii.
Qed.

Lemma write_json_file h data args path s :
  arg_out args = Some path -> path <> [] -> open_w h path = Ok tt ->
  write_json h data args s
  = (Ok tt,
     {| log := log s ++ [EvOpenW path];
        out := out s;
        fs := <[path := translate_newlines h
                          (json_dumps data (if arg_pretty args then Some 2
                                            else None) ++ [LF])]> (fs s) |}).
Proof.
  intros Hout Hne Hopen. unfold write_json. rewrite Hout.
  destruct path as [|c path]; [congruence|]. cbn [truthy].
  unfold mbind, io_mbind, io_bind.
  unfold open_write, syscall, emit, set_file.
  unfold mbind, io_mbind, io_bind, io_lift, io_ret.
  rewrite Hopen. cbn [add_log log out fs].
  rewrite write_ok.
  2:{ apply encodable_ascii. rewrite forallb_app, json_dumps_ascii.
      reflexivity. }
  unfold append, set_file. cbn [log out fs].
  rewrite lookup_insert_eq. cbn [default app].
  now rewrite insert_insert_eq.
Qed.

(** C2, as the code has it. In JSON mode the text written is the
    serialized record followed by one line feed, on the standard
    output ([print] adds it) as in a file (line 157 adds it); it
    reaches both through a text stream. *)
Theorem json_output_newline h args s data s1 :
  arg_format args = FormatJson ->
  collect_inventory h (Some (parse_tags (arg_tags args))) s = (Ok data, s1) ->
  let dump := json_dumps data (if arg_pretty args then Some 2 else None) in
  (arg_out args = None \/ arg_out args = Some [] ->
   main h args s
   = (Ok tt, {| log := log s1;
                out := out s1 ++ translate_newlines h (dump ++ [LF]);
                fs := fs s1 |}))
  /\ (forall path,
        arg_out args = Some path -> path <> [] -> open_w h path = Ok tt ->
        main h args s
        = (Ok tt, {| log := log s1 ++ [EvOpenW path]; out := out s1;
                     fs := <[path := translate_newlines h (dump ++ [LF])]>
                             (fs s1) |}))
  /\ (os_linesep h = NlLF ->
      translate_newlines h (dump ++ [LF]) = dump ++ [LF]).
Proof.
  intros Hfmt Hc dump. split; [|split].
  - intros Hout. rewrite main_run, Hc, Hfmt.
    now apply write_json_stdout.
  - intros path Hout Hne Hopen. rewrite main_run, Hc, Hfmt.
    now apply write_json_file.
  - apply translate_newlines_lf.
Qed.

End Collection.

(** C2 as stated fails: on the standard output the text ends with a
    line feed that [json.dumps] did not produce. *)
Lemma json_stdout_newline_counterexample :
  let args := {| arg_format := FormatJson; arg_out := None;
                 arg_pretty := false; arg_tags := None |} in
  exists data s1 s',
    @collect_inventory Sample.lib Sample.linux (Some []) sys0 = (Ok data, s1)
    /\ @main Sample.lib Sample.linux args sys0 = (Ok tt, s')
    /\ out s' = out s1 ++ @json_dumps Sample.lib data None ++ [LF]
    /\ out s' <> out s1 ++ @json_dumps Sample.lib data None.
Proof.
  vm_compute. eexists _, _, _. split; [reflexivity|]. split; [reflexivity|].
  split; [reflexivity | discriminate].
Qed.

(** The hypotheses of the statements above hold on the sample hosts. *)


Lemma disk_enumeration_witness :
  collect_disks Sample.linux sys0
  = (Ok [disk_entry Sample.root_part Sample.usage1;
         disk_entry Sample.data_part Sample.usage1],
     add_log sys0 [EvDiskUsage (str "/"); EvDiskUsage (str "/secret");
                   EvDiskUsage (str "/data")])
  /\ collect_disks Sample.broken_disk sys0
     = (Raise FileNotFoundError,
        add_log sys0 [EvDiskUsage (str "/"); EvDiskUsage (str "/secret")]).
Proof.
  split.
  - apply (proj1 (@disk_enumeration_spec Sample.lib Sample.linux) sys0).
    intros p e [<-|[<-|[<-|[]]]] He; vm_compute in He;
      first [discriminate | injection He as <-; reflexivity].
  - apply (proj2 (@disk_enumeration_spec Sample.lib Sample.broken_disk)
             [Sample.root_part] Sample.secret_part [Sample.data_part]
             FileNotFoundError eq_refl).
    + intros q e [<-|[]] He. vm_compute in He. discriminate.
    + reflexivity.
    + reflexivity.
Defined.

Lemma json_output_newline_witness :
  let args := {| arg_format := FormatJson; arg_out := Some (str "inv.json");
                 arg_pretty := true; arg_tags := Some (str "lab, linux, ") |} in
  exists data s1,
    @collect_inventory Sample.lib Sample.linux
      (Some [str "lab"; str "linux"]) sys0 = (Ok data, s1)
    /\ @main Sample.lib Sample.linux args sys0
       = (Ok tt, {| log := log s1 ++ [EvOpenW (str "inv.json")];
                    out := out s1;
                    fs := <[str "inv.json" :=
                              @json_dumps Sample.lib data (Some 2) ++ [LF]]>
                            (fs s1) |}).
Proof.
  intros args.
  destruct (@collect_inventory Sample.lib Sample.linux
              (Some [str "lab"; str "linux"]) sys0) as [[data|e] s1] eqn:Hc;
    [|vm_compute in Hc; discriminate].
  exists data, s1. split; [reflexivity|].
  destruct (@json_output_newline Sample.lib Sample.linux args sys0
              data s1 eq_refl Hc) as (_ & Hfile & Hlf).
  assert (Hne : str "inv.json" <> []) by discriminate.
  pose proof (Hfile (str "inv.json") eq_refl Hne eq_refl) as Hm.
  rewrite (Hlf eq_refl) in Hm. exact Hm.
Defined.

(** ** Doubles *)

Section Doubles.

Local Open Scope Z_scope.

Lemma digits2_pos_log2 m : Z.pos (digits2_pos m) = Z.log2 (Z.pos m) + 1.
Proof.
  induction m as [m IH|m IH|]; [| |reflexivity].
  - change (digits2_pos m~1) with (Pos.succ (digits2_pos m)).
    rewrite Pos2Z.inj_succ, IH.
    change (Z.pos m~1) with (2 * Z.pos m + 1).
    rewrite Z.log2_succ_double by lia. lia.
  - change (digits2_pos m~0) with (Pos.succ (digits2_pos m)).
    rewrite Pos2Z.inj_succ, IH.
    change (Z.pos m~0) with (2 * Z.pos m).
    rewrite Z.log2_double by lia. lia.
Qed.

(** A mantissa of [d] digits lies in [[2^(d-1), 2^d)]. *)
Lemma digits2_pos_bounds m :
  2 ^ (Z.pos (digits2_pos m) - 1) <= Z.pos m < 2 ^ Z.pos (digits2_pos m).
Proof.
  rewrite digits2_pos_log2.
  replace (Z.log2 (Z.pos m) + 1 - 1) with (Z.log2 (Z.pos m)) by lia.
  replace (Z.log2 (Z.pos m) + 1) with (Z.succ (Z.log2 (Z.pos m))) by lia.
  apply Z.log2_spec. lia.
Qed.

Lemma digits2_pos_unique m d :
  2 ^ (d - 1) <= Z.pos m < 2 ^ d -> Z.pos (digits2_pos m) = d.
Proof.
  intros Hm. rewrite digits2_pos_log2.
  assert (0 < d).
  { destruct (Z_lt_le_dec 0 d) as [|Hd]; [assumption|].
    destruct Hm as [_ Hm]. 
    assert (2 ^ d <= 2 ^ 0) by (apply Z.pow_le_mono_r; lia).
    change (2 ^ 0) with 1 in *. lia. }
  assert (Z.log2 (Z.pos m) = d - 1); [|lia].
  apply Z.log2_unique; [lia|].
  replace (Z.succ (d - 1)) with d by lia. exact Hm.
Qed.

Lemma digits2_pos_shift m d :
  digits2_pos (Pos.iter xO m d) = (digits2_pos m + d)%positive.
Proof.
  induction d as [|d IH] using Pos.peano_ind.
  - simpl. lia.
  - rewrite Pos.iter_succ. simpl. rewrite IH. lia.
Qed.

Lemma pos_shift_mul m d : Z.pos (Pos.iter xO m d) = Z.pos m * 2 ^ Z.pos d.
Proof.
  induction d as [|d IH] using Pos.peano_ind.
  - simpl. lia.
  - rewrite Pos.iter_succ, Pos2Z.inj_succ, Z.pow_succ_r by lia.
    change (Z.pos (Pos.iter xO m d)~0) with (2 * Z.pos (Pos.iter xO m d)).
    rewrite IH. ring.
Qed.

(** One step of the right shift halves the mantissa and remembers
    the bit that fell off. *)
Lemma shr_1_spec mrs :
  0 <= shr_m mrs ->
  shr_m (shr_1 mrs) = shr_m mrs / 2
  /\ shr_r (shr_1 mrs) = Z.odd (shr_m mrs).
Proof.
  destruct mrs as [m r s]. simpl. intros Hm.
  destruct m as [|[p|p|]|p]; simpl; try lia; split; try reflexivity.
  - change (Z.pos p~1) with (1 + 2 * Z.pos p).
    rewrite Z.add_comm, Z.mul_comm, Z.div_add_l by lia.
    change (1 / 2) with 0. lia.
  - rewrite Pos2Z.inj_xO, Z.mul_comm. now rewrite Z.div_mul by lia.
Qed.

Lemma testbit_div_pow2 m k j :
  0 <= k -> 0 <= j -> Z.testbit (m / 2 ^ k) j = Z.testbit m (j + k).
Proof.
  intros Hk Hj. rewrite <- Z.shiftr_div_pow2 by lia.
  now rewrite Z.shiftr_spec by lia.
Qed.

(** [p] steps divide by [2^p]; the last bit lost is bit [p - 1]. *)
Lemma iter_shr_1_spec p : forall mrs,
  0 <= shr_m mrs ->
  shr_m (SpecFloat.iter_pos shr_1 p mrs) = shr_m mrs / 2 ^ Z.pos p
  /\ shr_r (SpecFloat.iter_pos shr_1 p mrs) = Z.testbit (shr_m mrs) (Z.pos p - 1).
Proof.
  assert (Hnn : forall a k, 0 <= a -> 0 <= a / 2 ^ k).
  { intros a k Ha. apply Z_div_nonneg_nonneg; [lia|].
    apply Z.pow_nonneg. lia. }
  induction p as [p IH|p IH|]; intros mrs Hm; simpl SpecFloat.iter_pos.
  - destruct (shr_1_spec mrs Hm) as [H1 _].
    assert (H1' : 0 <= shr_m (shr_1 mrs)) by (rewrite H1; apply Z.div_pos; lia).
    destruct (IH _ H1') as [H2 _].
    assert (H2' : 0 <= shr_m (SpecFloat.iter_pos shr_1 p (shr_1 mrs)))
      by (rewrite H2; now apply Hnn).
    destruct (IH _ H2') as [H3 H3r].
    rewrite H3, H3r, H2, H1.
    change (shr_m mrs / 2) with (shr_m mrs / 2 ^ 1).
    split.
    + rewrite !Z.div_div by (try apply Z.pow_pos_nonneg; lia).
      rewrite <- !Z.pow_add_r by lia. f_equal. f_equal. lia.
    + rewrite Z.div_div by (try apply Z.pow_pos_nonneg; lia).
      rewrite <- Z.pow_add_r by lia.
      rewrite testbit_div_pow2 by lia. f_equal. lia.
  - destruct (IH _ Hm) as [H2 _].
    assert (H2' : 0 <= shr_m (SpecFloat.iter_pos shr_1 p mrs))
      by (rewrite H2; now apply Hnn).
    destruct (IH _ H2') as [H3 H3r].
    rewrite H3, H3r, H2. split.
    + rewrite Z.div_div by (try apply Z.pow_pos_nonneg; lia).
      rewrite <- Z.pow_add_r by lia. f_equal. f_equal. lia.
    + rewrite testbit_div_pow2 by lia. f_equal. lia.
  - destruct (shr_1_spec mrs Hm) as [H1 H1r]. rewrite H1, H1r.
    split; [reflexivity|]. now rewrite Z.bit0_odd.
Qed.

Lemma fexp_normal x : -1021 <= x -> fexp prec emax x = x - 53.
Proof. intros Hx. unfold fexp, emin, prec, emax. lia. Qed.

(** Rounding a mantissa that is already canonical changes nothing. *)
Lemma binary_round_aux_canonical s m e :
  Z.pos (digits2_pos m) = 53 -> -1074 <= e <= 971 ->
  binary_round_aux prec emax s (Z.pos m) e loc_Exact = S754_finite s m e.
Proof.
  intros Hd He. unfold binary_round_aux, shr_fexp.
  simpl Zdigits2. rewrite Hd, fexp_normal by lia.
  replace (53 + e - 53 - e) with 0 by lia. simpl.
  rewrite Hd, fexp_normal by lia.
  replace (53 + e - 53 - e) with 0 by lia. simpl.
  replace (e <=? emax - prec) with true; [reflexivity|].
  symmetry. apply Z.leb_le. unfold emax, prec. lia.
Qed.

(** Dividing a normal double by 1024 lowers its exponent by ten and
    leaves the mantissa alone: the quotient is exact. *)
Lemma div_eucl_pair a b : Z.div_eucl a b = (a / b, a mod b).
Proof. unfold Z.div, Z.modulo. now destruct (Z.div_eucl a b). Qed.

Lemma SFdiv_core_1024 m e :
  Z.pos (digits2_pos m) = 53 -> -1063 <= e ->
  SFdiv_core_binary prec emax (Z.pos m) e 4503599627370496 (-42)
  = (2 * Z.pos m, e - 11, loc_Exact).
Proof.
  intros Hd He. unfold SFdiv_core_binary.
  change (Zdigits2 (Z.pos m)) with (Z.pos (digits2_pos m)).
  change (Zdigits2 4503599627370496) with 53.
  rewrite Hd. cbv zeta.
  replace (53 + e - (53 + -42)) with (e + 42) by lia.
  rewrite fexp_normal by lia.
  replace (Z.min (e + 42 - 53) (e - -42)) with (e - 11) by lia.
  replace (e - -42 - (e - 11)) with 53 by lia.
  cbv iota. rewrite Z.shiftl_mul_pow2 by lia.
  rewrite div_eucl_pair.
  change (2 ^ 53) with (2 * 4503599627370496).
  rewrite Z.mul_assoc, Z.div_mul, Z.mod_mul by lia.
  rewrite (Z.mul_comm (Z.pos m) 2). reflexivity.
Qed.

Lemma SFdiv_1024 m e :
  Z.pos (digits2_pos m) = 53 -> -1063 <= e <= 981 ->
  SFdiv prec emax (S754_finite false m e) f1024 = S754_finite false m (e - 10).
Proof.
  intros Hd He. unfold f1024, SFdiv.
  rewrite SFdiv_core_1024 by lia.
  unfold binary_round_aux, shr_fexp.
  change (Zdigits2 (2 * Z.pos m)) with (Z.pos (Pos.succ (digits2_pos m))).
  rewrite Pos2Z.inj_succ, Hd, fexp_normal by lia.
  replace (Z.succ 53 + (e - 11) - 53 - (e - 11)) with 1 by lia.
  change (shr (shr_record_of_loc (2 * Z.pos m) loc_Exact) (e - 11) 1)
    with ({| shr_m := Z.pos m; shr_r := false; shr_s := false |},
          e - 11 + 1).
  cbv beta iota.
  change (round_nearest_even _ _) with (Z.pos m).
  change (Zdigits2 (Z.pos m)) with (Z.pos (digits2_pos m)).
  rewrite Hd, fexp_normal by lia.
  replace (53 + (e - 11 + 1) - 53 - (e - 11 + 1)) with 0 by lia.
  change (shr (shr_record_of_loc (Z.pos m) loc_Exact) (e - 11 + 1) 0)
    with ({| shr_m := Z.pos m; shr_r := false; shr_s := false |},
          e - 11 + 1).
  cbv beta iota. unfold shr_m.
  replace (e - 11 + 1 <=? emax - prec) with true.
  - f_equal. lia.
  - symmetry. apply Z.leb_le. unfold emax, prec. lia.
Qed.

Lemma leb_emax e : (e <=? emax - prec) = (e <=? 971).
Proof. reflexivity. Qed.

(** The second half of [binary_round_aux]: a mantissa between [2^52]
    and [2^53] is kept, or halved when it is [2^53]. *)
Lemma round_tail m1 k :
  2 ^ 52 <= m1 <= 2 ^ 53 -> -1074 <= k ->
  exists m e,
    Z.pos (digits2_pos m) = 53
    /\ (m1 < 2 ^ 53 -> e = k /\ Z.pos m = m1)
    /\ (m1 = 2 ^ 53 -> e = k + 1)
    /\ (let '(mrs, e') := shr_fexp prec emax m1 k loc_Exact in
        match shr_m mrs with
        | 0 => S754_zero false
        | Z.pos m' => if e' <=? emax - prec then S754_finite false m' e'
                      else S754_infinity false
        | Z.neg _ => S754_nan
        end)
       = if e <=? 971 then S754_finite false m e else S754_infinity false.
Proof.
  intros Hm Hk.
  destruct (Z_lt_le_dec m1 (2 ^ 53)) as [Hlt|Hge].
  - destruct m1 as [|p|p]; try (change (2 ^ 52) with 4503599627370496 in Hm; lia).
    assert (Hd : Z.pos (digits2_pos p) = 53).
    { apply digits2_pos_unique. change (53 - 1) with 52. lia. }
    exists p, k. split; [exact Hd|]. split; [auto|]. split; [lia|].
    unfold shr_fexp.
    change (Zdigits2 (Z.pos p)) with (Z.pos (digits2_pos p)).
    rewrite Hd, fexp_normal by lia.
    replace (53 + k - 53 - k) with 0 by lia.
    reflexivity.
  - assert (m1 = 9007199254740992) as ->
      by (change (2 ^ 53) with 9007199254740992 in *; lia).
    exists 4503599627370496%positive, (k + 1).
    split; [reflexivity|]. split; [intros Hc; discriminate Hc|].
    split; [reflexivity|].
    unfold shr_fexp.
    change (Zdigits2 9007199254740992) with 54.
    rewrite fexp_normal by lia.
    replace (54 + k - 53 - k) with 1 by lia.
    reflexivity.
Qed.

(** [float(n)] for a positive [n] of [D] binary digits: a normal
    double with exponent [D - 53], or [D - 52] when rounding carries
    into a new digit; out of range when that exponent exceeds 971. *)
Lemma float_of_pos n :
  let D := Z.pos (digits2_pos n) in
  exists m e,
    Z.pos (digits2_pos m) = 53
    /\ D - 53 <= e <= D - 52
    /\ binary_normalize prec emax (Z.pos n) 0 false
       = (if e <=? 971 then S754_finite false m e else S754_infinity false)
    /\ (D <= 53 -> e = D - 53 /\ Z.pos m = Z.pos n * 2 ^ (- e))
    /\ (53 < D -> e = D - 52 ->
        Z.testbit (Z.pos n) (D - 54) = true
        /\ Z.pos n / 2 ^ (D - 53) = 2 ^ 53 - 1).
Proof.
  intros D. pose proof (digits2_pos_bounds n) as Hn. fold D in Hn.
  assert (HD : 1 <= D) by (unfold D; lia).
  unfold binary_normalize, binary_round, shl_align.
  fold D. rewrite fexp_normal by lia.
  replace (D + 0 - 53 - 0) with (D - 53) by lia.
  replace (D + 0 - 53) with (D - 53) by lia.
  destruct (D - 53) as [|k|d] eqn:Hk.
  - (* exactly 53 digits *)
    exists n, 0. fold D. split; [lia|]. split; [lia|]. split.
    + rewrite binary_round_aux_canonical by (fold D; lia). reflexivity.
    + split; [|lia]. intros _. split; [lia|]. simpl. lia.
  - (* more than 53 digits: shift right and round *)
    unfold binary_round_aux. unfold shr_fexp at 1.
    change (Zdigits2 (Z.pos n)) with D. rewrite fexp_normal by lia.
    replace (D + 0 - 53 - 0) with (Z.pos k) by lia.
    unfold shr. 
    pose proof (iter_shr_1_spec k (shr_record_of_loc (Z.pos n) loc_Exact))
      as Hspec.
    destruct (SpecFloat.iter_pos shr_1 k
                (shr_record_of_loc (Z.pos n) loc_Exact)) as [m0 r0 s0].
    destruct Hspec as [Hm0 Hr0]; [simpl; lia|].
    simpl in Hm0, Hr0. subst m0 r0.
    set (m0 := Z.pos n / 2 ^ Z.pos k).
    assert (Hm0 : 2 ^ 52 <= m0 < 2 ^ 53).
    { unfold m0. 
      assert (Hpow : 2 ^ D = 2 ^ 53 * 2 ^ Z.pos k)
        by (rewrite <- Z.pow_add_r by lia; f_equal; lia).
      assert (Hpow' : 2 ^ (D - 1) = 2 ^ 52 * 2 ^ Z.pos k)
        by (rewrite <- Z.pow_add_r by lia; f_equal; lia).
      assert (0 < 2 ^ Z.pos k) by (apply Z.pow_pos_nonneg; lia).
      split.
      - apply Z.div_le_lower_bound; [lia|]. rewrite Z.mul_comm. lia.
      - apply Z.div_lt_upper_bound; [lia|]. rewrite Z.mul_comm. lia. }
    set (mrs := {| shr_m := m0; shr_r := Z.testbit (Z.pos n) (Z.pos k - 1);
                   shr_s := s0 |}).
    set (m1 := round_nearest_even (shr_m mrs) (loc_of_shr_record mrs)).
    assert (Hm1 : m1 = m0
                  \/ (m1 = m0 + 1
                      /\ Z.testbit (Z.pos n) (Z.pos k - 1) = true)).
    { unfold m1, mrs. simpl.
      destruct (Z.testbit (Z.pos n) (Z.pos k - 1)), s0; simpl; auto.
      destruct (Z.even m0); auto. }
    destruct (round_tail m1 (0 + Z.pos k)) as (m & e & Hd & Hlt & Heq & Hres);
      [lia | lia |].
    exists m, e. split; [exact Hd|].
    assert (He : e = Z.pos k \/ (e = Z.pos k + 1 /\ m1 = 2 ^ 53)).
    { destruct (Z_lt_le_dec m1 (2 ^ 53)) as [Hc|Hc].
      - left. destruct (Hlt Hc). lia.
      - right. assert (m1 = 2 ^ 53) by lia. split; [|assumption].
        rewrite (Heq H). lia. }
    split; [lia|]. split; [exact Hres|]. split; [lia|].
    intros _ He'. destruct He as [He|[_ He]]; [lia|].
    destruct Hm1 as [Hm1|[Hm1 Hbit]]; [lia|].
    replace (D - 54) with (Z.pos k - 1) by lia.
    replace (D - 53) with (Z.pos k) by lia.
    split; [exact Hbit|]. fold m0. lia.
  - (* fewer than 53 digits: shift left, exactly *)
    exists (Pos.iter xO n d), (Z.neg d).
    assert (Hd : Z.pos (digits2_pos (Pos.iter xO n d)) = 53).
    { rewrite digits2_pos_shift, Pos2Z.inj_add. fold D. lia. }
    split; [exact Hd|]. split; [lia|]. split.
    + rewrite binary_round_aux_canonical by lia.
      replace (Z.neg d <=? 971) with true; [reflexivity|].
      symmetry. apply Z.leb_le. lia.
    + split; [|lia]. intros _. split; [lia|].
      rewrite pos_shift_mul. reflexivity.
Qed.

(** [float(n)] succeeds below [2^1024 - 2^970] and gives a normal
    double whose exponent follows the size of [n]. *)
Lemma float_of_int_in_range n :
  0 < n < 2 ^ 1024 - 2 ^ 970 ->
  exists m e,
    Z.pos (digits2_pos m) = 53
    /\ Z.log2 n - 52 <= e <= 971
    /\ float_of_int n = Ok (S754_finite false m e).
Proof.
  intros Hn. destruct n as [|n|n]; try lia.
  destruct (float_of_pos n) as (m & e & Hd & He & Hres & _ & Hcarry).
  pose proof (digits2_pos_bounds n) as Hb.
  rewrite (digits2_pos_log2 n) in He, Hcarry, Hb.
  set (L := Z.log2 (Z.pos n)) in *.
  assert (HL : 0 <= L) by apply Z.log2_nonneg.
  replace (L + 1 - 1) with L in Hb by lia.
  assert (HL' : L < 1024).
  { apply (Z.pow_lt_mono_r_iff 2); [lia | lia |].
    assert (0 < 2 ^ 970) by (apply Z.pow_pos_nonneg; lia). lia. }
  assert (He' : e <= 971).
  { destruct (Z_le_gt_dec e 971) as [|Hbig]; [assumption|exfalso].
    assert (HL1 : L = 1023) by lia.
    destruct Hcarry as [Hbit Hdiv]; [lia | lia |].
    replace (L + 1 - 54) with 970 in Hbit by lia.
    replace (L + 1 - 53) with 971 in Hdiv by lia.
    rewrite Z.testbit_odd, Z.shiftr_div_pow2 in Hbit by lia.
    set (P := 2 ^ 970) in *.
    assert (HP : 0 < P) by (apply Z.pow_pos_nonneg; lia).
    assert (H971 : 2 ^ 971 = P * 2).
    { unfold P. change 971 with (Z.succ 970).
      rewrite Z.pow_succ_r by lia. apply Z.mul_comm. }
    assert (H1024 : 2 ^ 1024 = 2 ^ 54 * P).
    { unfold P. change 1024 with (54 + 970).
      now rewrite Z.pow_add_r by lia. }
    rewrite H971, <- Z.div_div in Hdiv by lia.
    pose proof (Z.div_mod (Z.pos n) P) as Hdm.
    pose proof (Z.mod_pos_bound (Z.pos n) P HP) as Hmb.
    pose proof (Z.div_mod (Z.pos n / P) 2) as Hdm2.
    rewrite <- Z.bit0_mod, Z.bit0_odd, Hbit in Hdm2.
    change (Z.b2z true) with 1 in Hdm2.
    change (2 ^ 53) with 9007199254740992 in Hdiv.
    change (2 ^ 54) with 18014398509481984 in H1024.
    nia. }
  exists m, e. split; [exact Hd|]. split; [lia|].
  unfold float_of_int. rewrite Hres.
  replace (e <=? 971) with true; [reflexivity|].
  symmetry. apply Z.leb_le. exact He'.
Qed.

Lemma fge_1024 m e :
  Z.pos (digits2_pos m) = 53 ->
  fge (S754_finite false m e) f1024 = (-42 <=? e).
Proof.
  intros Hd. unfold fge, f1024, SFleb, SFcompare.
  destruct (Z.compare_spec (-42) e) as [<-|Hlt|Hgt].
  - pose proof (digits2_pos_bounds m) as Hb. rewrite Hd in Hb.
    change (2 ^ (53 - 1)) with (Z.pos 4503599627370496) in Hb.
    rewrite Pos.compare_cont_spec. simpl Pos.switch_Eq.
    destruct (Pos.compare_spec 4503599627370496 m) as [|?|Hc];
      try reflexivity.
    exfalso. destruct Hb as [Hb _]. clear Hd.
    apply Pos2Z.pos_lt_pos in Hc.
    apply (Z.lt_irrefl (Z.pos m)).
    eapply Z.lt_le_trans; [exact Hc | exact Hb].
  - symmetry. apply Z.leb_le. lia.
  - symmetry. apply Z.leb_gt. lia.
Qed.

Lemma while_loop_S {S} (cond : S -> bool) body fuel (s : S) :
  while_loop (Datatypes.S fuel) cond body s
  = if cond s then
      match body s with
      | Ok s' => while_loop fuel cond body s'
      | Raise e => Raise e
      end
    else Ok s.
Proof. reflexivity. Qed.

Lemma hb_body_ok st :
  hb_body st = Ok (SFdiv prec emax (fst st) f1024, snd st + 1).
Proof. reflexivity. Qed.

Lemma hb_cond_large m e i :
  Z.pos (digits2_pos m) = 53 -> -42 <= e -> 0 <= i < 4 ->
  hb_cond (S754_finite false m e, i) = true.
Proof.
  intros Hd He Hi. unfold hb_cond. cbn [fst snd].
  rewrite fge_1024 by exact Hd.
  apply andb_true_iff. split; [apply Z.leb_le; lia|].
  apply Z.ltb_lt. change (Z.of_nat (length symbols) - 1) with 4. lia.
Qed.

Lemma hb_step_large m e i :
  Z.pos (digits2_pos m) = 53 -> -32 <= e <= 981 -> 0 <= i < 4 ->
  forall fuel,
    while_loop (S fuel) hb_cond hb_body (S754_finite false m e, i)
    = while_loop fuel hb_cond hb_body (S754_finite false m (e - 10), i + 1).
Proof.
  intros Hd He Hi fuel. rewrite while_loop_S.
  rewrite hb_cond_large by (auto; lia).
  rewrite hb_body_ok. cbn [fst snd].
  rewrite SFdiv_1024 by (auto; lia). reflexivity.
Qed.

(** From [2^50] bytes on the loop runs its four rounds. *)
Lemma hb_loop_large m e :
  Z.pos (digits2_pos m) = 53 -> -2 <= e <= 971 ->
  hb_loop 4 (S754_finite false m e) = Ok (S754_finite false m (e - 40), 4).
Proof.
  intros Hd He. unfold hb_loop.
  rewrite hb_step_large by (auto; lia).
  rewrite hb_step_large by (auto; lia).
  rewrite hb_step_large by (auto; lia).
  rewrite hb_step_large by (auto; lia).
  cbn [while_loop]. do 2 f_equal. f_equal. lia.
Qed.

Lemma centi_large m e :
  Z.pos (digits2_pos m) = 53 -> -42 <= e -> 102400 <= centi m e.
Proof.
  intros Hd He. pose proof (digits2_pos_bounds m) as Hb. rewrite Hd in Hb.
  change (2 ^ (53 - 1)) with 4503599627370496 in Hb.
  unfold centi. destruct e as [|p|p].
  - simpl. lia.
  - assert (0 < 2 ^ Z.pos p) by (apply Z.pow_pos_nonneg; lia).
    nia.
  - assert (Hq : 102400 <= Z.pos m * 100 / 2 ^ Z.pos p).
    { assert (Hp : 2 ^ Z.pos p <= 2 ^ 42) by (apply Z.pow_le_mono_r; lia).
      change (2 ^ 42) with 4398046511104 in Hp.
      assert (0 < 2 ^ Z.pos p) by (apply Z.pow_pos_nonneg; lia).
      apply Z.div_le_lower_bound; [lia|]. nia. }
    destruct (2 * (Z.pos m * 100 mod 2 ^ Z.pos p) ?= 2 ^ Z.pos p);
      [destruct (Z.even _)| |]; lia.
Qed.

(** The loop leaves with an index between 0 and 4, whatever the
    double, within [4 - i] rounds. *)
Lemma hb_loop_exits fuel : forall f i,
  0 <= i <= 4 -> 4 <= i + Z.of_nat fuel ->
  exists f' i',
    while_loop fuel hb_cond hb_body (f, i) = Ok (f', i')
    /\ i <= i' <= 4
    /\ hb_cond (f', i') = false.
Proof.
  induction fuel as [|fuel IH]; intros f i Hi Hfuel.
  - exists f, i. split; [reflexivity|]. split; [lia|].
    unfold hb_cond. cbn [fst snd].
    change (Z.of_nat (length symbols) - 1) with 4.
    replace (i <? 4) with false by (symmetry; apply Z.ltb_ge; lia).
    apply andb_false_r.
  - rewrite while_loop_S. destruct (hb_cond (f, i)) eqn:Hc.
    + assert (Hlt : i < 4).
      { unfold hb_cond in Hc. apply andb_true_iff in Hc as [_ Hc].
        apply Z.ltb_lt in Hc. cbn [snd] in Hc.
        change (Z.of_nat (length symbols) - 1) with 4 in Hc. exact Hc. }
      rewrite hb_body_ok. cbn [fst snd].
      destruct (IH (SFdiv prec emax f f1024) (i + 1))
        as (f' & i' & Hw & Hi' & Hc'); [lia | lia |].
      exists f', i'. split; [exact Hw|]. split; [lia | exact Hc'].
    + exists f, i. split; [reflexivity|]. split; [lia | exact Hc].
Qed.

(** More rounds than needed change nothing. *)
Lemma while_loop_stable {S} (cond : S -> bool) body fuel : forall s s' extra,
  while_loop fuel cond body s = Ok s' -> cond s' = false ->
  while_loop (fuel + extra) cond body s = Ok s'.
Proof.
  induction fuel as [|fuel IH]; intros s s' extra Hw Hc.
  - simpl in Hw. injection Hw as ->.
    destruct extra; simpl; [reflexivity | now rewrite Hc].
  - simpl in *. destruct (cond s); [|exact Hw].
    destruct (body s) as [s1|e]; [|exact Hw]. now apply IH.
Qed.

Lemma getitem_symbols i :
  0 <= i <= 4 ->
  exists sym, getitem symbols i = Ok sym
              /\ symbols !! Z.to_nat i = Some sym.
Proof.
  intros Hi.
  assert (i = 0 \/ i = 1 \/ i = 2 \/ i = 3 \/ i = 4) as Hcases by lia.
  destruct Hcases as [->|[->|[->|[->| ->]]]]; eexists; split; reflexivity.
Qed.

Lemma float_of_int_ok n :
  0 <= n < 2 ^ 1024 - 2 ^ 970 -> exists f, float_of_int n = Ok f.
Proof.
  intros Hn. destruct (Z.eq_dec n 0) as [->|Hnz].
  - eexists. reflexivity.
  - destruct (float_of_int_in_range n) as (m & e & _ & _ & Hf); [lia|].
    eauto.
Qed.

End Doubles.

(** Below the overflow bound [human_bytes] returns: the loop is left
    within four rounds, the index is in range, and more fuel changes
    nothing. *)
Lemma human_bytes_shape n :
  0 <= n < 2 ^ 1024 - 2 ^ 970 ->
  exists f st sym,
    float_of_int n = Ok f
    /\ hb_loop (length symbols - 1) f = Ok st
    /\ hb_cond st = false
    /\ 0 <= snd st <= 4
    /\ symbols !! Z.to_nat (snd st) = Some sym
    /\ human_bytes n = Ok (format_2f (fst st) ++ str " " ++ sym)
    /\ forall fuel, (length symbols - 1 <= fuel)%nat ->
                    human_bytes_fuel fuel n = human_bytes n.
Proof.
  intros Hn.
  destruct (float_of_int_ok n Hn) as [f Hf].
  destruct (hb_loop_exits 4 f 0) as (f' & i' & Hw & Hi & Hc); [lia | lia |].
  destruct (getitem_symbols i') as (sym & Hg & Hs); [lia|].
  exists f, (f', i'), sym. simpl fst. simpl snd.
  assert (Hfinish : hb_finish (f', i')
            = Ok (format_2f f' ++ str " " ++ sym)).
  { unfold hb_finish. simpl fst. simpl snd. now rewrite Hg. }
  assert (Hfuel : forall extra,
            human_bytes_fuel (4 + extra) n
            = Ok (format_2f f' ++ str " " ++ sym)).
  { intros extra. unfold human_bytes_fuel, hb_loop. rewrite Hf.
    change (mbind ?k (Ok ?x)) with (k x). cbv beta.
    rewrite (while_loop_stable hb_cond hb_body 4 (f, 0) (f', i') extra Hw Hc).
    exact Hfinish. }
  assert (Hhb : human_bytes n = Ok (format_2f f' ++ str " " ++ sym)).
  { unfold human_bytes. change (length symbols - 1)%nat with (4 + 0)%nat.
    apply Hfuel. }
  repeat split; try assumption; try lia.
  intros fuel Hfu. change (length symbols - 1)%nat with 4%nat in Hfu.
  replace fuel with (4 + (fuel - 4))%nat by lia.
  now rewrite Hfuel, Hhb.
Qed.

(** C10, as the code has it. For every [n] from 0 up to (not
    including) [2^1024 - 2^970], the integers [float] accepts,
    [human_bytes] leaves its loop within four rounds with an index
    between 0 and 4 and returns the number followed by one of the five
    symbols; from [1024^5] on the symbol is [TB] and the number is at
    least 1024. *)
Theorem human_bytes_total n :
  0 <= n < 2 ^ 1024 - 2 ^ 970 ->
  (exists f st sym,
      float_of_int n = Ok f
      /\ hb_loop (length symbols - 1) f = Ok st
      /\ hb_cond st = false
      /\ 0 <= snd st <= 4
      /\ symbols !! Z.to_nat (snd st) = Some sym
      /\ human_bytes n = Ok (format_2f (fst st) ++ str " " ++ sym)
      /\ forall fuel, (length symbols - 1 <= fuel)%nat ->
                      human_bytes_fuel fuel n = human_bytes n)
  /\ (1024 ^ 5 <= n ->
      exists c,
        102400 <= c
        /\ human_bytes n
           = Ok (str_of_int (c / 100) ++ str "." ++ two_digits (c mod 100)
                 ++ str " TB")).
Proof.
  intros Hn. split; [now apply human_bytes_shape|].
  intros Hbig.
  assert (H50 : 2 ^ 50 <= n) by (change (1024 ^ 5) with (2 ^ 50) in Hbig; lia).
  destruct (float_of_int_in_range n) as (m & e & Hd & He & Hf).
  { assert (0 < 2 ^ 50) by (apply Z.pow_pos_nonneg; lia). lia. }
  assert (HL : 50 <= Z.log2 n).
  { rewrite <- (Z.log2_pow2 50) by lia. now apply Z.log2_le_mono. }
  exists (centi m (e - 40)). split; [apply centi_large; [exact Hd | lia]|].
  unfold human_bytes, human_bytes_fuel. rewrite Hf.
  change (mbind ?k (Ok ?x)) with (k x). cbv beta.
  change (length symbols - 1)%nat with 4%nat.
  rewrite hb_loop_large by (auto; lia).
  change (mbind ?k (Ok ?x)) with (k x). cbv beta.
  unfold hb_finish. simpl fst. simpl snd.
  change (getitem symbols 4) with (Ok (str "TB")).
  change (mbind ?k (Ok ?x)) with (k x). cbv beta.
  unfold format_2f, render_centi. simpl app.
  rewrite <- !app_assoc. reflexivity.
Qed.

Lemma human_bytes_total_witness :
  exists c,
    102400 <= c
    /\ human_bytes (2 ^ 60)
       = Ok (str_of_int (c / 100) ++ str "." ++ two_digits (c mod 100)
             ++ str " TB").
Proof.
  assert (Hrange : 0 <= 2 ^ 60 < 2 ^ 1024 - 2 ^ 970).
  { split; [intros Hc; vm_compute in Hc; discriminate Hc|].
    vm_compute. reflexivity. }
  assert (Hbig : 1024 ^ 5 <= 2 ^ 60).
  { intros Hc. vm_compute in Hc. discriminate Hc. }
  exact (proj2 (human_bytes_total (2 ^ 60) Hrange) Hbig).
Defined.

(** C10 as stated fails at [2^1024]: [float] rejects the integer and
    [human_bytes] returns nothing. *)
Lemma human_bytes_overflow_counterexample :
  0 <= 2 ^ 1024
  /\ human_bytes (2 ^ 1024) = Raise OverflowError
  /\ ~ (exists text, human_bytes (2 ^ 1024) = Ok text).
Proof.
  split; [apply Z.pow_nonneg; lia|].
  assert (H : human_bytes (2 ^ 1024) = Raise OverflowError)
    by (vm_compute; reflexivity).
  split; [exact H|]. intros [text Ht]. rewrite H in Ht. discriminate.
Qed.

(** The bound is the exact one. *)
Example human_bytes_edge :
  human_bytes (2 ^ 1024 - 2 ^ 970) = Raise OverflowError
  /\ human_bytes (2 ^ 1024 - 2 ^ 970 - 1)
     = Ok (str_of_int (centi 9007199254740991 931 / 100) ++ str ".00 TB").
Proof. split; vm_compute; reflexivity. Qed.

(** ** The CSV writer read back *)

Module CsvFacts.
Import Csv.

Ltac res_step :=
  unfold mbind, res_bind_inst, res_bind; cbv beta iota.

Lemma parse_cons r c rest :
  parse r (c :: rest)
  = match process_char r (Some c) with
    | Ok r1 =>
        match (if line_ends c rest then end_of_line r1 else Ok r1) with
        | Ok r2 => parse r2 rest
        | Raise e => Raise e
        end
    | Raise e => Raise e
    end.
Proof. reflexivity. Qed.

(** What [needs_quote] tests, one character at a time. *)
Lemma needs_quote_false c :
  needs_quote c = false ->
  (c =? COMMA)%N = false /\ (c =? DQUOTE)%N = false
  /\ (c =? CR)%N = false /\ (c =? LF)%N = false.
Proof.
  unfold needs_quote. intros Hq.
  apply orb_false_elim in Hq as [Hq Hlf].
  apply orb_false_elim in Hq as [Hq Hcr].
  apply orb_false_elim in Hq as [Hc Hd]. auto.
Qed.

Lemma line_ends_plain c c' rest :
  (c =? CR)%N = false -> (c =? LF)%N = false ->
  line_ends c (c' :: rest) = false.
Proof. intros Hcr Hlf. unfold line_ends. now rewrite Hcr, Hlf. Qed.

(** Unquoted characters pile up in the field. *)
Lemma parse_plain f : forall fld flds recs c' rest,
  existsb needs_quote f = false ->
  parse {| state := IN_FIELD; field := fld; fields := flds;
           records := recs |} (f ++ c' :: rest)
  = parse {| state := IN_FIELD; field := fld ++ f; fields := flds;
             records := recs |} (c' :: rest).
Proof.
  induction f as [|c f IH]; intros fld flds recs c' rest Hq.
  - now rewrite app_nil_r.
  - simpl in Hq. apply orb_false_elim in Hq as [Hc Hf].
    destruct (needs_quote_false c Hc) as (Hco & Hdq & Hcr & Hlf).
    simpl app. rewrite parse_cons.
    unfold process_char. cbn [state]. unfold is_newline.
    rewrite Hlf, Hcr, Hco. cbn [orb].
    assert (Hle : line_ends c (f ++ c' :: rest) = false).
    { destruct f; simpl app; now apply line_ends_plain. }
    rewrite Hle. unfold add_char. cbn [state field fields records].
    rewrite IH by exact Hf. now rewrite <- app_assoc.
Qed.

(** Inside quotes everything is kept, a doubled quote as one. *)
Lemma parse_quoted f : forall fld flds recs rest,
  parse {| state := IN_QUOTED_FIELD; field := fld; fields := flds;
           records := recs |} (escape f ++ DQUOTE :: rest)
  = parse {| state := IN_QUOTED_FIELD; field := fld ++ f; fields := flds;
             records := recs |} (DQUOTE :: rest).
Proof.
  induction f as [|c f IH]; intros fld flds recs rest.
  - now rewrite app_nil_r.
  - simpl escape. destruct (N.eqb_spec c DQUOTE) as [->|Hne].
    + simpl app. rewrite parse_cons.
      unfold process_char. cbn [state].
      change (DQUOTE =? DQUOTE)%N with true. cbv iota.
      change (line_ends DQUOTE (DQUOTE :: escape f ++ DQUOTE :: rest))
        with false. cbv iota.
      rewrite parse_cons. unfold set_state, process_char. cbn [state].
      change (DQUOTE =? DQUOTE)%N with true. cbv iota.
      assert (Hle : line_ends DQUOTE (escape f ++ DQUOTE :: rest) = false).
      { destruct (escape f); reflexivity. }
      rewrite Hle. unfold add_char, set_state.
      cbn [state field fields records].
      rewrite IH. now rewrite <- app_assoc.
    + simpl app. rewrite parse_cons.
      unfold process_char. cbn [state].
      replace (c =? DQUOTE)%N with false
        by (symmetry; now apply N.eqb_neq).
      cbv iota. unfold add_char. cbn [state field fields records].
      assert (Heol : forall r, state r = IN_QUOTED_FIELD ->
                (if line_ends c (escape f ++ DQUOTE :: rest)
                 then end_of_line r else Ok r) = Ok r).
      { intros r Hr. destruct (line_ends _ _); [|reflexivity].
        unfold end_of_line, process_char. rewrite Hr. res_step.
        now rewrite Hr. }
      rewrite Heol by reflexivity.
      rewrite IH. now rewrite <- app_assoc.
Qed.

Lemma render_field_head f c t :
  render_field f = c :: t -> is_newline c = false.
Proof.
  unfold render_field. destruct (existsb needs_quote f) eqn:Hq.
  - intros [= <- _]. reflexivity.
  - intros ->. simpl in Hq. apply orb_false_elim in Hq as [Hc _].
    destruct (needs_quote_false c Hc) as (_ & _ & Hcr & Hlf).
    unfold is_newline. now rewrite Hlf, Hcr.
Qed.

(** A rendered field, read from the start of a field, is held when
    its separator comes. *)
Lemma parse_field f flds recs sep rest :
  exists st fld,
    held st fld f
    /\ parse {| state := START_FIELD; field := []; fields := flds;
                records := recs |} (render_field f ++ sep :: rest)
       = parse {| state := st; field := fld; fields := flds;
                  records := recs |} (sep :: rest).
Proof.
  unfold render_field. destruct (existsb needs_quote f) eqn:Hq.
  - exists QUOTE_IN_QUOTED_FIELD, f. split; [right; right; auto|].
    simpl app. rewrite parse_cons. unfold process_char. cbn [state].
    change (is_newline DQUOTE) with false.
    change (DQUOTE =? DQUOTE)%N with true. cbv iota.
    assert (Hle : line_ends DQUOTE ((escape f ++ [DQUOTE]) ++ sep :: rest)
                  = false).
    { destruct (escape f); reflexivity. }
    rewrite Hle. unfold set_state. cbn [state field fields records].
    rewrite <- app_assoc. simpl app. rewrite parse_quoted.
    rewrite parse_cons. unfold process_char. cbn [state].
    change (DQUOTE =? DQUOTE)%N with true. cbv iota.
    change (line_ends DQUOTE (sep :: rest)) with false. cbv iota.
    reflexivity.
  - destruct f as [|c f].
    + exists START_FIELD, []. split; [left; auto | reflexivity].
    + exists IN_FIELD, (c :: f). split; [right; left; auto|].
      simpl in Hq. apply orb_false_elim in Hq as [Hc Hf].
      destruct (needs_quote_false c Hc) as (Hco & Hdq & Hcr & Hlf).
      simpl app. rewrite parse_cons. unfold process_char. cbn [state].
      unfold is_newline. rewrite Hlf, Hcr, Hdq, Hco. cbn [orb].
      assert (Hle : line_ends c (f ++ sep :: rest) = false).
      { destruct f; simpl app; now apply line_ends_plain. }
      rewrite Hle. unfold add_char, set_state.
      cbn [state field fields records].
      now rewrite parse_plain.
Qed.

Lemma held_comma st fld f flds recs :
  held st fld f ->
  process_char {| state := st; field := fld; fields := flds;
                  records := recs |} (Some COMMA)
  = Ok {| state := START_FIELD; field := []; fields := flds ++ [f];
          records := recs |}.
Proof. intros [(-> & -> & ->)|[(-> & ->)|(-> & ->)]]; reflexivity. Qed.

Lemma held_cr st fld f flds recs :
  held st fld f ->
  process_char {| state := st; field := fld; fields := flds;
                  records := recs |} (Some CR)
  = Ok {| state := EAT_CRNL; field := []; fields := flds ++ [f];
          records := recs |}.
Proof. intros [(-> & -> & ->)|[(-> & ->)|(-> & ->)]]; reflexivity. Qed.

(** CR LF after the last field closes the row. *)
Lemma parse_line_end flds recs rest :
  parse {| state := EAT_CRNL; field := []; fields := flds;
           records := recs |} (LF :: rest)
  = parse {| state := START_RECORD; field := []; fields := [];
             records := recs ++ [flds] |} rest.
Proof.
  rewrite parse_cons.
  assert (Hle : line_ends LF rest = true) by (destruct rest; reflexivity).
  rewrite Hle. reflexivity.
Qed.

(** The fields of a row, read one after the other. *)
Lemma parse_fields fs : fs <> [] -> forall flds recs rest,
  parse {| state := START_FIELD; field := []; fields := flds;
           records := recs |}
        (join [COMMA] (List.map render_field fs) ++ CR :: LF :: rest)
  = parse {| state := START_RECORD; field := []; fields := [];
             records := recs ++ [flds ++ fs] |} rest.
Proof.
  induction fs as [|f fs IH]; [congruence|]. intros _ flds recs rest.
  destruct fs as [|f' fs].
  - simpl join.
    destruct (parse_field f flds recs CR (LF :: rest))
      as (st & fld & Hheld & ->).
    rewrite parse_cons, (held_cr _ _ f) by exact Hheld.
    change (line_ends CR (LF :: rest)) with false. cbv iota.
    apply parse_line_end.
  - change (join [COMMA] (List.map render_field (f :: f' :: fs)))
      with (render_field f ++ [COMMA]
            ++ join [COMMA] (List.map render_field (f' :: fs))).
    rewrite <- !app_assoc. cbn [app].
    destruct (parse_field f flds recs COMMA
                (join [COMMA] (List.map render_field (f' :: fs))
                 ++ CR :: LF :: rest))
      as (st & fld & Hheld & ->).
    rewrite parse_cons, (held_comma _ _ f) by exact Hheld.
    assert (Hle : line_ends COMMA
              (join [COMMA] (List.map render_field (f' :: fs))
               ++ CR :: LF :: rest) = false).
    { destruct (join _ _); reflexivity. }
    rewrite Hle. rewrite IH by discriminate.
    now rewrite <- app_assoc.
Qed.

Lemma join_render_head fs c t :
  join [COMMA] (List.map render_field fs) = c :: t -> is_newline c = false.
Proof.
  destruct fs as [|f fs]; [discriminate|].
  destruct fs as [|f' fs].
  - simpl. apply render_field_head.
  - change (join [COMMA] (List.map render_field (f :: f' :: fs)))
      with (render_field f ++ [COMMA]
            ++ join [COMMA] (List.map render_field (f' :: fs))).
    destruct (render_field f) as [|c0 t0] eqn:Hf.
    + intros [= <- _]. reflexivity.
    + intros [= <- _]. now apply (render_field_head f c0 t0).
Qed.

Lemma join_render_nil fs :
  fs <> [] -> join [COMMA] (List.map render_field fs) = [] -> fs = [[]].
Proof.
  destruct fs as [|f fs]; [congruence|]. intros _.
  destruct fs as [|f' fs].
  - simpl. unfold render_field.
    destruct (existsb needs_quote f); [discriminate|]. now intros ->.
  - change (join [COMMA] (List.map render_field (f :: f' :: fs)))
      with (render_field f ++ [COMMA]
            ++ join [COMMA] (List.map render_field (f' :: fs))).
    intros Hnil. apply app_eq_nil in Hnil as [_ Hnil]. discriminate.
Qed.

(** At the start of a row an ordinary character is handled as at the
    start of a field. *)
Lemma parse_start_record fld flds recs c t :
  is_newline c = false ->
  parse {| state := START_RECORD; field := fld; fields := flds;
           records := recs |} (c :: t)
  = parse {| state := START_FIELD; field := fld; fields := flds;
             records := recs |} (c :: t).
Proof.
  intros Hc. rewrite !parse_cons. unfold process_char. cbn [state].
  rewrite Hc. reflexivity.
Qed.

(** One written row is read back as that row. *)
Lemma parse_record fs recs rest :
  parse {| state := START_RECORD; field := []; fields := [];
           records := recs |} (render_record fs ++ rest)
  = parse {| state := START_RECORD; field := []; fields := [];
             records := recs ++ [fs] |} rest.
Proof.
  unfold render_record. destruct fs as [|f fs].
  - simpl. assert (Hle : line_ends LF rest = true)
      by (destruct rest; reflexivity).
    rewrite Hle. reflexivity.
  - destruct (join [COMMA] (List.map render_field (f :: fs)))
      as [|c body] eqn:Hbody.
    + rewrite (join_render_nil (f :: fs)) by (congruence || exact Hbody).
      simpl. assert (Hle : line_ends LF rest = true)
        by (destruct rest; reflexivity).
      rewrite Hle. reflexivity.
    + pose proof (join_render_head _ _ _ Hbody) as Hc.
      rewrite <- app_assoc. simpl app.
      rewrite parse_start_record by exact Hc.
      change (c :: body ++ CR :: LF :: rest)
        with ((c :: body) ++ CR :: LF :: rest).
      rewrite <- Hbody. now rewrite parse_fields by discriminate.
Qed.

Lemma parse_records rows : forall recs,
  parse {| state := START_RECORD; field := []; fields := [];
           records := recs |} (concat (List.map render_record rows))
  = Ok {| state := START_RECORD; field := []; fields := [];
          records := recs ++ rows |}.
Proof.
  induction rows as [|fs rows IH]; intros recs; simpl.
  - now rewrite app_nil_r.
  - rewrite parse_record, IH. now rewrite <- app_assoc.
Qed.

(** Reading what the writer wrote gives the rows back, whatever the
    fields hold. *)
Lemma read_render rows :
  read (concat (List.map render_record rows)) = Ok rows.
Proof.
  unfold read, reader0. rewrite parse_records. reflexivity.
Qed.

(** *** Rows whose line end went through a CR LF stream

    The writer ends a row with CR LF; a stream that turns the line
    feed into CR LF stores CR CR LF. *)

(** The fields of a row up to the carriage return after them. *)
Lemma parse_fields_cr fs : fs <> [] -> forall flds recs tail,
  parse {| state := START_FIELD; field := []; fields := flds;
           records := recs |}
        (join [COMMA] (List.map render_field fs) ++ CR :: tail)
  = match (if line_ends CR tail
           then end_of_line {| state := EAT_CRNL; field := [];
                               fields := flds ++ fs; records := recs |}
           else Ok {| state := EAT_CRNL; field := [];
                      fields := flds ++ fs; records := recs |}) with
    | Ok r => parse r tail
    | Raise e => Raise e
    end.
Proof.
  induction fs as [|f fs IH]; [congruence|]. intros _ flds recs tail.
  destruct fs as [|f' fs].
  - simpl join.
    destruct (parse_field f flds recs CR tail) as (st & fld & Hheld & ->).
    now rewrite parse_cons, (held_cr _ _ f) by exact Hheld.
  - change (join [COMMA] (List.map render_field (f :: f' :: fs)))
      with (render_field f ++ [COMMA]
            ++ join [COMMA] (List.map render_field (f' :: fs))).
    rewrite <- !app_assoc. cbn [app].
    destruct (parse_field f flds recs COMMA
                (join [COMMA] (List.map render_field (f' :: fs))
                 ++ CR :: tail))
      as (st & fld & Hheld & ->).
    rewrite parse_cons, (held_comma _ _ f) by exact Hheld.
    assert (Hle : line_ends COMMA
              (join [COMMA] (List.map render_field (f' :: fs))
               ++ CR :: tail) = false).
    { destruct (join _ _); reflexivity. }
    rewrite Hle. rewrite IH by discriminate.
    now rewrite <- app_assoc.
Qed.

(** A row followed by CR CR LF is read as that row and an empty one. *)
Lemma parse_record_crcrlf fs recs c body rest :
  join [COMMA] (List.map render_field fs) = c :: body ->
  parse {| state := START_RECORD; field := []; fields := [];
           records := recs |} ((c :: body) ++ CR :: CR :: LF :: rest)
  = parse {| state := START_RECORD; field := []; fields := [];
             records := recs ++ [fs; []] |} rest.
Proof.
  intros Hbody. pose proof (join_render_head _ _ _ Hbody) as Hc.
  assert (Hfs : fs <> []) by (intros ->; discriminate).
  cbn [app]. rewrite parse_start_record by exact Hc.
  change (c :: body ++ CR :: CR :: LF :: rest)
    with ((c :: body) ++ CR :: CR :: LF :: rest).
  rewrite <- Hbody, parse_fields_cr by exact Hfs.
  change (line_ends CR (CR :: LF :: rest)) with true. cbv iota.
  cbn [app]. unfold end_of_line. res_step. cbn [process_char state].
  unfold set_state. cbn [state field fields records].
  rewrite parse_cons.
  unfold process_char. cbn [state].
  change (is_newline CR) with true. cbv iota.
  change (line_ends CR (LF :: rest)) with false. cbv iota.
  unfold set_state. cbn [state field fields records].
  rewrite parse_cons. unfold process_char. cbn [state].
  change (is_newline LF) with true. cbv iota.
  assert (Hle : line_ends LF rest = true) by (destruct rest; reflexivity).
  rewrite Hle. unfold end_of_line. res_step.
  cbn [process_char state]. unfold set_state.
  cbn [state field fields records].
  now rewrite <- app_assoc.
Qed.

End CsvFacts.

(** ** The characters of the row *)

Lemma uint_ascii d :
  forallb is_ascii (str (NilEmpty.string_of_uint d)) = true.
Proof. induction d; simpl; auto. Qed.

(** The digits and the sign of an integer are ASCII. *)
Lemma uint_zero_ascii d :
  forallb is_ascii (str (NilZero.string_of_uint d)) = true.
Proof.
  destruct d; [reflexivity | ..];
    match goal with
    | |- context [NilZero.string_of_uint ?x] => exact (uint_ascii x)
    end.
Qed.

Lemma str_of_int_ascii n : forallb is_ascii (str_of_int n) = true.
Proof.
  unfold str_of_int, NilZero.string_of_int.
  destruct (Z.to_int n) as [d|d]; [apply uint_zero_ascii|].
  change (str (String ?c ?t)) with (N_of_ascii c :: str t).
  cbn [forallb]. now rewrite uint_zero_ascii.
Qed.

Lemma two_digits_ascii n :
  0 <= n < 100 -> forallb is_ascii (two_digits n) = true.
Proof.
  intros Hn. unfold two_digits, is_ascii. cbn [forallb].
  assert (0 <= n / 10 < 10) by (split; [apply Z.div_pos | apply Z.div_lt_upper_bound]; lia).
  pose proof (Z.mod_pos_bound n 10).
  rewrite !andb_true_iff, !N.ltb_lt. lia.
Qed.

Lemma format_2f_ascii x : forallb is_ascii (format_2f x) = true.
Proof.
  destruct x as [sg|sg| |sg m e]; try (now destruct sg); [reflexivity|].
  unfold format_2f, render_centi. rewrite !forallb_app.
  rewrite str_of_int_ascii, two_digits_ascii
    by (apply Z.mod_pos_bound; lia).
  now destruct sg.
Qed.

(** So is what [human_bytes] returns. *)
Lemma human_bytes_ascii n text :
  human_bytes n = Ok text -> forallb is_ascii text = true.
Proof.
  unfold human_bytes, human_bytes_fuel.
  destruct (float_of_int n) as [f|e]; [|discriminate].
  change (mbind ?k (Ok ?x)) with (k x). cbv beta.
  destruct (hb_loop _ f) as [st|e]; [|discriminate].
  change (mbind ?k (Ok ?x)) with (k x). cbv beta.
  unfold hb_finish, getitem.
  destruct (_ || _); [discriminate|].
  destruct (nth_error symbols _) as [sym|] eqn:Hsym; [|discriminate].
  change (mbind ?k (Ok ?x)) with (k x). cbv beta.
  intros [= <-]. rewrite !forallb_app, format_2f_ascii.
  apply nth_error_In in Hsym.
  destruct Hsym as [<-|[<-|[<-|[<-|[<-|[]]]]]]; reflexivity.
Qed.

(** Quoting adds ASCII characters only. *)
Lemma encodable_escape h f :
  forallb (encodable h) (Csv.escape f) = forallb (encodable h) f.
Proof.
  induction f as [|c f IH]; [reflexivity|]. simpl.
  destruct (N.eqb_spec c DQUOTE) as [->|_]; simpl; now rewrite IH.
Qed.

Lemma encodable_render_field h f :
  forallb (encodable h) (Csv.render_field f) = forallb (encodable h) f.
Proof.
  unfold Csv.render_field. destruct (existsb Csv.needs_quote f); [|reflexivity].
  simpl. rewrite forallb_app, encodable_escape. simpl.
  now rewrite andb_true_r.
Qed.

Lemma encodable_join_render h fs :
  forallb (encodable h) (join [COMMA] (List.map Csv.render_field fs))
  = forallb (fun f => forallb (encodable h) f) fs.
Proof.
  induction fs as [|f fs IH]; [reflexivity|].
  destruct fs as [|f' fs].
  - simpl. now rewrite encodable_render_field, andb_true_r.
  - change (join [COMMA] (List.map Csv.render_field (f :: f' :: fs)))
      with (Csv.render_field f ++ [COMMA]
            ++ join [COMMA] (List.map Csv.render_field (f' :: fs))).
    rewrite !forallb_app, IH, encodable_render_field. reflexivity.
Qed.

(** A record can be encoded when its fields can. *)
Lemma encodable_render_record h fs :
  forallb (encodable h) (Csv.render_record fs)
  = forallb (fun f => forallb (encodable h) f) fs.
Proof.
  pose proof (encodable_join_render h fs) as Hj.
  unfold Csv.render_record.
  destruct fs as [|f fs]; [reflexivity|].
  destruct (join [COMMA] (List.map Csv.render_field (f :: fs))) as [|c body].
  - rewrite <- Hj. reflexivity.
  - rewrite forallb_app, Hj. simpl. now rewrite andb_true_r.
Qed.

(** ** [write_csv] *)

Section CsvExport.

Context `{PyLib}.
Import Csv.

(** The numbers of the row are ASCII: the row can be encoded when its
    free text can. *)
Lemma csv_values_encodable h data mem_total uptime :
  human_bytes (mem_total_bytes (memory data)) = Ok mem_total ->
  Forall (encodable_text h) (csv_free_text data) ->
  Forall (encodable_text h) (csv_values data mem_total uptime).
Proof.
  intros Hmem Hfree. unfold csv_free_text in Hfree.
  repeat match goal with
         | Hf : Forall _ (_ :: _) |- _ =>
             let Hx := fresh "Hx" in
             pose proof (Forall_inv Hf) as Hx;
             apply Forall_inv_tail in Hf
         end.
  assert (Hnum : forall n, encodable_text h (str_of_int n)).
  { intros n. apply encodable_ascii, str_of_int_ascii. }
  unfold csv_values. repeat constructor; try assumption; try apply Hnum.
  - destruct (logical_cpus (cpu data)); [apply Hnum | reflexivity].
  - apply encodable_ascii. now apply human_bytes_ascii in Hmem.
Qed.

Lemma dict_to_list_header f rv :
  dict_to_list {| dw_file := f; fieldnames := csv_fieldnames;
                  restval := rv |}
               (List.map (fun k => (k, CStr k)) csv_fieldnames)
  = Ok (List.map CStr csv_fieldnames).
Proof. vm_compute. reflexivity. Qed.

Lemma dict_to_list_row f rv v1 v2 v3 v4 v5 v6 v7 v8 v9 v10 v11 v12 :
  dict_to_list {| dw_file := f; fieldnames := csv_fieldnames;
                  restval := rv |}
    [ (str "timestamp", v1); (str "hostname", v2); (str "fqdn", v3);
      (str "os_system", v4); (str "os_release", v5);
      (str "logical_cpus", v6); (str "mem_total", v7);
      (str "mem_used_pct", v8); (str "uptime_seconds", v9);
      (str "disk_count", v10); (str "iface_count", v11);
      (str "tags", v12) ]
  = Ok [v1; v2; v3; v4; v5; v6; v7; v8; v9; v10; v11; v12].
Proof. vm_compute. reflexivity. Qed.

Lemma cell_text_header :
  List.map cell_text (List.map CStr csv_fieldnames) = csv_fieldnames.
Proof. reflexivity. Qed.

Lemma cell_text_row data mem_total uptime :
  List.map cell_text
    [ CStr (timestamp data); CStr (hostname data); CStr (fqdn data);
      CStr (os_system (os data)); CStr (os_release (os data));
      opt_int_cell (logical_cpus (cpu data)); CStr mem_total;
      CFloat (mem_percent_used (memory data)); CInt uptime;
      CInt (Z.of_nat (length (disks data)));
      CInt (Z.of_nat (length (network data)));
      CStr (join [COMMA] (tags data)) ]
  = csv_values data mem_total uptime.
Proof.
  unfold csv_values. cbn [List.map cell_text].
  now destruct (logical_cpus (cpu data)).
Qed.

Lemma uptime_field_nan : uptime_field nan = Ok 0.
Proof. reflexivity. Qed.

Lemma feq_refl_finite s m e :
  feq (S754_finite s m e) (S754_finite s m e) = true.
Proof.
  unfold feq, SFeqb, SFcompare.
  rewrite Z.compare_refl, Pos.compare_cont_refl. now destruct s.
Qed.

(** Line 130 returns for every uptime that is not infinite. *)
Lemma uptime_field_ok u :
  (forall s, u <> S754_infinity s) -> exists k, uptime_field u = Ok k.
Proof.
  intros Hfin. destruct u as [s|s| |s m e].
  - exists 0. now destruct s.
  - now destruct (Hfin s).
  - exists 0. reflexivity.
  - unfold uptime_field. rewrite feq_refl_finite. simpl. eauto.
Qed.

Lemma csv_row_ok data mem_total uptime :
  human_bytes (mem_total_bytes (memory data)) = Ok mem_total ->
  uptime_field (uptime_seconds data) = Ok uptime ->
  csv_row data
  = Ok [ (str "timestamp", CStr (timestamp data));
         (str "hostname", CStr (hostname data));
         (str "fqdn", CStr (fqdn data));
         (str "os_system", CStr (os_system (os data)));
         (str "os_release", CStr (os_release (os data)));
         (str "logical_cpus", opt_int_cell (logical_cpus (cpu data)));
         (str "mem_total", CStr mem_total);
         (str "mem_used_pct", CFloat (mem_percent_used (memory data)));
         (str "uptime_seconds", CInt uptime);
         (str "disk_count", CInt (Z.of_nat (length (disks data))));
         (str "iface_count", CInt (Z.of_nat (length (network data))));
         (str "tags", CStr (join [COMMA] (tags data))) ].
Proof. intros Hmem Hup. unfold csv_row. now rewrite Hmem, Hup. Qed.

Lemma open_write_run h path s :
  open_w h path = Ok tt ->
  open_write h path s
  = (Ok (File path),
     {| log := log s ++ [EvOpenW path]; out := out s;
        fs := <[path := []]> (fs s) |}).
Proof.
  intros Hopen. unfold open_write, syscall, set_file, emit.
  io_unfold. cbn [log out fs add_log]. now rewrite Hopen.
Qed.

Lemma writerow_run h w d cells s :
  dict_to_list w d = Ok cells ->
  writerow h w d s
  = write h (dw_file w) (render_record (List.map cell_text cells)) s.
Proof. intros Hd. unfold writerow. io_unfold. now rewrite Hd. Qed.

(** The header, then the row, through one writer. *)
Lemma writer_run h f data mem_total uptime s :
  let w := {| dw_file := f; fieldnames := csv_fieldnames;
              restval := CStr [] |} in
  writeheader h w s
  = write h f (render_record csv_fieldnames) s
  /\ writerow h w
       [ (str "timestamp", CStr (timestamp data));
         (str "hostname", CStr (hostname data));
         (str "fqdn", CStr (fqdn data));
         (str "os_system", CStr (os_system (os data)));
         (str "os_release", CStr (os_release (os data)));
         (str "logical_cpus", opt_int_cell (logical_cpus (cpu data)));
         (str "mem_total", CStr mem_total);
         (str "mem_used_pct", CFloat (mem_percent_used (memory data)));
         (str "uptime_seconds", CInt uptime);
         (str "disk_count", CInt (Z.of_nat (length (disks data))));
         (str "iface_count", CInt (Z.of_nat (length (network data))));
         (str "tags", CStr (join [COMMA] (tags data))) ] s
     = write h f (render_record (csv_values data mem_total uptime)) s.
Proof.
  intros w. subst w. split.
  - unfold writeheader. cbn [fieldnames].
    rewrite (writerow_run h _ _ _ s (dict_to_list_header f (CStr []))).
    now rewrite cell_text_header.
  - rewrite (writerow_run h _ _ _ s
               (dict_to_list_row f (CStr []) _ _ _ _ _ _ _ _ _ _ _ _)).
    now rewrite cell_text_row.
Qed.

(** The destination once it is open: what is appended arrives after
    what arrived before. *)
Lemma open_destination_run h out_path s :
  (forall path, out_path = Some path -> path <> [] ->
                open_w h path = Ok tt) ->
  exists f s0,
    open_destination h out_path s = (Ok f, s0)
    /\ (forall a, append f (translate_newlines h a) s0
                  = (Ok tt, delivered h s out_path a))
    /\ (forall a b, append f (translate_newlines h b)
                      (delivered h s out_path a)
                    = (Ok tt, delivered h s out_path (a ++ b))).
Proof.
  intros Hopen.
  assert (Hstdout : forall a b,
            append Stdout (translate_newlines h b)
              {| log := log s; out := out s ++ translate_newlines h a;
                 fs := fs s |}
            = (Ok tt, {| log := log s;
                         out := out s ++ translate_newlines h (a ++ b);
                         fs := fs s |})).
  { intros a b. cbn [append log out fs].
    now rewrite translate_newlines_app, <- app_assoc. }
  assert (Hnil : forall a,
            append Stdout (translate_newlines h a) s
            = (Ok tt, {| log := log s; out := out s ++ translate_newlines h a;
                         fs := fs s |})) by reflexivity.
  destruct out_path as [[|c path]|].
  - exists Stdout, s. split; [reflexivity|]. split; [exact Hnil | exact Hstdout].
  - exists (File (c :: path)),
      {| log := log s ++ [EvOpenW (c :: path)]; out := out s;
         fs := <[c :: path := []]> (fs s) |}.
    split.
    { simpl open_destination. apply open_write_run.
      apply Hopen; [reflexivity | discriminate]. }
    split.
    + intros a. unfold append, set_file, delivered. cbn [log out fs].
      rewrite lookup_insert_eq, insert_insert_eq. reflexivity.
    + intros a b. unfold append, set_file, delivered. cbn [log out fs].
      rewrite lookup_insert_eq, insert_insert_eq. cbn [default].
      now rewrite translate_newlines_app.
  - exists Stdout, s. split; [reflexivity|]. split; [exact Hnil | exact Hstdout].
Qed.

Lemma header_encodable h :
  forallb (encodable h) (render_record csv_fieldnames) = true.
Proof. now apply encodable_ascii. Qed.

Lemma forallb_encodable_text h vs :
  Forall (encodable_text h) vs
  <-> forallb (fun v => forallb (encodable h) v) vs = true.
Proof. unfold encodable_text. now rewrite forallb_forall, List.Forall_forall. Qed.

(** [write_csv] once the row is computed: the header goes to the
    destination, the file being emptied first; then the row, with
    both written when the row can be encoded, and
    [UnicodeEncodeError] after the header when it cannot. *)
Lemma write_csv_steps h data out_path s mem_total uptime :
  human_bytes (mem_total_bytes (memory data)) = Ok mem_total ->
  uptime_field (uptime_seconds data) = Ok uptime ->
  (forall path, out_path = Some path -> path <> [] ->
                open_w h path = Ok tt) ->
  write_csv h data out_path s
  = if forallb (fun v => forallb (encodable h) v)
               (csv_values data mem_total uptime)
    then (Ok tt, delivered h s out_path (csv_text data mem_total uptime))
    else (Raise UnicodeEncodeError,
          delivered h s out_path (render_record csv_fieldnames)).
Proof.
  intros Hmem Hup Hopen. unfold write_csv.
  rewrite (csv_row_ok data mem_total uptime Hmem Hup).
  unfold mbind, io_mbind, io_bind, io_lift.
  change (dict_keys _) with csv_fieldnames.
  destruct (open_destination_run h out_path s Hopen)
    as (f & s0 & -> & Hfirst & Hnext).
  destruct (writer_run h f data mem_total uptime s0) as [-> _].
  rewrite write_ok by apply header_encodable.
  rewrite Hfirst.
  destruct (writer_run h f data mem_total uptime
              (delivered h s out_path (render_record csv_fieldnames)))
    as [_ ->].
  rewrite <- encodable_render_record.
  destruct (forallb (encodable h) (render_record (csv_values _ _ _)))
    eqn:Henc.
  - rewrite write_ok by exact Henc. apply Hnext.
  - now rewrite write_unencodable by exact Henc.
Qed.

Lemma write_csv_run h data out_path s mem_total uptime :
  human_bytes (mem_total_bytes (memory data)) = Ok mem_total ->
  uptime_field (uptime_seconds data) = Ok uptime ->
  (forall path, out_path = Some path -> path <> [] ->
                open_w h path = Ok tt) ->
  Forall (encodable_text h) (csv_values data mem_total uptime) ->
  write_csv h data out_path s
  = (Ok tt, delivered h s out_path (csv_text data mem_total uptime)).
Proof.
  intros Hmem Hup Hopen Henc.
  rewrite (write_csv_steps h data out_path s mem_total uptime Hmem Hup Hopen).
  apply forallb_encodable_text in Henc. now rewrite Henc.
Qed.

(** The text of the export reads back as its two rows. *)
Lemma read_csv_text data mem_total uptime :
  read (csv_text data mem_total uptime)
  = Ok [csv_fieldnames; csv_values data mem_total uptime].
Proof.
  unfold csv_text.
  pose proof (CsvFacts.read_render
                [csv_fieldnames; csv_values data mem_total uptime]) as Hread.
  cbn [List.map concat] in Hread. rewrite app_nil_r in Hread.
  exact Hread.
Qed.

(** C1, as the code has it. For a record whose memory size [float]
    converts and whose uptime is finite or NaN, whose text the
    destination's encoding has, and a destination that opens,
    [write_csv] writes the header and one data row; where [os.linesep]
    is the line feed, what arrives reads back as exactly these two
    rows, of twelve fields each. *)
Theorem csv_two_rows_twelve_fields h data out_path s :
  0 <= mem_total_bytes (memory data) < 2 ^ 1024 - 2 ^ 970 ->
  (forall sg, uptime_seconds data <> S754_infinity sg) ->
  (forall path, out_path = Some path -> path <> [] ->
                open_w h path = Ok tt) ->
  Forall (encodable_text h) (csv_free_text data) ->
  os_linesep h = NlLF ->
  exists mem_total uptime,
    human_bytes (mem_total_bytes (memory data)) = Ok mem_total
    /\ uptime_field (uptime_seconds data) = Ok uptime
    /\ write_csv h data out_path s
       = (Ok tt, delivered h s out_path (csv_text data mem_total uptime))
    /\ translate_newlines h (csv_text data mem_total uptime)
       = csv_text data mem_total uptime
    /\ read (csv_text data mem_total uptime)
       = Ok [csv_fieldnames; csv_values data mem_total uptime]
    /\ length csv_fieldnames = 12%nat
    /\ length (csv_values data mem_total uptime) = 12%nat.
Proof.
  intros Hmem Hup Hopen Henc Hlf.
  destruct (human_bytes_shape _ Hmem)
    as (f & st & sym & _ & _ & _ & _ & _ & Hhb & _).
  destruct (uptime_field_ok _ Hup) as [uptime Huf].
  exists (format_2f st.1 ++ str " " ++ sym), uptime.
  split; [exact Hhb|]. split; [exact Huf|]. split.
  { apply write_csv_run; try assumption.
    now apply csv_values_encodable. }
  split; [now apply translate_newlines_lf|].
  split; [apply read_csv_text|]. split; reflexivity.
Qed.

(** C7, as the code has it. A NaN uptime gives the field 0; a zero or
    finite uptime gives its integer part (the fraction is cut, toward
    zero); and the field reaches the CSV text as that integer under
    the header [uptime_seconds], the text being written whenever the
    encoding of the stream has the record's text. *)
Theorem uptime_field_whole_seconds :
  uptime_field nan = Ok 0
  /\ (forall sg, uptime_field (S754_zero sg) = Ok 0)
  /\ (forall sg m e,
        exists mag,
          uptime_field (S754_finite sg m e)
          = Ok (if sg then - mag else mag)
          /\ 0 <= mag
          /\ mag * 2 ^ Z.max 0 (- e) <= Z.pos m * 2 ^ Z.max 0 e
             < (mag + 1) * 2 ^ Z.max 0 (- e))
  /\ (forall h data out_path s k,
        0 <= mem_total_bytes (memory data) < 2 ^ 1024 - 2 ^ 970 ->
        (forall path, out_path = Some path -> path <> [] ->
                      open_w h path = Ok tt) ->
        uptime_field (uptime_seconds data) = Ok k ->
        exists mem_total header row,
          (Forall (encodable_text h) (csv_free_text data) ->
           write_csv h data out_path s
           = (Ok tt, delivered h s out_path (csv_text data mem_total k)))
          /\ (os_linesep h = NlLF ->
              translate_newlines h (csv_text data mem_total k)
              = csv_text data mem_total k)
          /\ read (csv_text data mem_total k) = Ok [header; row]
          /\ header !! 8%nat = Some (str "uptime_seconds")
          /\ row !! 8%nat = Some (str_of_int k)
          /\ (uptime_seconds data = nan -> row !! 8%nat = Some (str "0"))).
Proof.
  split; [reflexivity|]. split; [intros []; reflexivity|]. split.
  - intros sg m e. unfold uptime_field. rewrite feq_refl_finite.
    cbn [py_int int_of_float].
    destruct e as [|p|p].
    + exists (Z.pos m * 2 ^ 0). split; [reflexivity|].
      change (Z.max 0 (- 0)) with 0. change (Z.max 0 0) with 0.
      change (2 ^ 0) with 1. lia.
    + exists (Z.pos m * 2 ^ Z.pos p). split; [reflexivity|].
      assert (0 < 2 ^ Z.pos p) by (apply Z.pow_pos_nonneg; lia).
      replace (Z.max 0 (- Z.pos p)) with 0 by lia.
      replace (Z.max 0 (Z.pos p)) with (Z.pos p) by lia.
      change (2 ^ 0) with 1. nia.
    + exists (Z.pos m / 2 ^ Z.pos p). split; [reflexivity|].
      assert (Hpow : 0 < 2 ^ Z.pos p) by (apply Z.pow_pos_nonneg; lia).
      replace (Z.max 0 (- Z.neg p)) with (Z.pos p) by lia.
      replace (Z.max 0 (Z.neg p)) with 0 by lia.
      change (2 ^ 0) with 1.
      pose proof (Z.div_mod (Z.pos m) (2 ^ Z.pos p)) as Hdm.
      pose proof (Z.mod_pos_bound (Z.pos m) (2 ^ Z.pos p) Hpow) as Hmb.
      assert (0 <= Z.pos m / 2 ^ Z.pos p) by (apply Z.div_pos; lia).
      split; [assumption|]. nia.
  - intros h data out_path s k Hmem Hopen Huf.
    destruct (human_bytes_shape _ Hmem)
      as (f & st & sym & _ & _ & _ & _ & _ & Hhb & _).
    exists (format_2f st.1 ++ str " " ++ sym), csv_fieldnames,
      (csv_values data (format_2f st.1 ++ str " " ++ sym) k).
    split.
    { intros Henc. apply write_csv_run; try assumption.
      now apply csv_values_encodable. }
    split; [apply translate_newlines_lf|].
    split; [apply read_csv_text|].
    split; [reflexivity|]. split; [reflexivity|].
    intros Hnan. rewrite Hnan in Huf. injection Huf as <-. reflexivity.
Qed.

End CsvExport.

Lemma csv_two_rows_twelve_fields_witness :
  let data := Sample.record [str "lab"; [34; 10; 44; 233]%N]
                (Sample.flt 12345 (-3)) in
  exists mem_total uptime,
    @write_csv Sample.lib Sample.linux data (Some (str "inv.csv")) sys0
    = (Ok tt, delivered Sample.linux sys0 (Some (str "inv.csv"))
                (@csv_text Sample.lib data mem_total uptime))
    /\ translate_newlines Sample.linux
         (@csv_text Sample.lib data mem_total uptime)
       = @csv_text Sample.lib data mem_total uptime
    /\ Csv.read (@csv_text Sample.lib data mem_total uptime)
       = Ok [csv_fieldnames; @csv_values Sample.lib data mem_total uptime]
    /\ length (@csv_values Sample.lib data mem_total uptime) = 12%nat.
Proof.
  intros data.
  assert (Hmem : 0 <= mem_total_bytes (memory data) < 2 ^ 1024 - 2 ^ 970).
  { split; [intros Hc; vm_compute in Hc; discriminate Hc|].
    vm_compute. reflexivity. }
  assert (Hup : forall sg, uptime_seconds data <> S754_infinity sg).
  { intros sg Hc. vm_compute in Hc. discriminate Hc. }
  assert (Henc : Forall (encodable_text Sample.linux)
                   (@csv_free_text Sample.lib data)).
  { repeat constructor. }
  destruct (@csv_two_rows_twelve_fields Sample.lib Sample.linux data
              (Some (str "inv.csv")) sys0 Hmem Hup (fun _ _ _ => eq_refl)
              Henc eq_refl)
    as (mem_total & uptime & _ & _ & Hw & Ht & Hr & _ & Hl).
  exists mem_total, uptime. auto.
Defined.

(** C1 as stated fails for a tag the encoding lacks (a lone surrogate
    under UTF-8): the header is written, the row raises, and what has
    arrived is one row. *)
Lemma csv_unencodable_tag_counterexample :
  let data := Sample.record [[56575]%N] nan in
  exists s',
    @write_csv Sample.lib Sample.linux data None sys0
    = (Raise UnicodeEncodeError, s')
    /\ out s' = Csv.render_record csv_fieldnames
    /\ Csv.read (out s') = Ok [csv_fieldnames].
Proof.
  intros data. eexists. split; [vm_compute; reflexivity|].
  split; vm_compute; reflexivity.
Qed.

Lemma uptime_field_whole_seconds_witness :
  let data := Sample.record [] nan in
  exists mem_total header row,
    @write_csv Sample.lib Sample.linux data None sys0
    = (Ok tt, delivered Sample.linux sys0 None
                (@csv_text Sample.lib data mem_total 0))
    /\ Csv.read (@csv_text Sample.lib data mem_total 0) = Ok [header; row]
    /\ header !! 8%nat = Some (str "uptime_seconds")
    /\ row !! 8%nat = Some (str "0").
Proof.
  intros data.
  assert (Hmem : 0 <= mem_total_bytes (memory data) < 2 ^ 1024 - 2 ^ 970).
  { split; [intros Hc; vm_compute in Hc; discriminate Hc|].
    vm_compute. reflexivity. }
  assert (Henc : Forall (encodable_text Sample.linux)
                   (@csv_free_text Sample.lib data)).
  { repeat constructor. }
  destruct (proj2 (proj2 (proj2 (@uptime_field_whole_seconds Sample.lib)))
              Sample.linux data None sys0 0 Hmem
              (fun path Hp => match Hp with end) eq_refl)
    as (mem_total & header & row & Hw & _ & Hr & Hh & _ & Hz).
  exists mem_total, header, row. auto.
Defined.

(** C7 as stated fails for an infinite uptime: it is not NaN, [int]
    raises on it, and nothing is written. *)
Lemma uptime_infinite_counterexample :
  feq (S754_infinity false) (S754_infinity false) = true
  /\ uptime_field (S754_infinity false) = Raise OverflowError
  /\ @write_csv Sample.lib Sample.linux
       (Sample.record [] (S754_infinity false)) None sys0
     = (Raise OverflowError, sys0).
Proof. repeat split. Qed.

(* ===================================================================== *)
(** * Further properties of the code *)
(* ===================================================================== *)

(** ** The interface loop: addresses (lines 62-70) *)

Lemma split_head sep s :
  exists first others,
    split sep s = first :: others
    /\ ~ In sep first
    /\ (others = [] -> s = first)
    /\ (others <> [] -> exists rest, s = first ++ sep :: rest).
Proof.
  pose proof (join_split sep s) as Hj.
  pose proof (split_no_sep sep s) as Hn.
  destruct (split sep s) as [|first others] eqn:Hs;
    [now destruct (split_not_nil sep s)|].
  exists first, others. split; [reflexivity|].
  pose proof (Forall_inv Hn) as Hf. split; [exact Hf|]. split.
  - intros ->. simpl in Hj. now symmetry.
  - intros Hne. rewrite join_cons in Hj by exact Hne.
    simpl in Hj. eauto.
Qed.

(** X1. [a.address.split('%')[0]] is the part of the address before
    its first percent sign: it holds no percent sign, the address is
    that part alone or that part, a percent sign and a zone, and an
    address without a percent sign is kept whole. *)
Theorem strip_zone_spec address :
  ~ In PERCENT (strip_zone address)
  /\ (address = strip_zone address
      \/ exists zone, address = strip_zone address ++ PERCENT :: zone)
  /\ (~ In PERCENT address -> strip_zone address = address).
Proof.
  unfold strip_zone.
  destruct (split_head PERCENT address) as (first & others & -> & Hf & H1 & H2).
  split; [exact Hf|].
  assert (Hor : address = first \/ exists zone, address = first ++ PERCENT :: zone).
  { destruct others as [|o others]; [left; now apply H1|].
    right. apply H2. discriminate. }
  split; [exact Hor|].
  intros Hno. destruct Hor as [->|[zone ->]]; [reflexivity|].
  exfalso. apply Hno. apply in_or_app. right. now left.
Qed.

Lemma fold_add_address_lists al : forall entry,
  ipv4 (fold_left add_address al entry)
  = ipv4 entry ++ List.map a_address (List.filter (has_family AF_INET) al)
  /\ ipv6 (fold_left add_address al entry)
     = ipv6 entry
       ++ List.map (fun a => strip_zone (a_address a))
                   (List.filter (has_family AF_INET6) al).
Proof.
  induction al as [|a al IH]; intros entry; simpl.
  - now rewrite !app_nil_r.
  - destruct (IH (add_address entry a)) as [-> ->].
    unfold add_address, has_family.
    destruct (a_family a) as [[]|]; simpl;
      rewrite <- ?app_assoc; auto.
Qed.

(** X2. For every interface the [ipv4] list holds the addresses of its
    AF_INET entries and the [ipv6] list those of its AF_INET6 entries
    with the zone cut, both in the order of the address table; entries
    of other families (or without a family) are ignored. *)
Theorem nic_addresses_spec h :
  exists nics,
    collect_nics h = Ok nics
    /\ forall k ifname addr_list,
         net_if_addrs h !! k = Some (ifname, addr_list) ->
         exists entry,
           nics !! k = Some entry
           /\ ipv4 entry
              = List.map a_address
                  (List.filter (has_family AF_INET) addr_list)
           /\ ipv6 entry
              = List.map (fun a => strip_zone (a_address a))
                  (List.filter (has_family AF_INET6) addr_list).
Proof.
  exists (List.map (entry_of (net_if_stats h)) (net_if_addrs h)).
  split; [apply collect_nics_ok|].
  intros k ifname addr_list Hk.
  exists (entry_of (net_if_stats h) (ifname, addr_list)).
  split; [now rewrite list_lookup_fmap, Hk|].
  unfold entry_of.
  destruct (fold_add_address_lists addr_list
              {| iface := ifname;
                 is_up := isup <$> net_if_stats h !! ifname;
                 ipv4 := []; ipv6 := [] |}) as [H4 H6].
  simpl in *. now rewrite H4, H6.
Qed.

(** ** Tags (line 149) and the package listing (lines 79, 82) *)

Lemma split_join sep ts :
  ts <> [] -> Forall (fun t => ~ In sep t) ts ->
  split sep (join [sep] ts) = ts.
Proof.
  induction ts as [|t ts IH]; [congruence|]. intros _ Hno.
  pose proof (Forall_inv Hno) as Ht.
  pose proof (Forall_inv_tail Hno) as Hts.
  assert (Hone : forall u rest,
            ~ In sep u -> split sep rest <> [] ->
            split sep (u ++ sep :: rest) = u :: split sep rest).
  { induction u as [|c u IHu]; intros rest Hu Hrest; simpl.
    - now rewrite N.eqb_refl.
    - destruct (N.eqb_spec c sep) as [->|Hne]; [destruct Hu; now left|].
      rewrite IHu by (auto; intros Hin; apply Hu; now right). reflexivity. }
  assert (Hlast : forall u, ~ In sep u -> split sep u = [u]).
  { induction u as [|c u IHu]; intros Hu; simpl; [reflexivity|].
    destruct (N.eqb_spec c sep) as [->|Hne]; [destruct Hu; now left|].
    rewrite IHu by (intros Hin; apply Hu; now right). reflexivity. }
  destruct ts as [|t' ts].
  - simpl. now apply Hlast.
  - rewrite join_cons by discriminate. cbn [app].
    rewrite Hone by (auto; apply split_not_nil).
    rewrite IH by (auto; discriminate). reflexivity.
Qed.

Lemma parse_join_clean ts :
  Forall clean_tag ts ->
  parse_tags (Some (join [COMMA] ts)) = ts.
Proof.
  intros Hclean. destruct ts as [|t ts]; [reflexivity|].
  assert (Hno : Forall (fun u => ~ In COMMA u) (t :: ts)).
  { eapply Forall_impl; [exact Hclean|]. intros u (_ & Hu & _). exact Hu. }
  assert (Htruthy : truthy (join [COMMA] (t :: ts)) = true).
  { pose proof (Forall_inv Hclean) as (Hne & _ & _).
    destruct t as [|c t]; [congruence|]. now destruct ts. }
  unfold parse_tags. rewrite Htruthy.
  rewrite split_join by (auto; discriminate).
  assert (Hkeep : List.filter (fun u => truthy (strip u)) (t :: ts) = t :: ts).
  { clear Hno Htruthy. induction Hclean as [|u us (Hne & _ & Hs) _ IH];
      [reflexivity|].
    simpl. rewrite Hs. destruct u; [congruence|]. simpl. now rewrite IH. }
  rewrite Hkeep. clear Hkeep Hno Htruthy.
  induction Hclean as [|u us (_ & _ & Hs) _ IH]; [reflexivity|].
  simpl. now rewrite Hs, IH.
Qed.

(** X3. Tags that are already clean (not empty, no comma, no space at
    either end) survive the trip through the command line: joining them
    with commas and parsing the result gives the same list, in the
    same order, duplicates included. *)
Theorem parse_tags_join ts :
  Forall clean_tag ts ->
  parse_tags (Some (join [COMMA] ts)) = ts.
Proof. exact (parse_join_clean ts). Qed.

Lemma strip_fixed t :
  match t with c :: _ => is_space c = false | [] => True end ->
  match rev t with c :: _ => is_space c = false | [] => True end ->
  strip t = t.
Proof.
  intros Hhead Hlast. unfold strip, rstrip.
  assert (Hl : forall u, match u with c :: _ => is_space c = false
                                  | [] => True end -> lstrip u = u).
  { intros [|c u] Hu; [reflexivity|]. simpl. now rewrite Hu. }
  rewrite (Hl t Hhead), (Hl (rev t) Hlast). apply rev_involutive.
Qed.

Lemma strip_clean t :
  ~ In COMMA t -> truthy (strip t) = true -> clean_tag (strip t).
Proof.
  intros Hno Hne.
  destruct (strip_decompose t) as (l & r & Ht & _ & _ & Hhead & Hlast).
  split; [|split].
  - intros Hnil. rewrite Hnil in Hne. discriminate.
  - intros Hin. apply Hno. rewrite Ht.
    apply in_or_app. right. apply in_or_app. now left.
  - now apply strip_fixed.
Qed.

(** X12. Every tag [parse_tags] returns is clean: not empty, without a
    comma, without a space at either end. Hence parsing is idempotent:
    the tags as the CSV row shows them (joined by commas) parse to the
    same tags again. *)
Theorem parse_tags_idempotent arg :
  Forall clean_tag (parse_tags arg)
  /\ parse_tags (Some (join [COMMA] (parse_tags arg))) = parse_tags arg.
Proof.
  assert (Hclean : Forall clean_tag (parse_tags arg)).
  { destruct arg as [s|]; [|constructor]. unfold parse_tags.
    destruct (truthy s); [|constructor].
    pose proof (split_no_sep COMMA s) as Hno.
    induction Hno as [|t ts Ht _ IH]; [constructor|].
    simpl. destruct (truthy (strip t)) eqn:Hne; [|exact IH].
    simpl. constructor; [now apply strip_clean | exact IH]. }
  split; [exact Hclean|]. now apply parse_join_clean.
Qed.

Lemma splitlines_aux_line l : forall cur rest,
  one_line l ->
  splitlines_aux cur (l ++ LF :: rest)
  = rev (rev l ++ cur) :: splitlines_aux [] rest.
Proof.
  unfold one_line. induction l as [|c l IH]; intros cur rest Hl.
  - simpl. destruct rest; [|reflexivity]. reflexivity.
  - simpl in Hl. apply orb_false_elim in Hl as [Hc Hl].
    simpl app. simpl splitlines_aux. rewrite Hc.
    rewrite IH by exact Hl. do 2 f_equal.
    now rewrite <- app_assoc.
Qed.

Lemma splitlines_lines ls :
  Forall one_line ls ->
  splitlines (concat (List.map (fun l => l ++ [LF]) ls)) = ls.
Proof.
  unfold splitlines. induction 1 as [|l ls Hl _ IH]; [reflexivity|].
  simpl concat. rewrite <- app_assoc. simpl app.
  rewrite splitlines_aux_line by exact Hl.
  rewrite app_nil_r, rev_involutive. now rewrite IH.
Qed.

(** X4. On a listing of one entry per line, each line ended by a line
    feed, the package count is the number of lines that are not blank:
    empty lines and lines of spaces do not count. *)
Theorem count_lines_listing ls :
  Forall one_line ls ->
  count_lines (concat (List.map (fun l => l ++ [LF]) ls))
  = Z.of_nat (length (List.filter (fun l => negb (forallb is_space l)) ls)).
Proof.
  intros Hls. unfold count_lines. rewrite splitlines_lines by exact Hls.
  do 2 f_equal. apply List.filter_ext. intros l. apply strip_truthy.
Qed.

Lemma parse_tags_join_witness :
  parse_tags (Some (join [COMMA] [str "lab"; str "rack 7"; str "lab"]))
  = [str "lab"; str "rack 7"; str "lab"].
Proof.
  apply parse_tags_join.
  repeat constructor; try discriminate; try reflexivity;
    intros Hin; vm_compute in Hin; intuition discriminate.
Defined.

Lemma count_lines_listing_witness :
  count_lines (concat (List.map (fun l => l ++ [LF])
                         [str "bash"; []; str "  "; str "zlib1g"]))
  = 2.
Proof.
  apply (count_lines_listing [str "bash"; []; str "  "; str "zlib1g"]).
  repeat constructor.
Defined.

(** ** [collect_inventory] as a whole (lines 32-116) *)

Lemma disks_loop_inv h ps : forall acc s ds s',
  disks_loop h ps acc s = (Ok ds, s') ->
  ds = acc ++ omap (readable h) ps
  /\ s' = add_log s (usage_events ps).
Proof.
  induction ps as [|p ps IH]; intros acc s ds s' Hd.
  - simpl in Hd. unfold io_ret in Hd. injection Hd as <- <-.
    now rewrite app_nil_r, add_log_nil.
  - rewrite disks_loop_step in Hd. cbn zeta in Hd.
    simpl omap. unfold readable at 1.
    destruct (disk_usage h (p_mountpoint p)) as [usage|e].
    + apply IH in Hd as [-> ->]. split.
      * now rewrite <- app_assoc.
      * now rewrite add_log_app.
    + destruct (isinstance e PermissionError); [|discriminate].
      apply IH in Hd as [-> ->]. split; [reflexivity|].
      now rewrite add_log_app.
Qed.

Section Assembly.

Context `{PyLib}.

(** X5. When [collect_inventory] returns, it has made its system calls
    in the order of the source (the load averages, one usage query per
    partition in the order of the partition table, then the package
    probes) and has written nothing; the record holds the readable
    disks, the host's identity and memory figures, the UTC time with
    [Z] appended, the tags it was given ([None] read as no tags), the
    load averages when the host has them, and NaN as uptime exactly
    when the boot time cannot be read. *)
Theorem collect_inventory_success h tg s r s' :
  collect_inventory h tg s = (Ok r, s') ->
  exists pkg pkg_evs,
    (forall s0, count_packages h s0 = (Ok pkg, add_log s0 pkg_evs))
    /\ log s' = log s ++ EvGetLoadAvg
                        :: usage_events (disk_partitions h) ++ pkg_evs
    /\ out s' = out s /\ fs s' = fs s
    /\ timestamp r = utcnow_isoformat h ++ str "Z"
    /\ hostname r = gethostname h /\ fqdn r = getfqdn h
    /\ os_system (os r) = uname_system h
    /\ mem_total_bytes (memory r) = vm_total h
    /\ mem_percent_used (memory r) = vm_percent h
    /\ logical_cpus (cpu r) = cpu_count_logical h
    /\ tags r = default [] tg
    /\ disks r = omap (readable h) (disk_partitions h)
    /\ packages r = pkg
    /\ (forall l, os_getloadavg h = Ok l ->
          loadavg_1m (cpu r) = Some l.1.1
          /\ loadavg_5m (cpu r) = Some l.1.2
          /\ loadavg_15m (cpu r) = Some l.2)
    /\ (forall b, boot_time h = Ok b ->
          uptime_seconds r = fsub (time_time h) b)
    /\ (forall e, boot_time h = Raise e -> uptime_seconds r = nan).
Proof.
  intros Hc.
  destruct (collect_inventory_run h tg s) as (pkg & evs & Hrun & Heq).
  rewrite Heq in Hc. exists pkg, evs. split; [exact Hrun|].
  assert (Hload : exists loads,
            load_averages h s = (Ok loads, add_log s [EvGetLoadAvg])
            /\ forall l, os_getloadavg h = Ok l ->
                         loads = (Some l.1.1, Some l.1.2, Some l.2)).
  { destruct (os_getloadavg h) as [l|e] eqn:Hl.
    - exists (Some l.1.1, Some l.1.2, Some l.2).
      split; [apply load_averages_ok; exact Hl|].
      intros l' [= <-]. reflexivity.
    - unfold load_averages in *. io_unfold. simpl in *. rewrite Hl in *.
      simpl in *.
      destruct (isinstance e AttributeError || (isinstance e OSError || false));
        [|discriminate].
      eexists. split; [reflexivity|]. discriminate. }
  destruct Hload as (loads & Hload & Hl). rewrite Hload in Hc.
  destruct (collect_disks h _) as [[ds|e] s2] eqn:Hd; [|discriminate].
  apply disks_loop_inv in Hd as [-> ->].
  destruct (cpu_freq h) as [freq|e]; [|discriminate].
  injection Hc as <- <-. cbn [log out fs add_log timestamp hostname fqdn os
    os_system memory mem_total_bytes mem_percent_used cpu logical_cpus tags
    disks packages loadavg_1m loadavg_5m loadavg_15m uptime_seconds].
  split; [now rewrite <- !app_assoc|].
  do 12 (split; [reflexivity|]).
  split; [|split].
  - intros l0 Hok. rewrite (Hl l0 Hok). auto.
  - intros b Hb. unfold uptime_of. now rewrite Hb.
  - intros e He. unfold uptime_of. now rewrite He.
Qed.

(** X6. A failure of [os.getloadavg] of any other class than
    [AttributeError] and [OSError] is not absorbed: it ends
    [collect_inventory] and [main] at once, before any disk or package
    query and before anything is written. *)
Theorem loadavg_other_failure_fatal h e :
  os_getloadavg h = Raise e ->
  isinstance e AttributeError = false ->
  isinstance e OSError = false ->
  forall s,
    (forall tg, collect_inventory h tg s
                = (Raise e, add_log s [EvGetLoadAvg]))
    /\ (forall args, main h args s = (Raise e, add_log s [EvGetLoadAvg])).
Proof.
  intros Hl Ha Ho s.
  assert (Hload : load_averages h s = (Raise e, add_log s [EvGetLoadAvg])).
  { unfold load_averages. io_unfold. simpl. rewrite Hl. simpl.
    now rewrite Ha, Ho. }
  assert (Hc : forall tg, collect_inventory h tg s
                 = (Raise e, add_log s [EvGetLoadAvg])).
  { intros tg.
    destruct (collect_inventory_run h tg s) as (pkg & evs & _ & Heq).
    now rewrite Heq, Hload. }
  split; [exact Hc|]. intros args. now rewrite main_run, Hc.
Qed.

End Assembly.

Lemma collect_inventory_success_witness :
  exists r s',
    @collect_inventory Sample.lib Sample.no_loadavg None sys0 = (Ok r, s')
    /\ log s' = [EvGetLoadAvg; EvDiskUsage (str "/");
                 EvDiskUsage (str "/secret"); EvDiskUsage (str "/data")]
    /\ out s' = [] /\ tags r = [] /\ packages r = None.
Proof.
  destruct (@collect_inventory Sample.lib Sample.no_loadavg None sys0)
    as [[r|e] s'] eqn:Hc; [|vm_compute in Hc; discriminate].
  exists r, s'. split; [reflexivity|].
  destruct (@collect_inventory_success Sample.lib Sample.no_loadavg None
              sys0 r s' Hc)
    as (pkg & evs & Hrun & Hlog & Hout & _ & _ & _ & _ & _ & _ & _ & _
        & Htags & _ & Hpkg & _).
  specialize (Hrun sys0). vm_compute in Hrun.
  injection Hrun as <- Hevs.
  assert (evs = []) as -> by (destruct evs; [reflexivity | discriminate]).
  rewrite Hlog, Hout, Htags, Hpkg. repeat split.
Defined.

Lemma loadavg_other_failure_witness :
  let h := Sample.host (str "Linux") (Raise ValueError) Sample.usage_denied
             (fun _ => false) (fun _ _ => Raise FileNotFoundError) in
  @main Sample.lib h
    {| arg_format := FormatJson; arg_out := None; arg_pretty := false;
       arg_tags := None |} sys0
  = (Raise ValueError, add_log sys0 [EvGetLoadAvg]).
Proof.
  intros h.
  apply (proj2 (@loadavg_other_failure_fatal Sample.lib h ValueError
                  eq_refl eq_refl eq_refl sys0)).
Defined.

(** ** [write_csv] and [main] (lines 119-161) *)

Section Exporting.

Context `{PyLib}.

Lemma write_csv_row_raises h data out_path s e :
  csv_row data = Raise e -> write_csv h data out_path s = (Raise e, s).
Proof. intros Hrow. unfold write_csv. io_unfold. now rewrite Hrow. Qed.

Lemma open_write_fails h path s e :
  open_w h path = Raise e ->
  open_write h path s = (Raise e, add_log s [EvOpenW path]).
Proof.
  intros Hopen. unfold open_write, syscall, emit. io_unfold.
  now rewrite Hopen.
Qed.

(** X7. [write_csv] computes the whole row before it opens the
    destination: when the row cannot be computed (an infinite uptime,
    a memory size [float] rejects) it raises without opening or
    emptying the output file; and when the file cannot be opened, the
    exception of [open] leaves [write_csv] with nothing written. *)
Theorem write_csv_failures h data out_path s :
  (forall e, csv_row data = Raise e ->
             write_csv h data out_path s = (Raise e, s))
  /\ (forall sg, uptime_seconds data = S754_infinity sg ->
        exists e, write_csv h data out_path s = (Raise e, s))
  /\ (forall path e mem_total uptime,
        out_path = Some path -> path <> [] ->
        human_bytes (mem_total_bytes (memory data)) = Ok mem_total ->
        uptime_field (uptime_seconds data) = Ok uptime ->
        open_w h path = Raise e ->
        write_csv h data out_path s = (Raise e, add_log s [EvOpenW path])).
Proof.
  split; [intros e; apply write_csv_row_raises|]. split.
  - intros sg Hinf.
    assert (Hrow : exists e, csv_row data = Raise e).
    { unfold csv_row.
      destruct (human_bytes _) as [mem_total|e]; [|eauto].
      rewrite Hinf. exists OverflowError. now destruct sg. }
    destruct Hrow as [e Hrow]. exists e. now apply write_csv_row_raises.
  - intros path e mem_total uptime -> Hne Hmem Hup Hopen.
    unfold write_csv. rewrite (csv_row_ok data mem_total uptime Hmem Hup).
    unfold mbind, io_mbind, io_bind, io_lift.
    destruct path as [|c path]; [congruence|]. simpl open_destination.
    now rewrite (open_write_fails h (c :: path) s e Hopen).
Qed.


(** X15. When a value of the row holds a character the encoding of
    the stream lacks, [write_csv] raises [UnicodeEncodeError] (a
    [ValueError]) after the header went out: the destination, emptied
    if it is a file, holds the header line and no row. *)
Theorem write_csv_unencodable h data out_path s mem_total uptime :
  human_bytes (mem_total_bytes (memory data)) = Ok mem_total ->
  uptime_field (uptime_seconds data) = Ok uptime ->
  (forall path, out_path = Some path -> path <> [] ->
                open_w h path = Ok tt) ->
  ~ Forall (encodable_text h) (csv_free_text data) ->
  let header := Csv.render_record csv_fieldnames in
  write_csv h data out_path s
  = (Raise UnicodeEncodeError, delivered h s out_path header)
  /\ isinstance UnicodeEncodeError ValueError = true
  /\ Csv.read header = Ok [csv_fieldnames]
  /\ (os_linesep h = NlLF -> translate_newlines h header = header).
Proof.
  intros Hmem Hup Hopen Henc header. split; [|split; [reflexivity|]].
  - rewrite (write_csv_steps h data out_path s mem_total uptime Hmem Hup Hopen).
    destruct (forallb _ (csv_values data mem_total uptime)) eqn:Hall;
      [|reflexivity].
    exfalso. apply Henc. apply forallb_encodable_text in Hall.
    rewrite List.Forall_forall in Hall. apply List.Forall_forall.
    intros v Hv. apply Hall. unfold csv_free_text in Hv. unfold csv_values.
    simpl in Hv. simpl. intuition.
  - split; [vm_compute; reflexivity | apply translate_newlines_lf].
Qed.

Lemma collect_inventory_record h tg s r s' :
  collect_inventory h tg s = (Ok r, s') ->
  hostname r = gethostname h
  /\ mem_total_bytes (memory r) = vm_total h
  /\ uptime_seconds r = uptime_of h
  /\ disks r = omap (readable h) (disk_partitions h)
  /\ length (network r) = length (net_if_addrs h)
  /\ tags r = default [] tg.
Proof.
  intros Hc.
  destruct (collect_inventory_run h tg s) as (pkg & evs & _ & Heq).
  rewrite Heq in Hc.
  destruct (load_averages h s) as [[loads|e] s1]; [|discriminate].
  destruct (collect_disks h s1) as [[ds|e] s2] eqn:Hd; [|discriminate].
  apply disks_loop_inv in Hd as [-> _].
  destruct (cpu_freq h) as [freq|e]; [|discriminate].
  injection Hc as <- _. cbn. rewrite length_map. auto 7.
Qed.

(** X9. [main] in CSV mode, end to end: on a host whose memory size
    [float] converts, whose uptime is not infinite and whose
    [os.linesep] is the line feed, for a record whose text the
    encoding of the stream has, and with a destination that opens,
    the export arrives as written and reads back as the header and
    one row that carries the host name, the memory size as
    [human_bytes] renders it, the number of readable disks, the number
    of interfaces and, as one last field, the parsed tags joined by
    commas; the uptime field is 0 when the boot time cannot be read. *)
Theorem main_csv_end_to_end h args s r s1 :
  arg_format args = FormatCsv ->
  collect_inventory h (Some (parse_tags (arg_tags args))) s = (Ok r, s1) ->
  0 <= vm_total h < 2 ^ 1024 - 2 ^ 970 ->
  (forall sg, uptime_of h <> S754_infinity sg) ->
  (forall path, arg_out args = Some path -> path <> [] ->
                open_w h path = Ok tt) ->
  Forall (encodable_text h) (csv_free_text r) ->
  os_linesep h = NlLF ->
  exists mem_total uptime header row,
    human_bytes (vm_total h) = Ok mem_total
    /\ main h args s
       = (Ok tt, delivered h s1 (arg_out args) (csv_text r mem_total uptime))
    /\ translate_newlines h (csv_text r mem_total uptime)
       = csv_text r mem_total uptime
    /\ Csv.read (csv_text r mem_total uptime) = Ok [header; row]
    /\ header = csv_fieldnames
    /\ row !! 1%nat = Some (gethostname h)
    /\ row !! 6%nat = Some mem_total
    /\ row !! 9%nat
       = Some (str_of_int
                 (Z.of_nat (length (omap (readable h) (disk_partitions h)))))
    /\ row !! 10%nat
       = Some (str_of_int (Z.of_nat (length (net_if_addrs h))))
    /\ row !! 11%nat = Some (join [COMMA] (parse_tags (arg_tags args)))
    /\ (forall e, boot_time h = Raise e -> row !! 8%nat = Some (str "0")).
Proof.
  intros Hfmt Hc Hmem Hup Hopen Henc Hlf.
  destruct (collect_inventory_record _ _ _ _ _ Hc)
    as (Hhost & Htotal & Huptime & Hdisks & Hnet & Htags).
  rewrite <- Htotal in Hmem. rewrite <- Huptime in Hup.
  destruct (human_bytes_shape _ Hmem)
    as (f & st & sym & _ & _ & _ & _ & _ & Hhb & _).
  destruct (uptime_field_ok _ Hup) as [uptime Huf].
  set (mem_total := format_2f st.1 ++ str " " ++ sym) in *.
  exists mem_total, uptime, csv_fieldnames, (csv_values r mem_total uptime).
  split; [now rewrite <- Htotal|]. split.
  { rewrite main_run, Hc, Hfmt. apply write_csv_run; try assumption.
    now apply csv_values_encodable. }
  split; [now apply translate_newlines_lf|].
  split; [apply read_csv_text|].
  split; [reflexivity|].
  unfold csv_values. cbn [lookup list_lookup].
  rewrite Hhost, Hdisks, Hnet, Htags.
  do 5 (split; [reflexivity|]).
  intros e He. unfold uptime_of in Huptime. rewrite He in Huptime.
  rewrite Huptime in Huf. injection Huf as <-. reflexivity.
Qed.

End Exporting.

Lemma write_csv_failures_witness :
  @write_csv Sample.lib
    (Sample.host (str "Linux") (Raise AttributeError) Sample.usage_denied
       (fun _ => false) (fun _ _ => Raise TimeoutExpired))
    (Sample.record [] (S754_infinity true)) (Some (str "inv.csv")) sys0
  = (Raise OverflowError, sys0).
Proof.
  apply (proj1 (@write_csv_failures Sample.lib _ _ _ _)). reflexivity.
Defined.


Lemma write_csv_unencodable_witness :
  let s := {| log := []; out := [];
              fs := <[str "inv.csv" := str "old contents"]> ∅ |} in
  exists s',
    @write_csv Sample.lib Sample.linux (Sample.record [[56575]%N] nan)
      (Some (str "inv.csv")) s = (Raise UnicodeEncodeError, s')
    /\ fs s' !! str "inv.csv" = Some (Csv.render_record csv_fieldnames).
Proof.
  intros s.
  assert (Henc : ~ Forall (encodable_text Sample.linux)
                     (@csv_free_text Sample.lib
                        (Sample.record [[56575]%N] nan))).
  { intros Hall. rewrite List.Forall_forall in Hall.
    specialize (Hall [56575%N]). unfold encodable_text in Hall.
    assert (Hf : forallb (encodable Sample.linux) [56575%N] = false)
      by reflexivity.
    rewrite Hall in Hf; [discriminate|]. vm_compute. tauto. }
  destruct (@write_csv_unencodable Sample.lib Sample.linux
              (Sample.record [[56575]%N] nan) (Some (str "inv.csv")) s
              (str "16.00 GB") 0 eq_refl eq_refl (fun _ _ _ => eq_refl) Henc)
    as (Hw & _ & _ & Hlf).
  eexists. split; [exact Hw|].
  unfold delivered. cbn [fs]. rewrite (Hlf eq_refl).
  apply lookup_insert_eq.
Defined.

Lemma main_csv_end_to_end_witness :
  let args := {| arg_format := FormatCsv; arg_out := None;
                 arg_pretty := false; arg_tags := Some (str "a,b") |} in
  exists mem_total uptime (header row : list pystr) s1,
    @main Sample.lib Sample.linux args sys0
    = (Ok tt, delivered Sample.linux s1 None
                (@csv_text Sample.lib
                   (match @collect_inventory Sample.lib Sample.linux
                            (Some [str "a"; str "b"]) sys0 with
                    | (Ok r, _) => r
                    | _ => Sample.record [] nan
                    end) mem_total uptime))
    /\ header = csv_fieldnames
    /\ row !! 11%nat = Some (str "a,b").
Proof.
  intros args.
  destruct (@collect_inventory Sample.lib Sample.linux
              (Some [str "a"; str "b"]) sys0) as [[r|e] s1] eqn:Hc;
    [|vm_compute in Hc; discriminate].
  assert (Hmem : 0 <= vm_total Sample.linux < 2 ^ 1024 - 2 ^ 970).
  { split; [intros Hx; vm_compute in Hx; discriminate Hx|].
    vm_compute. reflexivity. }
  assert (Hup : forall sg, uptime_of Sample.linux <> S754_infinity sg).
  { intros sg Hx. vm_compute in Hx. discriminate Hx. }
  assert (Henc : Forall (encodable_text Sample.linux)
                   (@csv_free_text Sample.lib r)).
  { vm_compute in Hc. injection Hc as <- _. repeat constructor. }
  destruct (@main_csv_end_to_end Sample.lib Sample.linux args sys0 r s1
              eq_refl Hc Hmem Hup (fun _ _ _ => eq_refl) Henc eq_refl)
    as (mem_total & uptime & header & row & _ & Hm & _ & _ & Hh & _ & _ & _
        & _ & Ht & _).
  exists mem_total, uptime, header, row, s1. auto.
Defined.

(** ** The lines of the CSV text *)

Lemma count_char_app c s t :
  count_char c (s ++ t) = (count_char c s + count_char c t)%nat.
Proof. unfold count_char. now rewrite List.filter_app, length_app. Qed.

Lemma count_char_escape c f :
  c <> DQUOTE -> count_char c (Csv.escape f) = count_char c f.
Proof.
  intros Hc. assert (Hq : (c =? DQUOTE)%N = false) by now apply N.eqb_neq.
  induction f as [|x f IH]; [reflexivity|]. simpl Csv.escape.
  destruct (N.eqb_spec x DQUOTE) as [->|Hx].
  - unfold count_char in *. simpl. rewrite Hq. exact IH.
  - unfold count_char in *. simpl. destruct (c =? x)%N; simpl; now rewrite IH.
Qed.

Lemma count_char_render_field c f :
  c <> DQUOTE -> count_char c (Csv.render_field f) = count_char c f.
Proof.
  intros Hc. assert (Hq : (c =? DQUOTE)%N = false) by now apply N.eqb_neq.
  unfold Csv.render_field. destruct (existsb Csv.needs_quote f); [|reflexivity].
  change (DQUOTE :: Csv.escape f ++ [DQUOTE])
    with ([DQUOTE] ++ Csv.escape f ++ [DQUOTE]).
  rewrite !count_char_app, count_char_escape by exact Hc.
  unfold count_char at 1 3. simpl. rewrite Hq. simpl. lia.
Qed.

Lemma count_char_join_render fs :
  count_char LF (join [COMMA] (List.map Csv.render_field fs))
  = list_sum (List.map (count_char LF) fs).
Proof.
  induction fs as [|f fs IH]; [reflexivity|].
  destruct fs as [|f' fs].
  - simpl. rewrite count_char_render_field by discriminate. lia.
  - change (join [COMMA] (List.map Csv.render_field (f :: f' :: fs)))
      with (Csv.render_field f ++ [COMMA]
            ++ join [COMMA] (List.map Csv.render_field (f' :: fs))).
    rewrite !count_char_app, IH, count_char_render_field by discriminate.
    reflexivity.
Qed.

Lemma count_char_render_record fs :
  count_char LF (Csv.render_record fs)
  = S (list_sum (List.map (count_char LF) fs)).
Proof.
  pose proof (count_char_join_render fs) as Hj.
  unfold Csv.render_record.
  destruct fs as [|f fs]; [reflexivity|].
  destruct (join [COMMA] (List.map Csv.render_field (f :: fs))) as [|c body].
  - rewrite <- Hj. reflexivity.
  - rewrite count_char_app, Hj. unfold count_char at 2. simpl. lia.
Qed.

(** X10. Where [os.linesep] is the line feed, a row the encoding has
    arrives as written, with two line feeds that end the header and
    the row, plus the line feeds inside the values: two physical lines
    exactly when no value (a tag, say) holds a line feed. A value
    that holds one is written between quotes, and the text still reads
    back as the header and one row with that value whole. *)
Theorem csv_text_line_feeds `{PyLib} h data out_path s mem_total uptime :
  human_bytes (mem_total_bytes (memory data)) = Ok mem_total ->
  uptime_field (uptime_seconds data) = Ok uptime ->
  (forall path, out_path = Some path -> path <> [] ->
                open_w h path = Ok tt) ->
  Forall (encodable_text h) (csv_values data mem_total uptime) ->
  os_linesep h = NlLF ->
  let text := csv_text data mem_total uptime in
  write_csv h data out_path s = (Ok tt, delivered h s out_path text)
  /\ translate_newlines h text = text
  /\ count_char LF text
     = (2 + list_sum (List.map (count_char LF)
                        (csv_values data mem_total uptime)))%nat
  /\ (Forall (fun v => ~ In LF v) (csv_values data mem_total uptime) ->
      count_char LF text = 2%nat)
  /\ (forall v, In LF v ->
        Csv.render_field v = DQUOTE :: Csv.escape v ++ [DQUOTE])
  /\ Csv.read text = Ok [csv_fieldnames; csv_values data mem_total uptime].
Proof.
  intros Hmem Hup Hopen Henc Hlf text. split; [now apply write_csv_run|].
  split; [now apply translate_newlines_lf|].
  assert (Hcount : count_char LF text
            = (2 + list_sum (List.map (count_char LF)
                               (csv_values data mem_total uptime)))%nat).
  { unfold text, csv_text.
    rewrite count_char_app, !count_char_render_record.
    change (list_sum (List.map (count_char LF) csv_fieldnames)) with 0%nat.
    lia. }
  split; [exact Hcount|]. split; [|split].
  - intros Hno. rewrite Hcount.
    assert (Hzero : forall vs, Forall (fun v => ~ In LF v) vs ->
              list_sum (List.map (count_char LF) vs) = 0%nat).
    { induction 1 as [|v vs Hv _ IH]; [reflexivity|]. simpl. rewrite IH.
      assert (count_char LF v = 0%nat); [|lia].
      unfold count_char. clear -Hv. induction v as [|x v IHv]; [reflexivity|].
      cbn [List.filter]. destruct (N.eqb_spec LF x) as [<-|Hx].
      - destruct Hv. now left.
      - apply IHv. intros Hin. apply Hv. now right. }
    now rewrite Hzero.
  - intros v Hv. unfold Csv.render_field.
    replace (existsb Csv.needs_quote v) with true; [reflexivity|].
    symmetry. apply existsb_exists. exists LF. split; [exact Hv | reflexivity].
  - apply read_csv_text.
Qed.

Lemma csv_text_line_feeds_witness :
  let data := Sample.record [str "lab"; [97; 10; 98]%N] nan in
  count_char LF (@csv_text Sample.lib data (str "16.00 GB") 0) = 3%nat
  /\ Csv.read (@csv_text Sample.lib data (str "16.00 GB") 0)
     = Ok [csv_fieldnames; @csv_values Sample.lib data (str "16.00 GB") 0].
Proof.
  intros data.
  assert (Henc : Forall (encodable_text Sample.linux)
                   (@csv_values Sample.lib data (str "16.00 GB") 0)).
  { repeat constructor. }
  destruct (@csv_text_line_feeds Sample.lib Sample.linux data None sys0
              (str "16.00 GB") 0 eq_refl eq_refl (fun _ _ _ => eq_refl)
              Henc eq_refl)
    as (_ & _ & Hcount & _ & _ & Hread).
  split; [exact Hcount | exact Hread].
Defined.

(** ** The export on a CR LF platform *)

Lemma count_char_in c s : count_char c s = 0%nat <-> ~ In c s.
Proof.
  unfold count_char. induction s as [|x s IH]; simpl; [tauto|].
  destruct (N.eqb_spec c x) as [->|Hx]; simpl.
  - split; [discriminate | intros Hn; destruct Hn; now left].
  - rewrite IH. split; [intros Hn [Hin|Hin]; [congruence | tauto] | tauto].
Qed.

(** A text without line feeds goes through a stream unchanged. *)
Lemma translate_newlines_plain h t :
  ~ In LF t -> translate_newlines h t = t.
Proof.
  unfold translate_newlines.
  induction t as [|c t IH]; intros Hno; [reflexivity|]. cbn [flat_map].
  rewrite IH by (intros Hin; apply Hno; now right).
  destruct (N.eqb_spec c LF) as [->|_]; [|reflexivity].
  destruct Hno. now left.
Qed.

(** The line of a row of several fields, and what a CR LF stream makes
    of it. *)
Lemma render_record_crlf h fs :
  os_linesep h = NlCRLF ->
  (1 < length fs)%nat ->
  Forall (fun v => ~ In LF v) fs ->
  exists c body,
    join [COMMA] (List.map Csv.render_field fs) = c :: body
    /\ translate_newlines h (Csv.render_record fs)
       = (c :: body) ++ [CR; CR; LF].
Proof.
  intros Hcrlf Hlen Hno.
  destruct (join [COMMA] (List.map Csv.render_field fs)) as [|c body] eqn:Hbody.
  { apply CsvFacts.join_render_nil in Hbody.
    - subst fs. simpl in Hlen. lia.
    - intros ->. simpl in Hlen. lia. }
  exists c, body. split; [reflexivity|].
  assert (Hrec : Csv.render_record fs = (c :: body) ++ [CR; LF]).
  { unfold Csv.render_record. rewrite Hbody. now destruct fs. }
  rewrite Hrec, translate_newlines_app.
  rewrite translate_newlines_plain.
  - unfold translate_newlines. rewrite Hcrlf. reflexivity.
  - apply count_char_in. rewrite <- Hbody, count_char_join_render.
    clear -Hno. induction Hno as [|v vs Hv _ IH]; [reflexivity|].
    simpl. rewrite IH. apply count_char_in in Hv. now rewrite Hv.
Qed.

(** X17. Where [os.linesep] is CR LF, the stream of line 135 (opened
    without [newline='']) turns the line feed of the writer's CR LF
    into CR LF: each of the two lines arrives with CR CR LF at its
    end, and the export reads back as four rows, the header and the
    data row each followed by an empty row. (For values without line
    feeds, which the encoding has.) *)
Theorem csv_crlf_blank_rows `{PyLib} h data out_path s mem_total uptime :
  human_bytes (mem_total_bytes (memory data)) = Ok mem_total ->
  uptime_field (uptime_seconds data) = Ok uptime ->
  (forall path, out_path = Some path -> path <> [] ->
                open_w h path = Ok tt) ->
  Forall (encodable_text h) (csv_values data mem_total uptime) ->
  Forall (fun v => ~ In LF v) (csv_values data mem_total uptime) ->
  os_linesep h = NlCRLF ->
  let values := csv_values data mem_total uptime in
  let arrived := translate_newlines h (csv_text data mem_total uptime) in
  write_csv h data out_path s
  = (Ok tt, delivered h s out_path (csv_text data mem_total uptime))
  /\ arrived
     = join [COMMA] (List.map Csv.render_field csv_fieldnames)
       ++ [CR; CR; LF]
       ++ join [COMMA] (List.map Csv.render_field values)
       ++ [CR; CR; LF]
  /\ Csv.read arrived = Ok [csv_fieldnames; []; values; []].
Proof.
  intros Hmem Hup Hopen Henc Hno Hcrlf values arrived.
  split; [now apply write_csv_run|].
  assert (Hhead : Forall (fun v => ~ In LF v) csv_fieldnames).
  { repeat constructor; intros Hin; vm_compute in Hin; intuition discriminate. }
  destruct (render_record_crlf h csv_fieldnames Hcrlf) as (c1 & b1 & Hj1 & Ht1);
    [simpl; lia | exact Hhead |].
  destruct (render_record_crlf h values Hcrlf) as (c2 & b2 & Hj2 & Ht2);
    [simpl; lia | exact Hno |].
  assert (Harr : arrived
            = (c1 :: b1) ++ [CR; CR; LF] ++ (c2 :: b2) ++ [CR; CR; LF]).
  { unfold arrived, csv_text. rewrite translate_newlines_app.
    fold values. rewrite Ht1, Ht2. now rewrite <- app_assoc. }
  split; [now rewrite Hj1, Hj2|].
  rewrite Harr. unfold Csv.read, Csv.reader0.
  change ([CR; CR; LF] ++ (c2 :: b2) ++ [CR; CR; LF])
    with (CR :: CR :: LF :: (c2 :: b2) ++ CR :: CR :: LF :: []).
  rewrite (CsvFacts.parse_record_crcrlf csv_fieldnames _ _ _ _ Hj1).
  rewrite (CsvFacts.parse_record_crcrlf values _ _ _ _ Hj2).
  reflexivity.
Qed.

Lemma csv_crlf_blank_rows_witness :
  let data := Sample.record [str "lab"] nan in
  exists s',
    @write_csv Sample.lib Sample.windows data (Some (str "inv.csv")) sys0
    = (Ok tt, s')
    /\ (exists arrived,
          fs s' !! str "inv.csv" = Some arrived
          /\ Csv.read arrived
             = Ok [csv_fieldnames; [];
                   @csv_values Sample.lib data (str "16.00 GB") 0; []]).
Proof.
  intros data.
  assert (Henc : Forall (encodable_text Sample.windows)
                   (@csv_values Sample.lib data (str "16.00 GB") 0)).
  { repeat constructor. }
  assert (Hno : Forall (fun v => ~ In LF v)
                  (@csv_values Sample.lib data (str "16.00 GB") 0)).
  { repeat constructor; intros Hin; vm_compute in Hin; intuition discriminate. }
  destruct (@csv_crlf_blank_rows Sample.lib Sample.windows data
              (Some (str "inv.csv")) sys0 (str "16.00 GB") 0
              eq_refl eq_refl (fun _ _ _ => eq_refl) Henc Hno eq_refl)
    as (Hw & _ & Hread).
  eexists. split; [exact Hw|].
  eexists. split; [apply lookup_insert_eq | exact Hread].
Defined.

(** ** The value [human_bytes] prints (lines 22-29) *)

Section HumanBytesValue.

Local Open Scope Z_scope.

(** Below [2^53] the conversion to a double is exact. *)
Lemma float_of_int_exact n :
  0 < n < 2 ^ 53 ->
  exists m e,
    Z.pos (digits2_pos m) = 53
    /\ e = Z.log2 n + 1 - 53 /\ e <= 0
    /\ Z.pos m = n * 2 ^ (- e)
    /\ float_of_int n = Ok (S754_finite false m e).
Proof.
  intros Hn. destruct n as [|n|n]; try lia.
  destruct (float_of_pos n) as (m & e & Hd & _ & Hres & Hsmall & _).
  pose proof (digits2_pos_bounds n) as Hb.
  assert (HD : Z.pos (digits2_pos n) <= 53).
  { destruct (Z_le_gt_dec (Z.pos (digits2_pos n)) 53) as [|Hgt]; [assumption|].
    exfalso.
    assert (2 ^ 53 <= 2 ^ (Z.pos (digits2_pos n) - 1))
      by (apply Z.pow_le_mono_r; lia).
    lia. }
  destruct (Hsmall HD) as [He Hm].
  exists m, e. split; [exact Hd|].
  rewrite <- digits2_pos_log2. split; [exact He|]. split; [lia|].
  split; [exact Hm|].
  unfold float_of_int. rewrite Hres.
  replace (e <=? 971) with true; [reflexivity|].
  symmetry. apply Z.leb_le. lia.
Qed.

Lemma hb_cond_stop m e i :
  Z.pos (digits2_pos m) = 53 -> e < -42 \/ 4 <= i ->
  hb_cond (S754_finite false m e, i) = false.
Proof.
  intros Hd Hstop. unfold hb_cond. cbn [fst snd].
  rewrite fge_1024 by exact Hd.
  change (Z.of_nat (length symbols) - 1) with 4.
  destruct Hstop as [He|Hi].
  - replace (-42 <=? e) with false; [reflexivity|].
    symmetry. apply Z.leb_gt. exact He.
  - replace (i <? 4) with false; [apply andb_false_r|].
    symmetry. apply Z.ltb_ge. exact Hi.
Qed.

(** The loop divides [j] times when the double stays at or above 1024
    for [j - 1] divisions and then falls below it, or the index reaches
    4. *)
Lemma hb_run m (Hd : Z.pos (digits2_pos m) = 53) (j : nat) :
  forall e i fuel,
    (j <= fuel)%nat -> 0 <= i -> i + Z.of_nat j <= 4 ->
    -1060 + 10 * Z.of_nat j <= e <= 971 ->
    (0 < j)%nat -> -52 + 10 * Z.of_nat j <= e ->
    e - 10 * Z.of_nat j < -42 \/ i + Z.of_nat j = 4 ->
    while_loop fuel hb_cond hb_body (S754_finite false m e, i)
    = Ok (S754_finite false m (e - 10 * Z.of_nat j), i + Z.of_nat j).
Proof.
  induction j as [|j IH]; intros e i fuel Hfuel Hi Hij He Hpos Hge Hstop;
    [lia|].
  destruct fuel as [|fuel]; [lia|].
  rewrite while_loop_S, hb_cond_large by (auto; lia).
  rewrite hb_body_ok. cbn [fst snd].
  rewrite SFdiv_1024 by (auto; lia).
  destruct j as [|j].
  - (* the last division *)
    replace (e - 10 * Z.of_nat 1) with (e - 10) by lia.
    replace (i + Z.of_nat 1) with (i + 1) by lia.
    destruct fuel as [|fuel]; [reflexivity|].
    rewrite while_loop_S, hb_cond_stop by (auto; lia). reflexivity.
  - rewrite IH by lia. do 2 f_equal; [f_equal|]; lia.
Qed.

Lemma hb_run_none m e i fuel :
  Z.pos (digits2_pos m) = 53 -> e < -42 ->
  while_loop fuel hb_cond hb_body (S754_finite false m e, i)
  = Ok (S754_finite false m e, i).
Proof.
  intros Hd He. destruct fuel as [|fuel]; [reflexivity|].
  rewrite while_loop_S, hb_cond_stop by auto. reflexivity.
Qed.

(** The hundredths of the quotient, however the double is scaled. *)
Lemma centi_nearest m p n A B :
  Z.pos m = n * A -> 2 ^ Z.pos p = A * B -> 0 < A -> 0 < B ->
  nearest_even (100 * n) B (centi m (Z.neg p)).
Proof.
  intros Hm Hp HA HB. unfold centi, nearest_even.
  rewrite Hm, Hp.
  replace (n * A * 100) with (100 * n * A) by ring.
  replace (A * B) with (B * A) by ring.
  rewrite Z.div_mul_cancel_r by lia.
  rewrite Z.mul_mod_distr_r by lia.
  pose proof (Z.div_mod (100 * n) B) as Hdm.
  pose proof (Z.mod_pos_bound (100 * n) B HB) as Hmb.
  set (q := 100 * n / B) in *. set (r := (100 * n) mod B) in *.
  assert (Heq : 100 * n = B * q + r) by lia. clear Hdm.
  destruct (Z.compare_spec (2 * (r * A)) (B * A)) as [Hc|Hc|Hc].
  - assert (Hr : 2 * r = B) by nia.
    destruct (Z.even q) eqn:Hev.
    + split; [|auto]. replace (100 * n - q * B) with r by lia. lia.
    + split.
      * replace (100 * n - (q + 1) * B) with (r - B) by lia. lia.
      * intros _. replace (q + 1) with (Z.succ q) by lia.
        rewrite Z.even_succ, <- Z.negb_even, Hev. reflexivity.
  - assert (Hr : 2 * r < B) by nia.
    replace (100 * n - q * B) with r by lia. split; lia.
  - assert (Hr : B < 2 * r) by nia.
    replace (100 * n - (q + 1) * B) with (r - B) by lia. split; lia.
Qed.

End HumanBytesValue.

(** X11. Below [2^53] bytes [human_bytes] is exact: for [n] between
    [1024^k] and [1024^(k+1)] ([k] from 0 to 3; for [k = 4] anything
    from [1024^4] on) it prints [n / 1024^k] rounded to the nearest
    hundredth, halves to the even one, followed by the [k]-th symbol.
    In particular a size below 1024 is printed as itself with [.00 B]. *)
Theorem human_bytes_value k n :
  0 <= k <= 4 ->
  1024 ^ k <= n ->
  (k < 4 -> n < 1024 ^ (k + 1)) ->
  n < 2 ^ 53 ->
  exists c sym,
    symbols !! Z.to_nat k = Some sym
    /\ human_bytes n = Ok (render_centi c ++ str " " ++ sym)
    /\ nearest_even (100 * n) (1024 ^ k) c
    /\ (k = 0 -> c = 100 * n).
Proof.
  intros Hk Hlo Hhi H53.
  assert (Hpow : forall j, 0 <= j -> 1024 ^ j = 2 ^ (10 * j)).
  { intros j Hj. change 1024 with (2 ^ 10). now rewrite <- Z.pow_mul_r by lia. }
  rewrite Hpow in Hlo by lia.
  assert (Hn0 : 0 < n).
  { assert (0 < 2 ^ (10 * k)) by (apply Z.pow_pos_nonneg; lia). lia. }
  destruct (float_of_int_exact n) as (m & e & Hd & He & He0 & Hm & Hf); [lia|].
  pose proof (Z.log2_spec n Hn0) as [HL1 HL2].
  set (L := Z.log2 n) in *.
  assert (HL0 : 0 <= L) by apply Z.log2_nonneg.
  assert (HLlo : 10 * k <= L).
  { destruct (Z_le_gt_dec (10 * k) L) as [|Hgt]; [assumption|exfalso].
    assert (2 ^ Z.succ L <= 2 ^ (10 * k)) by (apply Z.pow_le_mono_r; lia).
    lia. }
  assert (HLhi : k < 4 -> L < 10 * k + 10).
  { intros Hk4. specialize (Hhi Hk4). rewrite Hpow in Hhi by lia.
    destruct (Z_lt_le_dec L (10 * k + 10)) as [|Hge]; [assumption|exfalso].
    assert (2 ^ (10 * (k + 1)) <= 2 ^ L) by (apply Z.pow_le_mono_r; lia).
    lia. }
  assert (HL53 : L < 53).
  { destruct (Z_lt_le_dec L 53) as [|Hge]; [assumption|exfalso].
    assert (2 ^ 53 <= 2 ^ L) by (apply Z.pow_le_mono_r; lia). lia. }
  destruct (getitem_symbols k Hk) as (sym & Hg & Hs).
  assert (Hloop : hb_loop 4 (S754_finite false m e)
                  = Ok (S754_finite false m (e - 10 * k), k)).
  { unfold hb_loop. destruct (Z.eq_dec k 0) as [->|Hk0].
    - rewrite hb_run_none by (auto; lia). do 2 f_equal. f_equal. lia.
    - rewrite (hb_run m Hd (Z.to_nat k)) by lia.
      rewrite Z2Nat.id by lia. reflexivity. }
  assert (Hneg : e - 10 * k < 0) by lia.
  destruct (e - 10 * k) as [|p|p] eqn:Hep; try lia.
  exists (centi m (Z.neg p)), sym. split; [exact Hs|]. split.
  { unfold human_bytes, human_bytes_fuel. rewrite Hf.
    change (mbind ?g (Ok ?x)) with (g x). cbv beta.
    change (length symbols - 1)%nat with 4%nat. rewrite Hloop.
    change (mbind ?g (Ok ?x)) with (g x). cbv beta.
    unfold hb_finish. cbn [fst snd]. rewrite Hg.
    change (mbind ?g (Ok ?x)) with (g x). cbv beta.
    reflexivity. }
  assert (Hnear : nearest_even (100 * n) (1024 ^ k) (centi m (Z.neg p))).
  { apply (centi_nearest m p n (2 ^ (- e)) (1024 ^ k)).
    - exact Hm.
    - rewrite Hpow by lia. rewrite <- Z.pow_add_r by lia. f_equal. lia.
    - apply Z.pow_pos_nonneg; lia.
    - apply Z.pow_pos_nonneg; lia. }
  split; [exact Hnear|].
  intros ->. destruct Hnear as [Hnear _]. change (1024 ^ 0) with 1 in Hnear.
  lia.
Qed.

Lemma human_bytes_value_witness :
  exists c,
    human_bytes 1500 = Ok (render_centi c ++ str " " ++ str "KB")
    /\ nearest_even (100 * 1500) (1024 ^ 1) c.
Proof.
  assert (Hk : 0 <= 1 <= 4) by lia.
  assert (Hlo : 1024 ^ 1 <= 1500) by (change (1024 ^ 1) with 1024; lia).
  assert (Hhi : 1 < 4 -> 1500 < 1024 ^ (1 + 1))
    by (intros _; change (1024 ^ (1 + 1)) with 1048576; lia).
  assert (H53 : 1500 < 2 ^ 53) by (change (2 ^ 53) with 9007199254740992; lia).
  destruct (human_bytes_value 1 1500 Hk Hlo Hhi H53)
    as (c & sym & Hs & Hhb & Hnear & _).
  injection Hs as <-. exists c. auto.
Defined.

(** ** [main]: what makes it fail, and what is written then *)

Lemma disks_loop_raise_inv h ps : forall acc s e s',
  disks_loop h ps acc s = (Raise e, s') ->
  exists ps1 p ps2,
    ps = ps1 ++ p :: ps2
    /\ disk_usage h (p_mountpoint p) = Raise e
    /\ isinstance e PermissionError = false
    /\ s' = add_log s (usage_events (ps1 ++ [p])).
Proof.
  induction ps as [|p ps IH]; intros acc s e s' Hd.
  - simpl in Hd. discriminate.
  - rewrite disks_loop_step in Hd. cbn zeta in Hd.
    destruct (disk_usage h (p_mountpoint p)) as [usage|e0] eqn:Hu.
    + apply IH in Hd as (ps1 & q & ps2 & -> & Hq & He & ->).
      exists (p :: ps1), q, ps2. rewrite add_log_app. auto.
    + destruct (isinstance e0 PermissionError) eqn:Hperm.
      * apply IH in Hd as (ps1 & q & ps2 & -> & Hq & He & ->).
        exists (p :: ps1), q, ps2. rewrite add_log_app. auto.
      * injection Hd as <- <-. exists [], p, ps. auto.
Qed.

Lemma load_averages_inv h s r s1 :
  load_averages h s = (r, s1) ->
  s1 = add_log s [EvGetLoadAvg]
  /\ forall e, r = Raise e ->
       os_getloadavg h = Raise e
       /\ isinstance e AttributeError = false
       /\ isinstance e OSError = false.
Proof.
  unfold load_averages. io_unfold. simpl.
  destruct (os_getloadavg h) as [l|e0]; simpl.
  - intros [= <- <-]. split; [reflexivity | discriminate].
  - destruct (isinstance e0 AttributeError) eqn:Ha; simpl.
    + intros [= <- <-]. split; [reflexivity | discriminate].
    + destruct (isinstance e0 OSError) eqn:Ho; simpl.
      * intros [= <- <-]. split; [reflexivity | discriminate].
      * intros [= <- <-]. split; [reflexivity|]. intros e [= <-]. auto.
Qed.

Section MainFailures.

Context `{PyLib}.

(** Collection makes system calls and writes nothing. *)
Lemma collect_inventory_log h tg s r s1 :
  collect_inventory h tg s = (r, s1) -> exists evs, s1 = add_log s evs.
Proof.
  intros Hc.
  destruct (collect_inventory_run h tg s) as (pkg & evs & _ & Heq).
  rewrite Heq in Hc.
  destruct (load_averages h s) as [r0 s0] eqn:Hload.
  apply load_averages_inv in Hload as [-> _].
  assert (Hdisks : forall s2 rd sd, collect_disks h s2 = (rd, sd) ->
            exists evs', sd = add_log s2 evs').
  { intros s2 [ds|e] sd Hd.
    - apply disks_loop_inv in Hd as [_ ->]. eauto.
    - apply disks_loop_raise_inv in Hd as (ps1 & p & ps2 & _ & _ & _ & ->).
      eauto. }
  destruct r0 as [loads|e0].
  - destruct (collect_disks h _) as [rd sd] eqn:Hd.
    apply Hdisks in Hd as [evs' ->].
    destruct rd as [ds|e1].
    + destruct (cpu_freq h) as [freq|e2]; injection Hc as _ <-;
        rewrite !add_log_app; eauto.
    + injection Hc as _ <-. rewrite add_log_app. eauto.
  - injection Hc as _ <-. eauto.
Qed.

(** X13. When collection fails, [main] ends with the same exception
    and the same system calls made, before it has written anything or
    emptied a file: the standard output and every file are as they
    were. *)
Theorem main_collection_failure h args s e s1 :
  collect_inventory h (Some (parse_tags (arg_tags args))) s = (Raise e, s1) ->
  main h args s = (Raise e, s1)
  /\ out s1 = out s /\ fs s1 = fs s.
Proof.
  intros Hc. split; [now rewrite main_run, Hc|].
  apply collect_inventory_log in Hc as [evs ->].
  split; reflexivity.
Qed.

(** X16. When [psutil.cpu_freq()] raises (line 103,
    [NotImplementedError] on some platforms) and the load averages and
    the disk loop have gone through, [collect_inventory] and [main] end
    with its exception after the package step, with nothing written:
    no [try] of the source covers the call. *)
Theorem cpu_freq_failure_fatal h e tg s loads s1 ds s2 :
  cpu_freq h = Raise e ->
  load_averages h s = (Ok loads, s1) ->
  collect_disks h s1 = (Ok ds, s2) ->
  exists pkg pkg_evs,
    (forall s0, count_packages h s0 = (Ok pkg, add_log s0 pkg_evs))
    /\ collect_inventory h tg s = (Raise e, add_log s2 pkg_evs)
    /\ (forall args,
          tg = Some (parse_tags (arg_tags args)) ->
          main h args s = (Raise e, add_log s2 pkg_evs))
    /\ out (add_log s2 pkg_evs) = out s
    /\ fs (add_log s2 pkg_evs) = fs s.
Proof.
  intros Hfreq Hload Hd.
  destruct (collect_inventory_run h tg s) as (pkg & evs & Hrun & Heq).
  rewrite Hload, Hd, Hfreq in Heq.
  exists pkg, evs. split; [exact Hrun|]. split; [exact Heq|].
  split.
  - intros args ->. now rewrite main_run, Heq.
  - apply collect_inventory_log in Heq as [evs' Hs]. rewrite Hs.
    split; reflexivity.
Qed.

(** X14. When the output file cannot be opened, [main] ends with the
    exception of [open] and nothing written, in JSON mode and (the row
    being computable) in CSV mode. *)
Theorem main_open_failure h args s data s1 path e :
  collect_inventory h (Some (parse_tags (arg_tags args))) s = (Ok data, s1) ->
  arg_out args = Some path -> path <> [] ->
  open_w h path = Raise e ->
  (arg_format args = FormatCsv -> exists row, csv_row data = Ok row) ->
  main h args s = (Raise e, add_log s1 [EvOpenW path]).
Proof.
  intros Hc Hout Hne Hopen Hrow. rewrite main_run, Hc.
  destruct path as [|c path]; [congruence|].
  destruct (arg_format args).
  - destruct (Hrow eq_refl) as [row Hr].
    unfold write_csv. rewrite Hr, Hout.
    unfold mbind, io_mbind, io_bind, io_lift.
    cbn [open_destination truthy].
    now rewrite (open_write_fails h (c :: path) s1 e Hopen).
  - unfold write_json. rewrite Hout. cbn [truthy].
    unfold mbind, io_mbind, io_bind.
    now rewrite (open_write_fails h (c :: path) s1 e Hopen).
Qed.

End MainFailures.

Lemma main_collection_failure_witness :
  exists s1,
    @main Sample.lib Sample.broken_disk
      {| arg_format := FormatCsv; arg_out := Some (str "inv.csv");
         arg_pretty := false; arg_tags := None |} sys0
    = (Raise FileNotFoundError, s1)
    /\ fs s1 = ∅
    /\ log s1 = [EvGetLoadAvg; EvDiskUsage (str "/");
                 EvDiskUsage (str "/secret")].
Proof.
  destruct (@main_collection_failure Sample.lib Sample.broken_disk
              {| arg_format := FormatCsv; arg_out := Some (str "inv.csv");
                 arg_pretty := false; arg_tags := None |} sys0
              FileNotFoundError
              (add_log sys0 [EvGetLoadAvg; EvDiskUsage (str "/");
                             EvDiskUsage (str "/secret")]) eq_refl)
    as (Hm & _ & Hfs).
  eexists. split; [exact Hm|]. split; reflexivity.
Defined.

Lemma cpu_freq_failure_witness :
  exists s1,
    @main Sample.lib Sample.no_cpu_freq
      {| arg_format := FormatJson; arg_out := None;
         arg_pretty := false; arg_tags := None |} sys0
    = (Raise NotImplementedError, s1)
    /\ out s1 = []
    /\ log s1 = [EvGetLoadAvg; EvDiskUsage (str "/");
                 EvDiskUsage (str "/secret"); EvDiskUsage (str "/data");
                 EvPathExists dpkg_path; EvCheckOutput dpkg_argv 10].
Proof.
  destruct (@cpu_freq_failure_fatal Sample.lib Sample.no_cpu_freq
              NotImplementedError (Some []) sys0 _ _ _ _
              eq_refl eq_refl eq_refl)
    as (pkg & evs & Hrun & _ & Hm & _).
  specialize (Hrun sys0). vm_compute in Hrun. injection Hrun as _ Hevs.
  specialize (Hm {| arg_format := FormatJson; arg_out := None;
                    arg_pretty := false; arg_tags := None |} eq_refl).
  eexists. split; [exact Hm|]. rewrite <- Hevs. split; reflexivity.
Defined.

Lemma main_open_failure_witness :
  let h := {| uname_system := str "Linux"; uname_release := [];
              uname_version := []; uname_machine := [];
              uname_processor := []; vm_total := 1024; vm_available := 0;
              vm_percent := Sample.flt 100 0;
              os_getloadavg := Raise OSError; disk_partitions := [];
              disk_usage := fun _ => Raise PermissionError;
              net_if_addrs := []; net_if_stats := ∅;
              path_exists := fun _ => false;
              check_output := fun _ _ => Raise FileNotFoundError;
              utcnow_isoformat := []; gethostname := []; getfqdn := [];
              cpu_count_physical := None; cpu_count_logical := None;
              cpu_freq := Ok None; time_time := Sample.flt 10 0;
              boot_time := Raise PermissionError;
              open_w := fun _ => Raise PermissionError;
              os_linesep := NlLF; encodes := Sample.utf8 |} in
  exists s1,
    @main Sample.lib h
      {| arg_format := FormatJson; arg_out := Some (str "/inv.json");
         arg_pretty := false; arg_tags := None |} sys0
    = (Raise PermissionError, s1)
    /\ out s1 = [] /\ fs s1 = ∅.
Proof.
  intros h.
  destruct (@collect_inventory Sample.lib h (Some []) sys0)
    as [[data|e] s1] eqn:Hc; [|vm_compute in Hc; discriminate].
  eexists. split.
  - apply (@main_open_failure Sample.lib h
             {| arg_format := FormatJson; arg_out := Some (str "/inv.json");
                arg_pretty := false; arg_tags := None |} sys0 data s1
             (str "/inv.json") PermissionError Hc eq_refl).
    + discriminate.
    + reflexivity.
    + intros Hf. discriminate Hf.
  - vm_compute in Hc. injection Hc as _ <-. split; reflexivity.
Defined.
